(** * Trae Agent web API: task supervisor, event channel, provider client
      and the sequential-thinking tool

    A shallow embedding of
      - [app.py]: the worker [run_agent_task] and the Flask handlers
        [run_task], [stream_task_messages], [get_task_status], [stop_task];
      - [trae_agent/utils/llm_clients/openai_client.py]: [OpenAIClient.chat];
      - [trae_agent/tools/sequential_thinking_tool.py]:
        [SequentialThinkingTool.execute].

    Python values are a small inductive type, dictionaries that travel through
    the message queue are association lists in insertion order, the registry
    [active_tasks] is a finite map, exceptions are values of an error type,
    and everything the handlers read from the operating system (clock, file
    system, process table) is explicit state or an explicit oracle. *)

From Stdlib Require Import ZArith Ascii String List Bool Lia.
From Stdlib Require Import PrimFloat.
From stdpp Require Import base option list gmap strings.

Set Warnings "-register-all,-inexact-float".

Local Open Scope string_scope.
Local Open Scope Z_scope.
Local Open Scope list_scope.

(** ** Python values *)

Module Py.

(** The values that occur in request bodies, tool arguments and queue
    messages.  [PObj cls] stands for any object outside the JSON universe
    (a set, bytes, an instance of a user class); [cls] is its type name. *)
Inductive pyval : Type :=
| PNone
| PBool (b : bool)
| PInt (z : Z)
| PFloat (f : float)
| PStr (s : string)
| PList (l : list pyval)
| PDict (d : list (string * pyval))
| PObj (cls : string).

(** A [dict] with string keys, in insertion order. *)
Definition pydict : Type := list (string * pyval).

(** [d.get(k)]; [k in d] is [d.get(k)] being [Some]. *)
Fixpoint dict_get (k : string) (d : pydict) : option pyval :=
  match d with
  | [] => None
  | (k', v) :: d' => if String.eqb k k' then Some v else dict_get k d'
  end.

(** Python truthiness, [bool(v)]. *)
Definition truthy (v : pyval) : bool :=
  match v with
  | PNone => false
  | PBool b => b
  | PInt z => negb (z =? 0)
  | PFloat f => negb (PrimFloat.eqb f 0%float)
  | PStr s => negb (String.eqb s EmptyString)
  | PList l => match l with [] => false | _ => true end
  | PDict d => match d with [] => false | _ => true end
  | PObj _ => true
  end.

(** Truthiness of the result of [d.get(k)] ([None] when the key is absent). *)
Definition truthy_opt (o : option pyval) : bool :=
  match o with Some v => truthy v | None => false end.

(** [x == s] for a string literal [s]. *)
Definition eq_str (o : option pyval) (s : string) : bool :=
  match o with Some (PStr s') => String.eqb s' s | _ => false end.

(** Exceptions: the class name, [str(e)], and whether the class derives from
    [Exception] (as opposed to the [BaseException]-only classes
    [SystemExit], [KeyboardInterrupt], [GeneratorExit]). *)
Record exn : Type := Exn {
  exn_class : string;
  exn_str : string;
  exn_is_Exception : bool
}.

Definition TypeError (msg : string) : exn := Exn "TypeError" msg true.
Definition ValueError (msg : string) : exn := Exn "ValueError" msg true.
Definition AttributeError (msg : string) : exn := Exn "AttributeError" msg true.
Definition IndexError (msg : string) : exn := Exn "IndexError" msg true.
Definition FileNotFoundError (msg : string) : exn :=
  Exn "FileNotFoundError" msg true.

(** A computation that returns or raises. *)
Definition result (A : Type) : Type := exn + A.

Definition ret {A} (a : A) : result A := inr a.
Definition raise {A} (e : exn) : result A := inl e.
Definition bind {A B} (m : result A) (k : A -> result B) : result B :=
  match m with inl e => inl e | inr a => k a end.

(** *** [json.dumps]

    With the default encoder a value is serialisable when every leaf is
    [None], a [bool], an [int], a [float] or a [str]; the first other object
    met, left to right, raises [TypeError], and an integer whose decimal
    form has more digits than the interpreter converts ([4300]) raises
    [ValueError].  The keys of our dictionaries are strings, and an
    inductive value has no cycle, so the [ValueError] of a circular
    reference cannot arise.  What the interpreter raises when it runs out of
    stack or memory ([RecursionError] on a value nested deeper than the
    stack allows, [MemoryError]) depends on its state, not on the value, and
    is not part of this model. *)
Definition int_str_limit : Z := 10 ^ 4300.

Definition digit_limit_error : exn :=
  ValueError
    "Exceeds the limit (4300 digits) for integer string conversion; use sys.set_int_max_str_digits() to increase the limit".

Definition not_serializable (cls : string) : exn :=
  TypeError ("Object of type " +:+ cls +:+ " is not JSON serializable").

Fixpoint json_offender (v : pyval) : option exn :=
  match v with
  | PNone | PBool _ | PFloat _ | PStr _ => None
  | PInt z =>
      if int_str_limit <=? Z.abs z then Some digit_limit_error else None
  | PList l =>
      (fix go (l : list pyval) : option exn :=
         match l with
         | [] => None
         | x :: l' =>
             match json_offender x with Some c => Some c | None => go l' end
         end) l
  | PDict d =>
      (fix go (d : list (string * pyval)) : option exn :=
         match d with
         | [] => None
         | (_, x) :: d' =>
             match json_offender x with Some c => Some c | None => go d' end
         end) d
  | PObj cls => Some (not_serializable cls)
  end.

(** The text produced by [json.dumps v] is kept symbolic: [JsonText v] is
    "the JSON encoding of [v]". *)
Inductive json_text : Type := JsonText (v : pyval).

Definition json_dumps (v : pyval) : result json_text :=
  match json_offender v with
  | None => ret (JsonText v)
  | Some e => raise e
  end.

(** Integers of the size of a machine word are far below the limit. *)
Lemma int_str_limit_pos : 0 < int_str_limit.
Proof. unfold int_str_limit. by apply Z.pow_pos_nonneg. Qed.

Lemma machine_int_below_limit z : Z.abs z < 2 ^ 63 -> Z.abs z < int_str_limit.
Proof.
  intros Hz. apply (Z.lt_le_trans _ (10 ^ 19)); [lia|].
  unfold int_str_limit. apply Z.pow_le_mono_r; lia.
Qed.

Lemma json_offender_PInt z : Z.abs z < int_str_limit -> json_offender (PInt z) = None.
Proof.
  intros Hz. cbn [json_offender].
  by destruct (Z.leb_spec int_str_limit (Z.abs z)); [lia|].
Qed.

Lemma json_offender_limit : json_offender (PInt int_str_limit) = Some digit_limit_error.
Proof.
  cbn [json_offender].
  rewrite Z.abs_eq by (pose proof int_str_limit_pos; lia).
  by rewrite Z.leb_refl.
Qed.

Global Opaque int_str_limit.

End Py.

(** ** The worker process: [run_agent_task] *)

Module Worker.
Import Py.

(** What one call of [asyncio.run(agent.run(task, task_args))] did: how many
    Turn+ExecutingTools cycles the agent loop completed, and whether the call
    returned or raised.  The agent loop itself lives in [trae_agent.agent];
    the worker only sees this outcome. *)
Record run_report : Type := RunReport {
  completed_cycles : nat;
  run_outcome : result pyval
}.

(** The worker's side of the channel: the messages put so far, oldest first,
    and the number of clock readings taken (each [put] reads [time.time()]
    once). *)
Record wstate : Type := WState {
  message_queue : list pydict;
  clock_reads : nat
}.

Definition fresh : wstate := WState [] 0.

(** Worker computations: they return or raise, and thread the channel. *)
Definition W (A : Type) : Type := wstate -> result A * wstate.

Definition wlift {A} (r : result A) : W A := fun s => (r, s).
Definition wbind {A B} (m : W A) (k : A -> W B) : W B :=
  fun s => match m s with
           | (inl e, s') => (inl e, s')
           | (inr a, s') => k a s'
           end.

Notation "x <- m ;; k" := (wbind m (fun x => k))
  (at level 100, m at next level, right associativity).

(** The five records of [run_agent_task], as functions of the timestamp. *)
Definition start_event (task_id task : string) (t : float) : pydict :=
  [("type", PStr "start"); ("task_id", PStr task_id);
   ("message", PStr ("开始执行任务: " +:+ task)); ("timestamp", PFloat t)].

Definition complete_event (task_id : string) (t : float) : pydict :=
  [("type", PStr "complete"); ("task_id", PStr task_id);
   ("message", PStr "任务执行完成"); ("timestamp", PFloat t)].

Definition error_event (task_id err tb : string) (t : float) : pydict :=
  [("type", PStr "error"); ("task_id", PStr task_id);
   ("error", PStr err); ("traceback", PStr tb); ("timestamp", PFloat t)].

Definition end_event (task_id : string) (t : float) : pydict :=
  [("type", PStr "end"); ("task_id", PStr task_id); ("timestamp", PFloat t)].

(** The ['type'] field of a message, the empty string when it has none. *)
Definition tag (m : pydict) : string :=
  match dict_get "type" m with Some (PStr s) => s | _ => EmptyString end.

Definition is_type (ty : string) (m : pydict) : bool :=
  eq_str (dict_get "type" m) ty.

Definition count_type (ty : string) (evs : list pydict) : nat :=
  length (filter (fun m => is_type ty m = true) evs).

Section RunAgentTask.

(** External collaborators of the worker. *)
Variables config agent : Type.
Variable create_agent_config : pydict -> result config.
Variable Agent : config -> result agent.
Variable agent_run : agent -> string -> pydict -> run_report.
(** [time.time()], by the number of readings so far, and
    [traceback.format_exc()]. *)
Variable time_time : nat -> float.
Variable format_exc : exn -> string.

(** [message_queue.put(record)] where [record] reads the clock once. *)
Definition put (mk : float -> pydict) : W unit :=
  fun s =>
    (ret tt,
     WState (message_queue s ++ [mk (time_time (clock_reads s))])
            (S (clock_reads s))).

(** The body of the [try]. *)
Definition try_body (task_id task : string) (config_data task_args : pydict)
  : W unit :=
  cfg <- wlift (create_agent_config config_data) ;;
  ag <- wlift (Agent cfg) ;;
  _ <- put (start_event task_id task) ;;
  _ <- wlift (run_outcome (agent_run ag task task_args)) ;;
  put (complete_event task_id).

(** [try: ... except Exception as e: put(error) finally: put(end)].
    An exception that is not an [Exception] skips the handler, still runs
    the [finally] block, and then leaves the function. *)
Definition run_agent_task (task_id task : string)
    (config_data task_args : pydict) : W unit :=
  fun s =>
    let '(r, s1) := try_body task_id task config_data task_args s in
    let '(r', s2) :=
      match r with
      | inr _ => (ret tt, s1)
      | inl e =>
          if exn_is_Exception e
          then put (error_event task_id (exn_str e) (format_exc e)) s1
          else (raise e, s1)
      end in
    let '(_, s3) := put (end_event task_id) s2 in
    (r', s3).

(** Everything the worker puts on a fresh queue. *)
Definition run_events (task_id task : string)
    (config_data task_args : pydict) : list pydict :=
  message_queue (snd (run_agent_task task_id task config_data task_args fresh)).

(** The outcome of the [try] body on a fresh queue. *)
Definition body_outcome (task_id task : string)
    (config_data task_args : pydict) : result unit :=
  fst (try_body task_id task config_data task_args fresh).

(** *** What the worker emits, by outcome of the [try] body *)

Definition tags (evs : list pydict) : list string := map tag evs.

Lemma run_events_tags task_id task config_data task_args :
  tags (run_events task_id task config_data task_args) =
  match create_agent_config config_data with
  | inl e => if exn_is_Exception e then ["error"; "end"] else ["end"]
  | inr cfg =>
      match Agent cfg with
      | inl e => if exn_is_Exception e then ["error"; "end"] else ["end"]
      | inr ag =>
          match run_outcome (agent_run ag task task_args) with
          | inl e =>
              if exn_is_Exception e
              then ["start"; "error"; "end"] else ["start"; "end"]
          | inr _ => ["start"; "complete"; "end"]
          end
      end
  end.
Proof.
  unfold run_events, run_agent_task, try_body, wbind, wlift.
  destruct (create_agent_config config_data) as [e|cfg]; simpl.
  { destruct (exn_is_Exception e); reflexivity. }
  destruct (Agent cfg) as [e|ag]; simpl.
  { destruct (exn_is_Exception e); reflexivity. }
  destruct (run_outcome (agent_run ag task task_args)) as [e|r]; simpl.
  { destruct (exn_is_Exception e); reflexivity. }
  reflexivity.
Qed.

Lemma body_outcome_cases task_id task config_data task_args :
  body_outcome task_id task config_data task_args =
  match create_agent_config config_data with
  | inl e => inl e
  | inr cfg =>
      match Agent cfg with
      | inl e => inl e
      | inr ag =>
          match run_outcome (agent_run ag task task_args) with
          | inl e => inl e
          | inr _ => inr tt
          end
      end
  end.
Proof.
  unfold body_outcome, try_body, wbind, wlift.
  destruct (create_agent_config config_data) as [e|cfg]; simpl; [reflexivity|].
  destruct (Agent cfg) as [e|ag]; simpl; [reflexivity|].
  destruct (run_outcome (agent_run ag task task_args)); reflexivity.
Qed.

End RunAgentTask.

(** A [try] body that returns, or raises an [Exception]. *)
Definition raises_only_Exception {A} (r : result A) : Prop :=
  match r with inl e => exn_is_Exception e = true | inr _ => True end.

(** The shape the channel contract asks of a finished task's events:
    one [complete] or [error], directly followed by the single [end], which
    is last. *)
Definition terminated_once (evs : list pydict) : Prop :=
  (count_type "complete" evs + count_type "error" evs = 1)%nat /\
  count_type "end" evs = 1%nat /\
  exists pre t e,
    evs = pre ++ [t; e] /\
    (is_type "complete" t = true \/ is_type "error" t = true) /\
    is_type "end" e = true.

(** A clock that advances by one second per reading. *)
Fixpoint seconds (n : nat) : float :=
  match n with
  | O => 0%float
  | S k => PrimFloat.add (seconds k) 1%float
  end.

(** A concrete set of collaborators, used to run the worker: configuration
    and agent construction succeed, and the agent loop does what [r] says. *)
Definition run_with (r : run_report) (task_id task : string) : list pydict :=
  run_events unit unit (fun _ => ret tt) (fun _ => ret tt) (fun _ _ _ => r)
    seconds (fun e => exn_class e)
    task_id task [] [].

(** One model turn with a final answer and no tool call: one completed
    cycle, then a normal return. *)
Definition final_answer_at_once : run_report := RunReport 1 (ret PNone).

(** The agent raises in its second cycle. *)
Definition fails_in_second_cycle : run_report :=
  RunReport 1 (raise (ValueError "provider rejected the request")).

Example run_with_final_answer :
  run_with final_answer_at_once "t1" "hello" =
  [ start_event "t1" "hello" 0%float;
    complete_event "t1" 1%float;
    end_event "t1" 2%float ].
Proof. reflexivity. Qed.

Example run_with_failure :
  tags (run_with fails_in_second_cycle "t1" "hello") = ["start"; "error"; "end"].
Proof. reflexivity. Qed.

(** The run is interrupted: [KeyboardInterrupt] derives from [BaseException]
    only. *)
Definition interrupted : run_report :=
  RunReport 0 (raise (Exn "KeyboardInterrupt" EmptyString false)).

Local Ltac by_outcome :=
  unfold run_events, body_outcome, run_agent_task, try_body, wbind, wlift in *;
  repeat match goal with
    | |- context [match ?o with inl _ => _ | inr _ => _ end] =>
        destruct o as [?e|?a]; simpl in *
    | |- context [exn_is_Exception ?e] =>
        destruct (exn_is_Exception e) eqn:?; simpl in *
    end.

(** C1, refuted as stated: an exception that is not an [Exception] skips the
    handler, so the interrupted run puts [start] and [end] on the queue and
    neither [complete] nor [error]. *)
Lemma run_agent_task_interrupted :
  tags (run_with interrupted "t1" "hello") = ["start"; "end"] /\
  ~ terminated_once (run_with interrupted "t1" "hello").
Proof.
  split; [reflexivity|].
  intros [H _]. vm_compute in H. discriminate H.
Qed.

(** C1, amended. The events [run_agent_task] puts on the task's queue
    contain at most one of [complete] / [error] and exactly one [end], which
    is last.  When the [try] body returns normally or raises an instance of
    [Exception] they contain exactly one of [complete] / [error], directly
    followed by the [end]; when it raises any other exception they contain
    neither. *)
Theorem run_agent_task_terminal_events :
  forall (config agent : Type)
         (create_agent_config : pydict -> result config)
         (Agent : config -> result agent)
         (agent_run : agent -> string -> pydict -> run_report)
         (time_time : nat -> float) (format_exc : exn -> string)
         (task_id task : string) (config_data task_args : pydict),
    let evs := run_events config agent create_agent_config Agent agent_run
                 time_time format_exc task_id task config_data task_args in
    let outcome := body_outcome config agent create_agent_config Agent
                     agent_run time_time task_id task config_data task_args in
    (count_type "complete" evs + count_type "error" evs <= 1)%nat /\
    count_type "end" evs = 1%nat /\
    (exists pre e, evs = pre ++ [e] /\ is_type "end" e = true) /\
    (raises_only_Exception outcome -> terminated_once evs) /\
    (forall e, outcome = inl e -> exn_is_Exception e = false ->
               (count_type "complete" evs + count_type "error" evs = 0)%nat).
Proof.
  intros config agent cac Ag run tt_ fe task_id task cd ta evs outcome.
  subst evs outcome. unfold terminated_once, raises_only_Exception.
  by_outcome.
  all: split; [vm_compute; lia|]; split; [reflexivity|].
  all: split;
    [first [ by eexists [], _ | by eexists [_], _ | by eexists [_; _], _ ]|].
  all: split.
  all: try (intros H; discriminate H).
  all: try (intros e' He' Hx; inversion He'; subst; first [congruence|reflexivity]).
  all: intros _; split; [reflexivity|]; split; [reflexivity|].
  all: first
         [ by (eexists [], _, _; split; [reflexivity|]; split; [|reflexivity];
               first [ by left | by right ])
         | by (eexists [_], _, _; split; [reflexivity|]; split; [|reflexivity];
               first [ by left | by right ]) ].
Qed.

Lemma run_agent_task_terminal_events_witness :
  terminated_once (run_with fails_in_second_cycle "t1" "hello") /\
  (count_type "complete" (run_with interrupted "t1" "hello") +
   count_type "error" (run_with interrupted "t1" "hello") = 0)%nat.
Proof.
  unfold run_with. split.
  - apply run_agent_task_terminal_events. simpl. reflexivity.
  - eapply run_agent_task_terminal_events; reflexivity.
Defined.

(** C2 as the specification states it for its example: the run with one
    completed cycle and a final answer would be [start, step, complete, end],
    one [step] per completed cycle. *)
Definition one_step_per_cycle (r : run_report) (evs : list pydict) : Prop :=
  count_type "step" evs = completed_cycles r.

(** C2, refuted: the worker is the only writer of the queue and it never puts
    a [step] record; the run of the example yields [start, complete, end]. *)
Lemma run_agent_task_step_counterexample :
  tags (run_with final_answer_at_once "t1" "hello") = ["start"; "complete"; "end"] /\
  tags (run_with final_answer_at_once "t1" "hello")
    <> ["start"; "step"; "complete"; "end"] /\
  ~ one_step_per_cycle final_answer_at_once
      (run_with final_answer_at_once "t1" "hello").
Proof.
  split; [reflexivity|]. split; [discriminate|].
  unfold one_step_per_cycle. simpl. discriminate.
Qed.

(** C2, amended. Whatever the agent loop did, [run_agent_task] puts no
    [step] record on the queue; when the [try] body returns normally the
    events are exactly [start, complete, end]. *)
Theorem run_agent_task_emits_no_step :
  forall (config agent : Type)
         (create_agent_config : pydict -> result config)
         (Agent : config -> result agent)
         (agent_run : agent -> string -> pydict -> run_report)
         (time_time : nat -> float) (format_exc : exn -> string)
         (task_id task : string) (config_data task_args : pydict),
    let evs := run_events config agent create_agent_config Agent agent_run
                 time_time format_exc task_id task config_data task_args in
    count_type "step" evs = 0%nat /\
    (body_outcome config agent create_agent_config Agent agent_run time_time
       task_id task config_data task_args = ret tt ->
     tags evs = ["start"; "complete"; "end"]).
Proof.
  intros config agent cac Ag run tt_ fe task_id task cd ta evs. subst evs.
  split.
  - unfold run_events, run_agent_task, try_body, wbind, wlift.
    destruct (cac cd) as [e|cfg]; simpl.
    { destruct (exn_is_Exception e); reflexivity. }
    destruct (Ag cfg) as [e|ag]; simpl.
    { destruct (exn_is_Exception e); reflexivity. }
    destruct (run_outcome (run ag task ta)) as [e|r]; simpl.
    { destruct (exn_is_Exception e); reflexivity. }
    reflexivity.
  - intros H. rewrite run_events_tags. rewrite body_outcome_cases in H.
    destruct (cac cd) as [e|cfg]; [discriminate|].
    destruct (Ag cfg) as [e|ag]; [discriminate|].
    destruct (run_outcome (run ag task ta)); [discriminate|reflexivity].
Qed.

Lemma run_agent_task_emits_no_step_witness :
  count_type "step" (run_with final_answer_at_once "t1" "hello") = 0%nat /\
  tags (run_with final_answer_at_once "t1" "hello") = ["start"; "complete"; "end"].
Proof.
  unfold run_with.
  pose proof (run_agent_task_emits_no_step unit unit (fun _ => ret tt)
                (fun _ => ret tt) (fun _ _ _ => final_answer_at_once)
                seconds
                (fun e => exn_class e) "t1" "hello" [] []) as [H0 H1].
  split; [exact H0 | apply H1; reflexivity].
Defined.

(** *** The records themselves *)

(** What the handler and the [finally] block put when the [try] body raised
    [e], [n] readings of the clock having been taken. *)
Definition failure_events (time_time : nat -> float) (format_exc : exn -> string)
    (task_id : string) (e : exn) (n : nat) : list pydict :=
  if exn_is_Exception e
  then [error_event task_id (exn_str e) (format_exc e) (time_time n);
        end_event task_id (time_time (S n))]
  else [end_event task_id (time_time n)].

(** The events of a run, in full: which records, and which reading of the
    clock each carries. *)
Lemma run_events_cases (config agent : Type)
    (create_agent_config : pydict -> result config)
    (Agent : config -> result agent)
    (agent_run : agent -> string -> pydict -> run_report)
    (time_time : nat -> float) (format_exc : exn -> string)
    (task_id task : string) (config_data task_args : pydict) :
  run_events config agent create_agent_config Agent agent_run time_time
    format_exc task_id task config_data task_args =
  match create_agent_config config_data with
  | inl e => failure_events time_time format_exc task_id e 0
  | inr cfg =>
      match Agent cfg with
      | inl e => failure_events time_time format_exc task_id e 0
      | inr ag =>
          start_event task_id task (time_time 0%nat) ::
          match run_outcome (agent_run ag task task_args) with
          | inl e => failure_events time_time format_exc task_id e 1
          | inr _ => [complete_event task_id (time_time 1%nat);
                      end_event task_id (time_time 2%nat)]
          end
      end
  end.
Proof.
  unfold run_events, run_agent_task, try_body, wbind, wlift, failure_events.
  destruct (create_agent_config config_data) as [e|cfg]; simpl.
  { destruct (exn_is_Exception e); reflexivity. }
  destruct (Agent cfg) as [e|ag]; simpl.
  { destruct (exn_is_Exception e); reflexivity. }
  destruct (run_outcome (agent_run ag task task_args)) as [e|r]; simpl.
  { destruct (exn_is_Exception e); reflexivity. }
  reflexivity.
Qed.

(** A record of the worker: it names the task, it is one of the four kinds,
    and [json.dumps] accepts it as it is. *)
Definition well_formed (task_id : string) (m : pydict) : Prop :=
  dict_get "task_id" m = Some (PStr task_id) /\
  In (tag m) ["start"; "complete"; "error"; "end"] /\
  json_dumps (PDict m) = ret (JsonText (PDict m)).

Local Ltac event_facts :=
  repeat match goal with
    | |- _ /\ _ => split
    | |- Forall _ [] => constructor
    | |- Forall _ (_ :: _) => constructor
    | |- Forall _ (_ ++ _) => simpl
    | |- In _ _ => simpl
    | |- _ \/ _ => first [by left | right]
    | |- (_ <= _)%nat => simpl; lia
    | |- _ = _ => reflexivity
    end.

(** The events of a run end with the single [end], nothing before it is an
    [end], and there are at most three. *)
Lemma run_events_end_last (config agent : Type)
    (create_agent_config : pydict -> result config)
    (Agent : config -> result agent)
    (agent_run : agent -> string -> pydict -> run_report)
    (time_time : nat -> float) (format_exc : exn -> string)
    (task_id task : string) (config_data task_args : pydict) :
  exists pre e,
    run_events config agent create_agent_config Agent agent_run time_time
      format_exc task_id task config_data task_args = pre ++ [e] /\
    Forall (fun m => is_type "end" m = false) pre /\
    is_type "end" e = true /\
    Forall (well_formed task_id) (pre ++ [e]) /\
    (length pre <= 2)%nat.
Proof.
  rewrite run_events_cases. unfold well_formed, failure_events.
  destruct (create_agent_config config_data) as [e|cfg];
    [|destruct (Agent cfg) as [e|ag];
      [|destruct (run_outcome (agent_run ag task task_args)) as [e|r]]];
    try destruct (exn_is_Exception e);
    first [ eexists [], _; split; [reflexivity|]
          | eexists [_], _; split; [reflexivity|]
          | eexists [_; _], _; split; [reflexivity|] ];
    event_facts.
Qed.

(** X12. Every record [run_agent_task] puts on the queue names the task, is
    of type [start], [complete], [error] or [end], and is accepted by
    [json.dumps] unchanged; the timestamps are the successive readings of
    the clock, one per record; and a [start], when there is one, is the
    first record. *)
Theorem run_agent_task_events_well_formed :
  forall (config agent : Type)
         (create_agent_config : pydict -> result config)
         (Agent : config -> result agent)
         (agent_run : agent -> string -> pydict -> run_report)
         (time_time : nat -> float) (format_exc : exn -> string)
         (task_id task : string) (config_data task_args : pydict),
    let evs := run_events config agent create_agent_config Agent agent_run
                 time_time format_exc task_id task config_data task_args in
    Forall (well_formed task_id) evs /\
    map (dict_get "timestamp") evs =
      map (fun i => Some (PFloat (time_time i))) (seq 0%nat (length evs)) /\
    (forall i m, evs !! i = Some m -> is_type "start" m = true -> i = 0%nat).
Proof.
  intros config agent cac Ag run tt_ fe task_id task cd ta evs. subst evs.
  split; [|split].
  - destruct (run_events_end_last config agent cac Ag run tt_ fe task_id task
                cd ta) as (pre & e & -> & _ & _ & H & _).
    exact H.
  - rewrite run_events_cases. unfold failure_events.
    destruct (cac cd) as [e|cfg]; [by destruct (exn_is_Exception e)|].
    destruct (Ag cfg) as [e|ag]; [by destruct (exn_is_Exception e)|].
    destruct (run_outcome (run ag task ta)) as [e|r]; [|reflexivity].
    by destruct (exn_is_Exception e).
  - rewrite run_events_cases. unfold failure_events. intros i m.
    destruct (cac cd) as [e|cfg].
    { destruct (exn_is_Exception e); destruct i as [|[|i]]; simpl;
        intros H; inversion H; subst; discriminate. }
    destruct (Ag cfg) as [e|ag].
    { destruct (exn_is_Exception e); destruct i as [|[|i]]; simpl;
        intros H; inversion H; subst; discriminate. }
    destruct i as [|i]; [done|]. simpl.
    destruct (run_outcome (run ag task ta)) as [e|r].
    { destruct (exn_is_Exception e); destruct i as [|[|i]]; simpl;
        intros H; inversion H; subst; discriminate. }
    destruct i as [|[|i]]; simpl; intros H; inversion H; subst; discriminate.
Qed.

End Worker.

(** ** The supervisor: registry, processes, queues and the HTTP handlers *)

Module Api.
Import Py.

(** *** Worker processes, as the parent sees them

    A [multiprocessing.Process] handle names an operating-system process that
    outlives the registry entry; the process table is therefore part of the
    server state and a handle is an index into it. *)

Inductive proc_call : Type :=
| Terminate
| Join (timeout : option float)
| Kill.

Record proc_state : Type := ProcState {
  alive : bool;
  (** seconds the worker needs to exit once SIGTERM is delivered; [None]
      when it does not exit on SIGTERM *)
  term_exit : option float;
  (** the methods called on the handle so far, oldest first *)
  calls : list proc_call
}.

Definition is_terminate (c : proc_call) : bool :=
  match c with Terminate => true | _ => false end.
Definition is_kill (c : proc_call) : bool :=
  match c with Kill => true | _ => false end.

Definition is_alive (p : proc_state) : bool := alive p.

Definition terminate (p : proc_state) : proc_state :=
  ProcState (alive p) (term_exit p) (calls p ++ [Terminate]).

Definition kill (p : proc_state) : proc_state :=
  ProcState (alive p) (term_exit p) (calls p ++ [Kill]).

(** Does a signalled process exit within [timeout] ([None]: unbounded)? *)
Definition exits_within (timeout : option float) (p : proc_state) : bool :=
  existsb is_kill (calls p)
  || (existsb is_terminate (calls p)
      && match term_exit p, timeout with
         | Some d, Some t => PrimFloat.leb d t
         | Some _, None => true
         | None, _ => false
         end).

(** [process.join(timeout)]: returns with the process reaped when it exits
    in time.  A [join()] without timeout on a process that never exits would
    not return; the handlers only call it after [kill]. *)
Definition join (timeout : option float) (p : proc_state) : proc_state :=
  ProcState (alive p && negb (exits_within timeout p)) (term_exit p)
            (calls p ++ [Join timeout]).

(** *** The registry *)

(** An entry of [active_tasks]: handles of the process and of the queue, and
    the two plain fields. *)
Record task_info : Type := TaskInfo {
  process : nat;
  queue : nat;
  start_time : float;
  status : string
}.

Record server : Type := Server {
  active_tasks : gmap string task_info;
  procs : gmap nat proc_state;
  queues : gmap nat (list pydict);
  (** [time.time()] *)
  clock : float;
  (** handles (and task ids) allocated so far *)
  spawned : nat
}.

Definition proc_of (srv : server) (pid : nat) : proc_state :=
  default (ProcState false None []) (procs srv !! pid).

Definition queue_of (srv : server) (qid : nat) : list pydict :=
  default [] (queues srv !! qid).

Definition set_active (f : gmap string task_info -> gmap string task_info)
    (srv : server) : server :=
  Server (f (active_tasks srv)) (procs srv) (queues srv) (clock srv) (spawned srv).

Definition set_proc (pid : nat) (p : proc_state) (srv : server) : server :=
  Server (active_tasks srv) (<[pid := p]> (procs srv)) (queues srv)
         (clock srv) (spawned srv).

Definition set_queue (qid : nat) (q : list pydict) (srv : server) : server :=
  Server (active_tasks srv) (procs srv) (<[qid := q]> (queues srv))
         (clock srv) (spawned srv).

Definition set_clock (t : float) (srv : server) : server :=
  Server (active_tasks srv) (procs srv) (queues srv) t (spawned srv).

(** *** Responses *)

(** [Unhandled e]: the exception [e], which no clause of the handler
    catches, leaves the view function and no answer is built. *)
Inductive response : Type :=
| Json (code : Z) (body : pydict)
| EventStream (task_id : string)
| Unhandled (e : exn).

Definition not_found : response := Json 404 [("error", PStr "Task not found")].

Definition bad_request (msg : string) : response := Json 400 [("error", PStr msg)].

Definition code_of (r : response) : Z :=
  match r with Json c _ => c | EventStream _ => 200 | Unhandled _ => 0 end.

(** What a generator yields: a server-sent-events record.  [Data txt] is
    the text [data: <txt>] followed by a blank line; [RawEnd task_id t] is the
    record the stream formats by hand,
    [data: {type: end, task_id: <task_id>, timestamp: <t>}]. *)
Inductive chunk : Type :=
| Data (payload : json_text)
| RawEnd (task_id : string) (t : float).

(** A yield together with its origin: the queue message it relays, or none
    for the synthesised end. *)
Inductive yielded : Type :=
| Relay (message : pydict) (c : chunk)
| SynthEnd (c : chunk).

Definition chunk_of (y : yielded) : chunk :=
  match y with Relay _ c => c | SynthEnd c => c end.

Section Handlers.

(** The environment of the handlers. *)
(** [str(v)]: the text, or what a [__repr__] on the way raises (an integer
    past the digit limit raises [ValueError] here as in [json.dumps]); it is
    never [queue.Empty], which only the queue raises *)
Variable py_str : pyval -> result string.
(** [traceback.format_exc()] *)
Variable format_exc : exn -> string.
(** [Path(p).read_text()] *)
Variable read_text : string -> result string.
(** [os.getcwd()], [os.path.join], [Path(d).mkdir(parents=True,
    exist_ok=True)], [os.path.abspath], [Path(d).is_absolute()] *)
Variable getcwd : string.
Variable path_join : string -> string -> string.
Variable mkdir : string -> result unit.
Variable abspath : string -> string.
Variable is_absolute : string -> bool.
(** [str(uuid.uuid4())], by the number of ids drawn so far *)
Variable uuid4 : nat -> string.
(** [process.start()] for the n-th worker: the error it raises, if any, and
    how the started worker reacts to SIGTERM *)
Variable start_fails : nat -> option exn.
Variable worker_term_exit : nat -> option float.

(** The body of the [except Exception] clauses that answer 500. *)
Definition server_error (e : exn) : response :=
  Json 500 [("status", PStr "error"); ("error", PStr (exn_str e));
            ("traceback", PStr (format_exc e))].

Definition status_error (e : exn) : response :=
  Json 500 [("status", PStr "error"); ("error", PStr (exn_str e))].

(** The record both readers substitute for a message that [json.dumps]
    rejects; [original] is [str(message)]. *)
Definition error_message (e : exn) (original : string) (t : float) : pydict :=
  [("type", PStr "error");
   ("message", PStr ("Message serialization error: " +:+ exn_str e));
   ("original_message", PStr original);
   ("timestamp", PFloat t)].

(** *** [get_task_status] *)

(** The inner [try] of both readers on one message: the message itself
    when [json.dumps] takes it; otherwise the handler builds the substitute,
    and [str(message)], which runs inside the handler, may raise in its
    turn. *)
Definition checked (t : float) (message : pydict) : result pydict :=
  match json_dumps (PDict message) with
  | inr _ => ret message
  | inl e =>
      match py_str (PDict message) with
      | inr original => ret (error_message e original t)
      | inl e' => raise e'
      end
  end.

(** [while True: message = queue.get_nowait() ... except queue.Empty: break]:
    the list built, or the exception that left the loop, and what is then
    still in the queue. *)
Fixpoint drain (t : float) (q : list pydict) (messages : list pydict)
  : result (list pydict) * list pydict :=
  match q with
  | [] => (ret messages, [])
  | message :: q' =>
      match checked t message with
      | inr m => drain t q' (messages ++ [m])
      | inl e => (raise e, q')
      end
  end.

(** [jsonify(body)] inside a [try] whose handler answers 500. *)
Definition jsonify_or_500 (body : pydict) : response :=
  match json_dumps (PDict body) with
  | inr _ => Json 200 body
  | inl e => status_error e
  end.

Definition get_task_status (task_id : string) (srv : server)
  : response * server :=
  match active_tasks srv !! task_id with
  | None => (not_found, srv)
  | Some ti =>
      let running := is_alive (proc_of srv (process ti)) in
      let st := if running then "running" else "completed" in
      let ti' :=
        if running then ti
        else TaskInfo (process ti) (queue ti) (start_time ti) st in
      let srv1 := set_active (<[task_id := ti']>) srv in
      match drain (clock srv) (queue_of srv (queue ti)) [] with
      | (inr messages, remaining) =>
          (jsonify_or_500
             [("status", PStr "success");
              ("task_id", PStr task_id);
              ("task_status", PStr st);
              ("start_time", PFloat (start_time ti));
              ("duration",
               PFloat (PrimFloat.sub (clock srv) (start_time ti)));
              ("messages", PList (map PDict messages))],
           set_queue (queue ti) remaining srv1)
      | (inl e, remaining) =>
          (* except Exception *)
          (if exn_is_Exception e then status_error e else Unhandled e,
           set_queue (queue ti) remaining srv1)
      end
  end.

(** *** [stop_task]

    The handle methods do not raise on a child this process has started,
    the only kind [run_task] registers, and the key is present when
    [del] runs; the handler's [except] clause is not reached. *)

(** The process part of the [try] body. *)
Definition stop_process (p : proc_state) : proc_state :=
  if is_alive p then
    let p1 := join (Some 5%float) (terminate p) in
    if is_alive p1 then join None (kill p1) else p1
  else p.

Definition stop_task (task_id : string) (srv : server) : response * server :=
  match active_tasks srv !! task_id with
  | None => (not_found, srv)
  | Some ti =>
      let srv1 :=
        set_proc (process ti) (stop_process (proc_of srv (process ti))) srv in
      (Json 200 [("status", PStr "success");
                 ("message", PStr "Task stopped successfully")],
       set_active (delete task_id) srv1)
  end.

(** *** [stream_task_messages] and its generator *)

Definition stream_task_messages (task_id : string) (srv : server)
  : response * server :=
  match active_tasks srv !! task_id with
  | None => (not_found, srv)
  | Some _ => (EventStream task_id, srv)
  end.

(** One pass through the body of [while True]. *)
Inductive iter_result : Type :=
| Continue (ys : list yielded)
| Break (ys : list yielded)
| Abort (e : exn).

(** [if message.get('type') == 'end': break] *)
Definition after_yield (message : pydict) (ys : list yielded) : iter_result :=
  if eq_str (dict_get "type" message) "end" then Break ys else Continue ys.

(** [time.sleep(0.1)] *)
Definition sleep (srv : server) : server :=
  set_clock (PrimFloat.add (clock srv) 0.1%float) srv.

(** What the worker of the task does while a reader runs: it puts a message
    or exits (a dead worker puts nothing); and time passes.  Other readers of
    the same queue are not part of this environment. *)
Inductive env_act : Type :=
| Put (m : pydict)
| Exit
| Elapse (dt : float).

Definition apply_act (ti : task_info) (srv : server) (a : env_act) : server :=
  match a with
  | Put m =>
      if is_alive (proc_of srv (process ti))
      then set_queue (queue ti) (queue_of srv (queue ti) ++ [m]) srv
      else srv
  | Exit =>
      let p := proc_of srv (process ti) in
      set_proc (process ti) (ProcState false (term_exit p) (calls p)) srv
  | Elapse dt => set_clock (PrimFloat.add (clock srv) dt) srv
  end.

Definition apply_acts (ti : task_info) (acts : list env_act) (srv : server)
  : server := foldl (apply_act ti) srv acts.

(** A pass reads shared state twice: [get_nowait()], and, when that raised
    [queue.Empty], [is_alive()].  [meanwhile] is what the worker does between
    the two reads (after the read, when a message was there). *)
Definition generate_iter (task_id : string) (ti : task_info)
    (meanwhile : list env_act) (srv : server) : iter_result * server :=
  match queue_of srv (queue ti) with
  | message :: rest =>
      let srv1 := apply_acts ti meanwhile (set_queue (queue ti) rest srv) in
      match json_dumps (PDict message) with
      | inr txt => (after_yield message [Relay message (Data txt)], srv1)
      | inl e =>
          (* except (TypeError, ValueError): json.dumps raises no other *)
          match py_str (PDict message) with
          | inl e' =>
              (* raised inside the handler: it leaves the generator *)
              (Abort e', srv1)
          | inr original =>
              match json_dumps
                      (PDict (error_message e original (clock srv))) with
              | inr txt =>
                  (after_yield message [Relay message (Data txt)], srv1)
              | inl e' => (Abort e', srv1)
              end
          end
      end
  | [] =>
      (* except queue.Empty *)
      let srv1 := apply_acts ti meanwhile srv in
      if negb (is_alive (proc_of srv1 (process ti)))
      then (Break [SynthEnd (RawEnd task_id (clock srv1))], srv1)
      else (Continue [], sleep srv1)
  end.

(** What the environment does around one pass of the loop: [before] the
    queue is read, and [meanwhile]. *)
Record pass_env : Type := PassEnv {
  before : list env_act;
  meanwhile : list env_act
}.

Definition idle : pass_env := PassEnv [] [].

Definition pass_acts (p : pass_env) : list env_act := before p ++ meanwhile p.

Inductive stream_state : Type :=
| Streaming
| Closed
| Aborted (e : exn).

(** The generator run against a schedule, one entry per pass.  The run ends
    when the loop breaks; a schedule that runs out leaves the stream open. *)
Fixpoint generate_loop (task_id : string) (ti : task_info)
    (sched : list pass_env) (srv : server)
  : list yielded * stream_state * server :=
  match sched with
  | [] => ([], Streaming, srv)
  | p :: sched' =>
      match generate_iter task_id ti (meanwhile p)
              (apply_acts ti (before p) srv) with
      | (Continue ys, srv1) =>
          let '(ys', st, srv2) := generate_loop task_id ti sched' srv1 in
          (ys ++ ys', st, srv2)
      | (Break ys, srv1) => (ys, Closed, srv1)
      | (Abort e, srv1) => ([], Aborted e, srv1)
      end
  end.

(** [generate()]: [task_info = active_tasks[task_id]] runs when the
    response is first iterated. *)
Definition generate (task_id : string) (sched : list pass_env)
    (srv : server) : list yielded * stream_state * server :=
  match active_tasks srv !! task_id with
  | None => ([], Aborted (Exn "KeyError" task_id true), srv)
  | Some ti => generate_loop task_id ti sched srv
  end.

(** *** [run_task] *)

(** The choice between [task] and [file_path]; [inl] is an early return. *)
Definition resolve_task (task file_path : option pyval) : response + pyval :=
  if truthy_opt file_path then
    if truthy_opt task
    then inl (bad_request "Cannot use both task and file_path")
    else
      match file_path with
      | Some (PStr p) =>
          match read_text p with
          | inr content => inr (PStr content)
          | inl e =>
              if String.eqb (exn_class e) "FileNotFoundError"
              then inl (bad_request ("File not found: " +:+ p))
              else inl (server_error e)
          end
      | _ =>
          inl (server_error
                 (TypeError "expected str, bytes or os.PathLike object"))
      end
  else if negb (truthy_opt task)
  then inl (bad_request "Must provide either task or file_path")
  else inr (default PNone task).

Definition resolve_working_dir (dir_param : option pyval) : response + string :=
  let joined : result string :=
    if truthy_opt dir_param then
      match dir_param with
      | Some (PStr d) => ret (path_join getcwd d)
      | _ => raise (TypeError "expected str, bytes or os.PathLike object")
      end
    else ret getcwd in
  match joined with
  | inl e => inl (server_error e)
  | inr working_dir =>
      match mkdir working_dir with
      | inl e =>
          inl (bad_request ("Error with working directory: " +:+ exn_str e))
      | inr _ =>
          let working_dir := abspath working_dir in
          if negb (is_absolute working_dir)
          then inl (bad_request "Working directory must be an absolute path")
          else inr working_dir
      end
  end.

(** Queue, process and registry entry of a new task. *)
Definition launch (srv : server) : response * server :=
  let h := spawned srv in
  let task_id := uuid4 h in
  match start_fails h with
  | Some e =>
      (server_error e,
       Server (active_tasks srv) (procs srv) (queues srv) (clock srv) (S h))
  | None =>
      (Json 200 [("status", PStr "success");
                 ("message", PStr "Task started successfully");
                 ("task_id", PStr task_id)],
       Server (<[task_id := TaskInfo h h (clock srv) "running"]>
                 (active_tasks srv))
              (<[h := ProcState true (worker_term_exit h) []]> (procs srv))
              (<[h := []]> (queues srv))
              (clock srv) (S h))
  end.

(** [request_json] is the outcome of [request.get_json()]. *)
Definition run_task (request_json : result pyval) (srv : server)
  : response * server :=
  match request_json with
  | inl e => (server_error e, srv)
  | inr data =>
      if negb (truthy data) then (bad_request "No JSON data provided", srv)
      else
        match data with
        | PDict d =>
            match resolve_task (dict_get "task" d) (dict_get "file_path" d) with
            | inl early => (early, srv)
            | inr _ =>
                match resolve_working_dir (dict_get "working_dir" d) with
                | inl early => (early, srv)
                | inr _ => launch srv
                end
            end
        | _ =>
            (server_error
               (AttributeError "object has no attribute 'get'"), srv)
        end
  end.

(** *** Serving a sequence of requests *)

Inductive request : Type :=
| ReqRun (request_json : result pyval)
| ReqStatus (task_id : string)
| ReqStream (task_id : string)
| ReqStop (task_id : string).

Definition handle (rq : request) (srv : server) : response * server :=
  match rq with
  | ReqRun j => run_task j srv
  | ReqStatus task_id => get_task_status task_id srv
  | ReqStream task_id => stream_task_messages task_id srv
  | ReqStop task_id => stop_task task_id srv
  end.

(** The task a query is about. *)
Definition target (rq : request) : option string :=
  match rq with
  | ReqRun _ => None
  | ReqStatus t | ReqStream t | ReqStop t => Some t
  end.

(** Requests served one after the other, each paired with its answer. *)
Fixpoint serve (rqs : list request) (srv : server)
  : list (request * response) * server :=
  match rqs with
  | [] => ([], srv)
  | rq :: rqs' =>
      let '(resp, srv1) := handle rq srv in
      let '(answers, srv2) := serve rqs' srv1 in
      ((rq, resp) :: answers, srv2)
  end.

(** *** Deregistration is stable *)

(** No id drawn from now on is [task_id]. *)
Definition never_drawn_again (task_id : string) (srv : server) : Prop :=
  forall n, (spawned srv <= n)%nat -> uuid4 n <> task_id.

Lemma handle_absent task_id rq srv :
  active_tasks srv !! task_id = None ->
  never_drawn_again task_id srv ->
  active_tasks (snd (handle rq srv)) !! task_id = None /\
  never_drawn_again task_id (snd (handle rq srv)) /\
  (target rq = Some task_id -> fst (handle rq srv) = not_found).
Proof.
  intros Habs Hfresh.
  destruct rq as [j|t|t|t]; simpl.
  - (* run_task *)
    assert (Hl : active_tasks (snd (launch srv)) !! task_id = None /\
                 never_drawn_again task_id (snd (launch srv))).
    { unfold launch. destruct (start_fails (spawned srv)); simpl.
      - split; [exact Habs|]. intros n Hn. apply Hfresh. simpl in Hn. lia.
      - split.
        + rewrite lookup_insert_ne; [exact Habs|]. apply Hfresh. lia.
        + intros n Hn. apply Hfresh. simpl in Hn. lia. }
    assert (Hrun : active_tasks (snd (run_task j srv)) !! task_id = None /\
                   never_drawn_again task_id (snd (run_task j srv))).
    { unfold run_task.
      destruct j as [e|data]; simpl; [done|].
      destruct (truthy data); simpl; [|done].
      destruct data; simpl; try done.
      destruct (resolve_task _ _); simpl; [done|].
      destruct (resolve_working_dir _); simpl; done. }
    destruct Hrun as [H1 H2]. by repeat split.
  - (* get_task_status *)
    unfold get_task_status.
    destruct (decide (t = task_id)) as [->|Hne].
    + rewrite Habs. simpl. by repeat split.
    + destruct (active_tasks srv !! t) as [ti|]; simpl.
      * destruct (drain _ _ _) as [[e|messages] remaining]; simpl;
          rewrite lookup_insert_ne by done; repeat split; try done; congruence.
      * repeat split; try done; congruence.
  - (* stream_task_messages *)
    unfold stream_task_messages.
    destruct (decide (t = task_id)) as [->|Hne].
    + rewrite Habs. simpl. by repeat split.
    + destruct (active_tasks srv !! t); simpl; repeat split; try done; congruence.
  - (* stop_task *)
    unfold stop_task.
    destruct (decide (t = task_id)) as [->|Hne].
    + rewrite Habs. simpl. by repeat split.
    + destruct (active_tasks srv !! t) as [ti|]; simpl.
      * rewrite lookup_delete_ne by done. repeat split; try done; congruence.
      * repeat split; try done; congruence.
Qed.

(** Once a task is absent from the registry, every later status, stream or
    stop query about it answers [not_found]. *)
Lemma serve_absent task_id rqs : forall srv,
  active_tasks srv !! task_id = None ->
  never_drawn_again task_id srv ->
  forall rq resp,
    (rq, resp) ∈ fst (serve rqs srv) ->
    target rq = Some task_id -> resp = not_found.
Proof.
  induction rqs as [|rq0 rqs IH]; intros srv Habs Hfresh rq resp Hin Ht.
  - simpl in Hin. by apply elem_of_nil in Hin.
  - simpl in Hin.
    destruct (handle_absent task_id rq0 srv Habs Hfresh) as (Ha & Hf & Hr).
    destruct (handle rq0 srv) as [resp0 srv1] eqn:Hh. simpl in *.
    destruct (serve rqs srv1) as [answers srv2] eqn:Hs. simpl in Hin.
    apply elem_of_cons in Hin as [Heq|Hin].
    + inversion Heq; subst. by apply Hr.
    + apply (IH srv1 Ha Hf rq resp); [|done]. by rewrite Hs.
Qed.

(** *** Stopping a task *)

Lemma stop_process_dead p : alive (stop_process p) = false.
Proof.
  unfold stop_process, is_alive.
  destruct (alive p) eqn:Ha; [|exact Ha].
  destruct (alive (join (Some 5%float) (terminate p))) eqn:Hj; [|exact Hj].
  unfold join at 1. cbn [alive].
  replace (exits_within None (kill (join (Some 5%float) (terminate p))))
    with true; [apply andb_false_r|].
  unfold exits_within, kill. cbn [calls].
  rewrite existsb_app. simpl. by rewrite orb_true_r.
Qed.

Lemma stop_process_calls p :
  calls (stop_process p) =
  calls p ++
    (if alive p then
       if exits_within (Some 5%float) (terminate p)
       then [Terminate; Join (Some 5%float)]
       else [Terminate; Join (Some 5%float); Kill; Join None]
     else []).
Proof.
  destruct p as [a te cs].
  unfold stop_process, is_alive, join, terminate, kill. cbn [alive term_exit calls].
  destruct a; cbn [andb]; [|by rewrite app_nil_r].
  destruct (exits_within (Some 5%float) (ProcState true te (cs ++ [Terminate])));
    cbn [negb calls]; by rewrite <- !app_assoc.
Qed.

Lemma stop_task_registered task_id ti srv :
  active_tasks srv !! task_id = Some ti ->
  stop_task task_id srv =
  (Json 200 [("status", PStr "success");
             ("message", PStr "Task stopped successfully")],
   set_active (delete task_id)
     (set_proc (process ti) (stop_process (proc_of srv (process ti))) srv)).
Proof. intros H. unfold stop_task. by rewrite H. Qed.

Lemma stop_task_unregistered task_id srv :
  active_tasks srv !! task_id = None ->
  stop_task task_id srv = (not_found, srv).
Proof. intros H. unfold stop_task. by rewrite H. Qed.

(** C5. A second [stop] after a first successful one (answer 200, entry
    removed) answers the structured not-found result, code 404, and changes
    nothing; the same holds for a task id that is not registered. *)
Theorem stop_task_twice_not_found :
  forall (task_id : string) (srv : server),
    (code_of (fst (stop_task task_id srv)) = 200 ->
     let srv1 := snd (stop_task task_id srv) in
     active_tasks srv1 !! task_id = None /\
     stop_task task_id srv1 = (not_found, srv1)) /\
    (active_tasks srv !! task_id = None ->
     stop_task task_id srv = (not_found, srv)) /\
    code_of not_found = 404.
Proof.
  intros task_id srv. split; [|split; [apply stop_task_unregistered|done]].
  intros Hok srv1. subst srv1.
  destruct (active_tasks srv !! task_id) as [ti|] eqn:Hreg.
  - rewrite (stop_task_registered _ _ _ Hreg). simpl.
    assert (Hdel : delete task_id (active_tasks srv) !! task_id = None)
      by apply lookup_delete_eq.
    split; [exact Hdel|].
    apply stop_task_unregistered. exact Hdel.
  - rewrite (stop_task_unregistered _ _ Hreg) in Hok. discriminate Hok.
Qed.

(** C6. For a registered task, [stop_task] asks a live worker to terminate,
    waits at most the grace period of 5 seconds, kills the worker if it is
    still alive then, leaves the worker dead and removes the registration
    in every case, so that every later status, stream or stop query about
    the task answers not-found. *)
Theorem stop_task_graceful_then_forced :
  forall (task_id : string) (ti : task_info) (srv : server),
    active_tasks srv !! task_id = Some ti ->
    never_drawn_again task_id srv ->
    let p := proc_of srv (process ti) in
    let srv' := snd (stop_task task_id srv) in
    let p' := proc_of srv' (process ti) in
    code_of (fst (stop_task task_id srv)) = 200 /\
    (alive p = false -> calls p' = calls p) /\
    (alive p = true -> exits_within (Some 5%float) (terminate p) = true ->
     calls p' = calls p ++ [Terminate; Join (Some 5%float)]) /\
    (alive p = true -> exits_within (Some 5%float) (terminate p) = false ->
     calls p' = calls p ++ [Terminate; Join (Some 5%float); Kill; Join None]) /\
    alive p' = false /\
    active_tasks srv' !! task_id = None /\
    (forall rqs rq resp,
        (rq, resp) ∈ fst (serve rqs srv') ->
        target rq = Some task_id -> resp = not_found).
Proof.
  intros task_id ti srv Hreg Hfresh p srv' p'.
  subst srv' p'. rewrite (stop_task_registered _ _ _ Hreg). simpl.
  unfold proc_of at 1 3 5 7. simpl. rewrite lookup_insert_eq. simpl.
  fold p. pose proof (stop_process_calls p) as Hc.
  split; [done|]. split; [intros Ha; rewrite Hc, Ha; apply app_nil_r|].
  split; [intros Ha He; by rewrite Hc, Ha, He|].
  split; [intros Ha He; by rewrite Hc, Ha, He|].
  split; [apply stop_process_dead|].
  split; [apply lookup_delete_eq|].
  intros rqs rq resp. apply serve_absent.
  - simpl. apply lookup_delete_eq.
  - exact Hfresh.
Qed.

(** *** The stream *)

(** The messages behind the relayed records, in the order of the yields. *)
Fixpoint relayed (ys : list yielded) : list pydict :=
  match ys with
  | [] => []
  | Relay m _ :: ys' => m :: relayed ys'
  | SynthEnd _ :: ys' => relayed ys'
  end.


(** What a sequence of acts delivers to the queue, and whether the worker
    survives it, from the liveness [a] of the worker at its start. *)
Fixpoint arrivals (a : bool) (acts : list env_act) : list pydict :=
  match acts with
  | [] => []
  | Put m :: acts' => if a then m :: arrivals a acts' else arrivals a acts'
  | Exit :: acts' => arrivals false acts'
  | Elapse _ :: acts' => arrivals a acts'
  end.

Fixpoint still_alive (a : bool) (acts : list env_act) : bool :=
  match acts with
  | [] => a
  | Exit :: acts' => false
  | _ :: acts' => still_alive a acts'
  end.

(** All the acts of a schedule, in order. *)
Definition all_acts (sched : list pass_env) : list env_act :=
  concat (map pass_acts sched).

Lemma still_alive_false acts : still_alive false acts = false.
Proof. induction acts as [|[] acts IH]; simpl; auto. Qed.

Lemma arrivals_false acts : arrivals false acts = [].
Proof. induction acts as [|[] acts IH]; simpl; auto. Qed.

Lemma arrivals_app a l1 l2 :
  arrivals a (l1 ++ l2) = arrivals a l1 ++ arrivals (still_alive a l1) l2.
Proof.
  revert a. induction l1 as [|[m| |dt] l1 IH]; intros a; simpl; auto.
  - destruct a; simpl; [by rewrite IH|].
    by rewrite still_alive_false, !arrivals_false.
  - by rewrite !arrivals_false.
Qed.

Lemma still_alive_app a l1 l2 :
  still_alive a (l1 ++ l2) = still_alive (still_alive a l1) l2.
Proof.
  revert a. induction l1 as [|[m| |dt] l1 IH]; intros a; simpl; auto.
  by rewrite still_alive_false.
Qed.

(** Reading the store after a write. *)
Lemma queue_of_set_queue q l srv : queue_of (set_queue q l srv) q = l.
Proof. unfold queue_of, set_queue. simpl. by rewrite lookup_insert_eq. Qed.

Lemma proc_of_set_queue q l srv pid :
  proc_of (set_queue q l srv) pid = proc_of srv pid.
Proof. reflexivity. Qed.

Lemma proc_of_set_proc pid p srv : proc_of (set_proc pid p srv) pid = p.
Proof. unfold proc_of, set_proc. simpl. by rewrite lookup_insert_eq. Qed.

Lemma apply_acts_spec ti acts : forall srv,
  queue_of (apply_acts ti acts srv) (queue ti) =
    queue_of srv (queue ti) ++ arrivals (alive (proc_of srv (process ti))) acts /\
  alive (proc_of (apply_acts ti acts srv) (process ti)) =
    still_alive (alive (proc_of srv (process ti))) acts.
Proof.
  unfold apply_acts.
  induction acts as [|a acts IH]; intros srv; simpl.
  - by rewrite app_nil_r.
  - destruct (IH (apply_act ti srv a)) as [IHq IHa]. rewrite IHq, IHa.
    destruct a as [m| |dt]; simpl.
    + unfold is_alive. destruct (alive (proc_of srv (process ti))) eqn:Ha.
      * rewrite queue_of_set_queue, proc_of_set_queue, Ha.
        by rewrite <- app_assoc.
      * by rewrite Ha.
    + rewrite proc_of_set_proc. simpl.
      by rewrite arrivals_false, still_alive_false.
    + done.
Qed.


Lemma json_dumps_text v txt : json_dumps v = inr txt -> txt = JsonText v.
Proof.
  unfold json_dumps. destruct (json_offender v); intros H; inversion H. done.
Qed.

(** The substitute record always serialises. *)
Lemma error_message_serializable e original t :
  json_dumps (PDict (error_message e original t)) =
  inr (JsonText (PDict (error_message e original t))).
Proof. reflexivity. Qed.

(** A message both readers can put into words: [json.dumps] takes it, or
    [str] does. *)
Definition readable (message : pydict) : bool :=
  match json_dumps (PDict message), py_str (PDict message) with
  | inl _, inl _ => false
  | _, _ => true
  end.


Lemma checked_readable t m r : checked t m = ret r -> readable m = true.
Proof.
  unfold readable, checked.
  destruct (json_dumps (PDict m)); [|done].
  by destruct (py_str (PDict m)).
Qed.

Lemma checked_unreadable t m e : checked t m = inl e -> readable m = false.
Proof.
  unfold readable, checked.
  destruct (json_dumps (PDict m)); [|discriminate].
  by destruct (py_str (PDict m)).
Qed.

Lemma checked_keep t m txt :
  json_dumps (PDict m) = inr txt -> checked t m = ret m.
Proof. intros H. unfold checked. by rewrite H. Qed.


Lemma checked_raises t m e e' :
  json_dumps (PDict m) = inl e -> py_str (PDict m) = inl e' ->
  checked t m = inl e'.
Proof. intros H Hs. unfold checked. by rewrite H, Hs. Qed.

(** The ways through the loop body. *)
Lemma generate_iter_message task_id ti mw srv m rest :
  queue_of srv (queue ti) = m :: rest ->
  generate_iter task_id ti mw srv =
  (match checked (clock srv) m with
   | inr r => after_yield m [Relay m (Data (JsonText (PDict r)))]
   | inl e => Abort e
   end,
   apply_acts ti mw (set_queue (queue ti) rest srv)).
Proof.
  intros Hq. unfold generate_iter, checked. rewrite Hq.
  destruct (json_dumps (PDict m)) as [e|txt] eqn:Hd.
  - destruct (py_str (PDict m)) as [e'|original]; [reflexivity|].
    by rewrite error_message_serializable.
  - by rewrite (json_dumps_text _ _ Hd).
Qed.

Lemma generate_iter_empty_dead task_id ti mw srv :
  queue_of srv (queue ti) = [] ->
  alive (proc_of (apply_acts ti mw srv) (process ti)) = false ->
  generate_iter task_id ti mw srv =
  (Break [SynthEnd (RawEnd task_id (clock (apply_acts ti mw srv)))],
   apply_acts ti mw srv).
Proof.
  intros Hq Ha. unfold generate_iter, is_alive. by rewrite Hq, Ha.
Qed.

Lemma generate_iter_empty_alive task_id ti mw srv :
  queue_of srv (queue ti) = [] ->
  alive (proc_of (apply_acts ti mw srv) (process ti)) = true ->
  generate_iter task_id ti mw srv =
  (Continue [], sleep (apply_acts ti mw srv)).
Proof.
  intros Hq Ha. unfold generate_iter, is_alive. by rewrite Hq, Ha.
Qed.

(** Induction over a run of the generator, one case per way through the
    loop body. *)
Section GenerateInd.
Variables (task_id : string) (ti : task_info).
Variable P : server -> list pass_env ->
             list yielded -> stream_state -> server -> Prop.

Let relay (m r : pydict) : yielded := Relay m (Data (JsonText (PDict r))).

Hypothesis P_open : forall srv, P srv [] [] Streaming srv.
Hypothesis P_end : forall srv p sched m rest r,
  let srv0 := apply_acts ti (before p) srv in
  queue_of srv0 (queue ti) = m :: rest ->
  checked (clock srv0) m = ret r ->
  eq_str (dict_get "type" m) "end" = true ->
  P srv (p :: sched) [relay m r] Closed
    (apply_acts ti (meanwhile p) (set_queue (queue ti) rest srv0)).
Hypothesis P_relay : forall srv p sched m rest r ys st srv',
  let srv0 := apply_acts ti (before p) srv in
  queue_of srv0 (queue ti) = m :: rest ->
  checked (clock srv0) m = ret r ->
  eq_str (dict_get "type" m) "end" = false ->
  P (apply_acts ti (meanwhile p) (set_queue (queue ti) rest srv0))
    sched ys st srv' ->
  P srv (p :: sched) (relay m r :: ys) st srv'.
Hypothesis P_abort : forall srv p sched m rest e,
  let srv0 := apply_acts ti (before p) srv in
  queue_of srv0 (queue ti) = m :: rest ->
  checked (clock srv0) m = inl e ->
  P srv (p :: sched) [] (Aborted e)
    (apply_acts ti (meanwhile p) (set_queue (queue ti) rest srv0)).
Hypothesis P_synth : forall srv p sched,
  let srv0 := apply_acts ti (before p) srv in
  let srv1 := apply_acts ti (meanwhile p) srv0 in
  queue_of srv0 (queue ti) = [] ->
  alive (proc_of srv1 (process ti)) = false ->
  P srv (p :: sched) [SynthEnd (RawEnd task_id (clock srv1))] Closed srv1.
Hypothesis P_sleep : forall srv p sched ys st srv',
  let srv0 := apply_acts ti (before p) srv in
  let srv1 := apply_acts ti (meanwhile p) srv0 in
  queue_of srv0 (queue ti) = [] ->
  alive (proc_of srv1 (process ti)) = true ->
  P (sleep srv1) sched ys st srv' ->
  P srv (p :: sched) ys st srv'.

Lemma generate_loop_ind sched : forall srv ys st srv',
  generate_loop task_id ti sched srv = (ys, st, srv') ->
  P srv sched ys st srv'.
Proof.
  induction sched as [|p sched IH]; intros srv ys st srv' Hrun.
  - simpl in Hrun. inversion Hrun; subst. apply P_open.
  - simpl in Hrun.
    destruct (queue_of (apply_acts ti (before p) srv) (queue ti))
      as [|m rest] eqn:Hq.
    + destruct (alive (proc_of (apply_acts ti (meanwhile p)
                                  (apply_acts ti (before p) srv)) (process ti)))
        eqn:Ha.
      * rewrite (generate_iter_empty_alive _ _ _ _ Hq Ha) in Hrun.
        destruct (generate_loop task_id ti sched
                    (sleep (apply_acts ti (meanwhile p)
                              (apply_acts ti (before p) srv))))
          as [[ys1 st1] srv1] eqn:Hrest.
        simpl in Hrun. inversion Hrun; subst.
        apply P_sleep; [exact Hq|exact Ha|]. by apply IH.
      * rewrite (generate_iter_empty_dead _ _ _ _ Hq Ha) in Hrun.
        inversion Hrun; subst. by apply P_synth.
    + rewrite (generate_iter_message _ _ _ _ _ _ Hq) in Hrun.
      destruct (checked (clock (apply_acts ti (before p) srv)) m)
        as [e|r] eqn:Hr.
      { inversion Hrun; subst. by apply (P_abort _ _ _ m rest). }
      unfold after_yield in Hrun.
      destruct (eq_str (dict_get "type" m) "end") eqn:He.
      * inversion Hrun; subst. by apply P_end.
      * destruct (generate_loop task_id ti sched
                    (apply_acts ti (meanwhile p)
                       (set_queue (queue ti) rest
                          (apply_acts ti (before p) srv))))
          as [[ys1 st1] srv1] eqn:Hrest.
        simpl in Hrun. inversion Hrun; subst.
        apply (P_relay _ _ _ _ rest); [exact Hq|exact Hr|exact He|].
        by apply IH.
Qed.

End GenerateInd.

(** The relayed messages are, in order, an initial part of what the
    channel holds and receives. *)
Lemma generate_loop_prefix task_id ti sched srv ys st srv' :
  generate_loop task_id ti sched srv = (ys, st, srv') ->
  relayed ys `prefix_of`
    (queue_of srv (queue ti) ++
     arrivals (alive (proc_of srv (process ti))) (all_acts sched)).
Proof.
  apply (generate_loop_ind task_id ti
           (fun srv sched ys _ _ =>
              relayed ys `prefix_of`
                (queue_of srv (queue ti) ++
                 arrivals (alive (proc_of srv (process ti))) (all_acts sched)))).
  - intros. apply prefix_nil.
  - intros s0 p sc m rest r srv0 Hq Hr He. subst srv0.
    destruct (apply_acts_spec ti (before p) s0) as [Eq Ea].
    unfold all_acts, pass_acts. simpl.
    rewrite <- !app_assoc, arrivals_app, app_assoc, <- Eq, Hq. simpl.
    apply prefix_cons, prefix_nil.
  - intros s0 p sc m rest r ys0 st0 s1 srv0 Hq Hr He IH. subst srv0.
    destruct (apply_acts_spec ti (before p) s0) as [Eq Ea].
    destruct (apply_acts_spec ti (meanwhile p)
                (set_queue (queue ti) rest (apply_acts ti (before p) s0)))
      as [Eq1 Ea1].
    rewrite Eq1, Ea1, queue_of_set_queue, proc_of_set_queue, Ea in IH.
    unfold all_acts, pass_acts in *. simpl.
    rewrite <- !app_assoc, arrivals_app, app_assoc, <- Eq, Hq.
    rewrite arrivals_app. simpl. apply prefix_cons.
    by rewrite <- app_assoc in IH.
  - intros. apply prefix_nil.
  - intros. apply prefix_nil.
  - intros s0 p sc ys0 st0 s1 srv0 srv1 Hq Ha IH. subst srv0 srv1.
    destruct (apply_acts_spec ti (before p) s0) as [Eq Ea].
    destruct (apply_acts_spec ti (meanwhile p) (apply_acts ti (before p) s0))
      as [Eq1 Ea1].
    change (queue_of (sleep ?s) ?q) with (queue_of s q) in IH.
    change (proc_of (sleep ?s) ?q) with (proc_of s q) in IH.
    rewrite Eq1, Ea1, Ea, Hq in IH. simpl in IH.
    unfold all_acts, pass_acts in *. simpl.
    rewrite <- !app_assoc, arrivals_app, app_assoc, <- Eq, Hq.
    rewrite arrivals_app. simpl. exact IH.
Qed.






(** No [end] event among these messages. *)
Definition no_end (q : list pydict) : Prop :=
  Forall (fun m => eq_str (dict_get "type" m) "end" = false) q.

(** [json.dumps] takes the message as it is. *)
Definition serializable (m : pydict) : Prop :=
  json_dumps (PDict m) = ret (JsonText (PDict m)).

(** The chunk the generator yields for a message that serialises. *)
Definition relay_of (m : pydict) : yielded :=
  Relay m (Data (JsonText (PDict m))).

(** One pass on a queue that is not empty: the head is taken, and yielded as
    the JSON text of its record; the stream closes when it is an [end] and
    goes on with the rest otherwise. *)
Lemma generate_loop_head task_id ti s p sched m rest r :
  queue_of (apply_acts ti (before p) s) (queue ti) = m :: rest ->
  checked (clock (apply_acts ti (before p) s)) m = ret r ->
  generate_loop task_id ti (p :: sched) s =
  let s1 := apply_acts ti (meanwhile p)
              (set_queue (queue ti) rest (apply_acts ti (before p) s)) in
  if eq_str (dict_get "type" m) "end"
  then ([Relay m (Data (JsonText (PDict r)))], Closed, s1)
  else
    let '(ys, st, s') := generate_loop task_id ti sched s1 in
    (Relay m (Data (JsonText (PDict r))) :: ys, st, s').
Proof.
  intros Hq Hr. cbn [generate_loop].
  rewrite (generate_iter_message _ _ _ _ _ _ Hq), Hr. unfold after_yield.
  by destruct (eq_str (dict_get "type" m) "end").
Qed.

(** A pass on a message for which [str] raises inside the handler: the
    generator dies there, with no yield for the message. *)
Lemma generate_loop_head_raises task_id ti s p sched m rest e :
  queue_of (apply_acts ti (before p) s) (queue ti) = m :: rest ->
  checked (clock (apply_acts ti (before p) s)) m = inl e ->
  generate_loop task_id ti (p :: sched) s =
  ([], Aborted e,
   apply_acts ti (meanwhile p)
     (set_queue (queue ti) rest (apply_acts ti (before p) s))).
Proof.
  intros Hq He. cbn [generate_loop].
  by rewrite (generate_iter_message _ _ _ _ _ _ Hq), He.
Qed.

(** A queue that starts with serialisable messages up to an [end] is
    relayed up to that [end], whatever the worker does meanwhile. *)
Lemma generate_loop_until_end task_id ti e : forall pre rest sched srv,
  queue_of srv (queue ti) = pre ++ e :: rest ->
  Forall serializable (pre ++ [e]) ->
  no_end pre ->
  eq_str (dict_get "type" e) "end" = true ->
  (length pre < length sched)%nat ->
  exists srv',
    generate_loop task_id ti sched srv =
      (map relay_of (pre ++ [e]), Closed, srv').
Proof.
  induction pre as [|m pre IH]; intros rest sched srv Hq Hser Hne He Hlen;
    (destruct sched as [|p sched]; [simpl in Hlen; lia|]);
    destruct (apply_acts_spec ti (before p) srv) as [Hq0 _];
    rewrite Hq in Hq0.
  - simpl in Hq0. apply Forall_cons in Hser as [Hse _].
    rewrite (generate_loop_head _ _ _ _ _ _ _ e Hq0 (checked_keep _ _ _ Hse)).
    cbv zeta. rewrite He. by eexists.
  - simpl in Hq0.
    apply Forall_cons in Hser as [Hsm Hser].
    apply Forall_cons in Hne as [Hm Hne].
    rewrite (generate_loop_head _ _ _ _ _ _ _ m Hq0 (checked_keep _ _ _ Hsm)).
    cbv zeta. rewrite Hm.
    match goal with
    | |- context [generate_loop task_id ti sched ?s] =>
        destruct (apply_acts_spec ti (meanwhile p)
                    (set_queue (queue ti)
                       ((pre ++ e :: rest) ++
                        arrivals (alive (proc_of srv (process ti))) (before p))
                       (apply_acts ti (before p) srv))) as [Hq1 _];
        destruct (IH (rest ++
                      arrivals (alive (proc_of srv (process ti))) (before p) ++
                      arrivals
                        (alive (proc_of
                           (set_queue (queue ti)
                              ((pre ++ e :: rest) ++
                               arrivals (alive (proc_of srv (process ti)))
                                 (before p))
                              (apply_acts ti (before p) srv)) (process ti)))
                        (meanwhile p))
                    sched s) as (srv' & Hrun)
    end.
    + rewrite Hq1, queue_of_set_queue. by rewrite <- !app_assoc.
    + exact Hser.
    + exact Hne.
    + exact He.
    + simpl in Hlen. lia.
    + rewrite Hrun. by eexists.
Qed.



(** *** Messages that do not serialise *)

Lemma json_offender_PList l :
  Forall (fun v => json_offender v = None) l -> json_offender (PList l) = None.
Proof.
  induction 1 as [|v l Hv Hl IH]; [reflexivity|].
  simpl. rewrite Hv. exact IH.
Qed.

Lemma json_offender_PDict (d : pydict) :
  Forall (fun kv => json_offender (snd kv) = None) d ->
  json_offender (PDict d) = None.
Proof.
  induction 1 as [|[k v] d Hv Hd IH]; [reflexivity|].
  simpl in *. rewrite Hv. exact IH.
Qed.

(** What [checked] keeps or substitutes always serialises. *)
Lemma checked_serializable t m r :
  checked t m = ret r -> json_offender (PDict r) = None.
Proof.
  unfold checked, json_dumps.
  destruct (json_offender (PDict m)) eqn:Hm.
  - destruct (py_str (PDict m)); intros H; inversion H. reflexivity.
  - intros H. inversion H; subst. exact Hm.
Qed.

(** [rs] are the records of the messages [q], one for one. *)
Definition records_of (t : float) (q rs : list pydict) : Prop :=
  Forall2 (fun m r => checked t m = ret r) q rs.


Lemma serializable_records t q :
  Forall serializable q -> records_of t q q.
Proof.
  induction 1 as [|m q Hm _ IH]; constructor; [|exact IH].
  by apply (checked_keep _ _ (JsonText (PDict m))).
Qed.

Lemma records_of_inj t q rs1 rs2 :
  records_of t q rs1 -> records_of t q rs2 -> rs1 = rs2.
Proof.
  intros H1. revert rs2. induction H1 as [|m r q rs Hr _ IH]; intros rs2 H2.
  - by inversion H2.
  - inversion H2 as [|m' r' q' rs' Hr' H2']; subst.
    rewrite Hr in Hr'. inversion Hr'; subst. by rewrite (IH _ H2').
Qed.

Lemma drain_ok t q : forall messages rs,
  records_of t q rs -> drain t q messages = (ret (messages ++ rs), []).
Proof.
  intros messages rs H. revert messages.
  induction H as [|m r q rs Hm _ IH]; intros messages; cbn [drain].
  - by rewrite app_nil_r.
  - rewrite Hm. cbv beta iota delta [ret]. rewrite IH.
    by rewrite <- app_assoc.
Qed.

Lemma drain_fails t pre : forall m post e messages rs,
  records_of t pre rs -> checked t m = inl e ->
  drain t (pre ++ m :: post) messages = (raise e, post).
Proof.
  intros m post e messages rs H He. revert messages.
  induction H as [|m0 r pre rs Hm _ IH]; intros messages;
    cbn [drain app].
  - by rewrite He.
  - rewrite Hm. cbv beta iota delta [ret]. apply IH.
Qed.

(** Either every message of a queue has its record, or a first one has
    none. *)
Lemma records_or_first_failure t q :
  (exists rs, records_of t q rs) \/
  (exists pre m post rs e,
      q = pre ++ m :: post /\ records_of t pre rs /\ checked t m = inl e).
Proof.
  induction q as [|m q IH]; [left; exists []; constructor|].
  destruct (checked t m) as [e|r] eqn:Hm.
  - right. exists [], m, q, [], e.
    split; [reflexivity|]. split; [constructor|exact Hm].
  - destruct IH as [(rs & Hrs)|(pre & m' & post & rs & e & -> & Hrs & He)].
    + left. exists (r :: rs). by constructor.
    + right. exists (m :: pre), m', post, (r :: rs), e.
      split; [reflexivity|]. split; [by constructor|exact He].
Qed.

(** The body of a status answer that lists the records [rs], and the
    registry entry the handler leaves. *)
Definition status_body (task_id : string) (ti : task_info) (srv : server)
    (rs : list pydict) : pydict :=
  let st := if alive (proc_of srv (process ti)) then "running" else "completed" in
  [("status", PStr "success");
   ("task_id", PStr task_id);
   ("task_status", PStr st);
   ("start_time", PFloat (start_time ti));
   ("duration", PFloat (PrimFloat.sub (clock srv) (start_time ti)));
   ("messages", PList (map PDict rs))].

Definition status_entry (ti : task_info) (srv : server) : task_info :=
  if alive (proc_of srv (process ti)) then ti
  else TaskInfo (process ti) (queue ti) (start_time ti) "completed".

(** When every queued message has its record the status handler answers
    200 with the records, which always serialise, and leaves the queue
    empty. *)
Lemma get_task_status_registered task_id ti srv rs :
  active_tasks srv !! task_id = Some ti ->
  records_of (clock srv) (queue_of srv (queue ti)) rs ->
  get_task_status task_id srv =
  (Json 200 (status_body task_id ti srv rs),
   set_queue (queue ti) []
     (set_active (<[task_id := status_entry ti srv]>) srv)).
Proof.
  intros Hreg Hrs. unfold get_task_status. rewrite Hreg.
  unfold is_alive, status_entry. rewrite (drain_ok _ _ _ _ Hrs). simpl.
  f_equal; [|by destruct (alive (proc_of srv (process ti)))].
  unfold jsonify_or_500, json_dumps.
  fold (status_body task_id ti srv rs).
  rewrite json_offender_PDict; [reflexivity|].
  unfold status_body. repeat (apply Forall_cons; split; [reflexivity|]).
  apply Forall_cons. split; [|by apply Forall_nil].
  simpl. apply json_offender_PList.
  apply Forall_forall. intros v Hv.
  apply list_elem_of_fmap in Hv as (r & -> & Hr).
  apply list_elem_of_lookup in Hr as (i & Hi).
  destruct (Forall2_lookup_r _ _ _ _ _ Hrs Hi) as (m & _ & Hm).
  by eapply checked_serializable.
Qed.

(** When [str] of a message raises inside the handler, the exception
    reaches the [except Exception] clause of the view: the answer is its 500
    (or the exception leaves the view), the records built so far are gone,
    and the queue keeps what came after the message. *)
Lemma get_task_status_failed task_id ti srv pre m post rs e :
  active_tasks srv !! task_id = Some ti ->
  queue_of srv (queue ti) = pre ++ m :: post ->
  records_of (clock srv) pre rs ->
  checked (clock srv) m = inl e ->
  get_task_status task_id srv =
  (if exn_is_Exception e then status_error e else Unhandled e,
   set_queue (queue ti) post
     (set_active (<[task_id := status_entry ti srv]>) srv)).
Proof.
  intros Hreg Hq Hrs He. unfold get_task_status. rewrite Hreg, Hq.
  unfold is_alive, status_entry. rewrite (drain_fails _ _ _ _ _ _ _ Hrs He).
  simpl. f_equal. by destruct (alive (proc_of srv (process ti))).
Qed.

(** In every case the handler keeps the keys of the registry and the
    handles of the task. *)
Lemma get_task_status_state task_id ti srv :
  active_tasks srv !! task_id = Some ti ->
  exists remaining,
    snd (get_task_status task_id srv) =
    set_queue (queue ti) remaining
      (set_active (<[task_id := status_entry ti srv]>) srv).
Proof.
  intros Hreg.
  destruct (records_or_first_failure (clock srv) (queue_of srv (queue ti)))
    as [(rs & Hrs)|(pre & m & post & rs & e & Hq & Hrs & He)].
  - exists []. by rewrite (get_task_status_registered _ _ _ _ Hreg Hrs).
  - exists post. by rewrite (get_task_status_failed _ _ _ _ _ _ _ _ Hreg Hq Hrs He).
Qed.


(** *** A reader that only polls the status *)

Fixpoint poll_status (n : nat) (task_id : string) (srv : server)
  : list response :=
  match n with
  | O => []
  | S k =>
      let '(r, srv1) := get_task_status task_id srv in
      r :: poll_status k task_id srv1
  end.

Definition is_end_value (v : pyval) : bool :=
  match v with PDict m => eq_str (dict_get "type" m) "end" | _ => false end.

(** Does an answer show an [end] event? *)
Definition observes_end (r : response) : bool :=
  match r with
  | Json _ body =>
      match dict_get "messages" body with
      | Some (PList ms) => existsb is_end_value ms
      | _ => false
      end
  | EventStream _ | Unhandled _ => false
  end.

Definition reported_status (r : response) : option pyval :=
  match r with
  | Json _ body => dict_get "task_status" body
  | EventStream _ | Unhandled _ => None
  end.



Lemma status_entry_handles ti srv :
  process (status_entry ti srv) = process ti /\
  queue (status_entry ti srv) = queue ti /\
  start_time (status_entry ti srv) = start_time ti.
Proof. unfold status_entry. by destruct (alive (proc_of srv (process ti))). Qed.





(** Neither the worker nor the generator touches the registry. *)
Lemma apply_acts_active ti acts : forall srv,
  active_tasks (apply_acts ti acts srv) = active_tasks srv.
Proof.
  unfold apply_acts.
  induction acts as [|a acts IH]; intros srv; simpl; [reflexivity|].
  rewrite IH. destruct a; simpl; [|reflexivity|reflexivity].
  by destruct (is_alive (proc_of srv (process ti))).
Qed.



(** *** Submitting a task *)

(** A field of the request body counts as given when it is present and
    truthy: the handler tests [if file_path:], [if task:], [elif not task:]. *)
Definition given (k : string) (d : pydict) : bool := truthy_opt (dict_get k d).

(** The answer and state after a successful launch. *)
Definition started (srv : server) (r : response * server) : Prop :=
  let h := spawned srv in
  fst r = Json 200 [("status", PStr "success");
                    ("message", PStr "Task started successfully");
                    ("task_id", PStr (uuid4 h))] /\
  active_tasks (snd r) !! uuid4 h = Some (TaskInfo h h (clock srv) "running") /\
  proc_of (snd r) h = ProcState true (worker_term_exit h) [] /\
  queue_of (snd r) h = [].

Lemma launch_started srv :
  start_fails (spawned srv) = None -> started srv (launch srv).
Proof.
  intros H. unfold started, launch. rewrite H. simpl.
  split; [reflexivity|]. split; [apply lookup_insert_eq|].
  unfold proc_of, queue_of. simpl. by rewrite !lookup_insert_eq.
Qed.

Lemma run_task_dict d srv :
  d <> [] ->
  run_task (ret (PDict d)) srv =
  match resolve_task (dict_get "task" d) (dict_get "file_path" d) with
  | inl early => (early, srv)
  | inr _ =>
      match resolve_working_dir (dict_get "working_dir" d) with
      | inl early => (early, srv)
      | inr _ => launch srv
      end
  end.
Proof. intros H. destruct d; [done|reflexivity]. Qed.

(** C9, amended. A request that gives both [task] and [file_path], or
    neither, is answered 400 and starts nothing.  A request that gives
    exactly one starts a task and returns its id provided the file, when
    [file_path] is the one given, is a path that can be read, the working
    directory can be prepared, and the worker process starts. *)
Theorem run_task_one_source :
  forall (d : pydict) (srv : server),
    (given "task" d = true -> given "file_path" d = true ->
     run_task (ret (PDict d)) srv =
     (bad_request "Cannot use both task and file_path", srv)) /\
    (given "task" d = false -> given "file_path" d = false ->
     code_of (fst (run_task (ret (PDict d)) srv)) = 400 /\
     snd (run_task (ret (PDict d)) srv) = srv) /\
    (forall working_dir,
        given "task" d = true -> given "file_path" d = false ->
        resolve_working_dir (dict_get "working_dir" d) = inr working_dir ->
        start_fails (spawned srv) = None ->
        started srv (run_task (ret (PDict d)) srv)) /\
    (forall p content working_dir,
        given "task" d = false -> given "file_path" d = true ->
        dict_get "file_path" d = Some (PStr p) ->
        read_text p = inr content ->
        resolve_working_dir (dict_get "working_dir" d) = inr working_dir ->
        start_fails (spawned srv) = None ->
        started srv (run_task (ret (PDict d)) srv)).
Proof.
  intros d srv. unfold given. split; [|split; [|split]].
  - intros Ht Hf. rewrite run_task_dict by (by destruct d).
    unfold resolve_task. by rewrite Hf, Ht.
  - intros Ht Hf. destruct d as [|kv d']; [by split|].
    rewrite run_task_dict by done. unfold resolve_task. by rewrite Hf, Ht.
  - intros wd Ht Hf Hwd Hst. rewrite run_task_dict by (by destruct d).
    unfold resolve_task. rewrite Hf, Ht. simpl. rewrite Hwd.
    by apply launch_started.
  - intros p content wd Ht Hf Hp Hread Hwd Hst.
    rewrite run_task_dict by (by destruct d).
    unfold resolve_task. rewrite Hf, Ht, Hp, Hread. rewrite Hwd.
    by apply launch_started.
Qed.

(** *** Draining: each message is handed out once *)

(** The messages an answer lists. *)
Definition messages_of (r : response) : list pyval :=
  match r with
  | Json _ body =>
      match dict_get "messages" body with
      | Some (PList ms) => ms
      | _ => []
      end
  | EventStream _ | Unhandled _ => []
  end.

Lemma messages_of_status_body task_id ti srv rs :
  messages_of (Json 200 (status_body task_id ti srv rs)) = map PDict rs.
Proof.
  unfold messages_of, status_body.
  by cbn [dict_get String.eqb Ascii.eqb Bool.eqb].
Qed.

Lemma messages_of_failed e :
  messages_of (if exn_is_Exception e then status_error e else Unhandled e) = [].
Proof. by destruct (exn_is_Exception e). Qed.

(** Polls of the status with the worker at work: before each poll the
    worker does what the round says. *)
Fixpoint poll_rounds (task_id : string) (ti : task_info)
    (rounds : list (list env_act)) (srv : server) : list response * server :=
  match rounds with
  | [] => ([], srv)
  | acts :: rounds' =>
      let '(r, srv1) := get_task_status task_id (apply_acts ti acts srv) in
      let '(answers, srv2) := poll_rounds task_id ti rounds' srv1 in
      (r :: answers, srv2)
  end.

(** [r] is the record of [m] at some reading of the clock. *)
Definition record_of (m r : pydict) : Prop := exists t, checked t m = ret r.

Lemma records_of_record_of t q rs : records_of t q rs -> Forall2 record_of q rs.
Proof.
  induction 1 as [|m r q rs Hr _ IH]; constructor; [by exists t|exact IH].
Qed.

Lemma poll_rounds_spec task_id ti rounds : forall srv ti' answers srv',
  active_tasks srv !! task_id = Some ti' ->
  process ti' = process ti -> queue ti' = queue ti ->
  poll_rounds task_id ti rounds srv = (answers, srv') ->
  let channel :=
    queue_of srv (queue ti) ++
    arrivals (alive (proc_of srv (process ti))) (concat rounds) in
  exists ms rs,
    ms ++ queue_of srv' (queue ti) `sublist_of` channel /\
    Forall2 record_of ms rs /\
    concat (map messages_of answers) = map PDict rs /\
    (Forall (fun m => readable m = true) channel ->
     ms ++ queue_of srv' (queue ti) = channel /\
     Forall (fun r => code_of r = 200) answers /\
     (rounds <> [] -> queue_of srv' (queue ti) = [])).
Proof.
  induction rounds as [|acts rounds IH];
    intros srv ti' answers srv' Hreg Hp Hq Hrun channel; subst channel.
  - simpl in Hrun. inversion Hrun; subst. exists [], [].
    cbn [concat arrivals app map]. rewrite app_nil_r.
    split; [done|]. split; [constructor|]. split; [done|].
    intros _. split; [done|]. split; [constructor|done].
  - cbn [poll_rounds concat] in *.
    destruct (apply_acts_spec ti acts srv) as [Hqa Haa].
    rewrite arrivals_app, app_assoc, <- Hqa, <- Haa.
    set (srva := apply_acts ti acts srv) in *.
    assert (Hrega : active_tasks srva !! task_id = Some ti').
    { unfold srva. by rewrite apply_acts_active. }
    destruct (status_entry_handles ti' srva) as (Hp' & Hq' & _).
    destruct (records_or_first_failure (clock srva) (queue_of srva (queue ti')))
      as [(rs0 & Hrs)|(pre & m & post & rs0 & e & Hsplit & Hrs & He)].
    + rewrite (get_task_status_registered _ _ _ _ Hrega Hrs) in Hrun.
      destruct (poll_rounds task_id ti rounds _) as [answers1 srv2] eqn:Hrest.
      inversion Hrun; subst answers srv'; clear Hrun.
      apply (IH _ (status_entry ti' srva)) in Hrest;
        [|simpl; apply lookup_insert_eq|congruence|congruence].
      destruct Hrest as (ms & rs & Hsub & Hrec & Hmsg & Hall).
      rewrite Hq, queue_of_set_queue in Hsub, Hall.
      change (proc_of (set_queue (queue ti) []
                (set_active (<[task_id := status_entry ti' srva]>) srva))
                (process ti))
        with (proc_of srva (process ti)) in Hsub, Hall.
      cbn [app] in Hsub, Hall. rewrite Hq in Hrs.
      exists (queue_of srva (queue ti) ++ ms), (rs0 ++ rs).
      split; [rewrite <- app_assoc; by apply sublist_app|].
      split; [apply Forall2_app; [by eapply records_of_record_of|exact Hrec]|].
      split.
      { cbn [map concat]. by rewrite messages_of_status_body, Hmsg, map_app. }
      intros Hread. apply Forall_app in Hread as [_ Hread].
      destruct (Hall Hread) as (Heq & Hcodes & Hempty).
      split; [by rewrite <- app_assoc, Heq|].
      split; [by constructor|].
      intros _. destruct rounds as [|acts1 rounds1]; [|by apply Hempty].
      cbn [concat] in Heq.
      destruct (alive (proc_of srva (process ti))); cbn [arrivals] in Heq;
        by destruct (app_eq_nil _ _ Heq).
    + rewrite (get_task_status_failed _ _ _ _ _ _ _ _ Hrega Hsplit Hrs He) in Hrun.
      destruct (poll_rounds task_id ti rounds _) as [answers1 srv2] eqn:Hrest.
      inversion Hrun; subst answers srv'; clear Hrun.
      apply (IH _ (status_entry ti' srva)) in Hrest;
        [|simpl; apply lookup_insert_eq|congruence|congruence].
      destruct Hrest as (ms & rs & Hsub & Hrec & Hmsg & Hall).
      rewrite Hq in Hsplit.
      rewrite Hq, queue_of_set_queue in Hsub, Hall.
      change (proc_of (set_queue (queue ti) post
                (set_active (<[task_id := status_entry ti' srva]>) srva))
                (process ti))
        with (proc_of srva (process ti)) in Hsub, Hall.
      exists ms, rs. rewrite Hsplit.
      split.
      { rewrite <- app_assoc. apply sublist_inserts_l.
        cbn [app]. by apply sublist_cons. }
      split; [exact Hrec|].
      split; [cbn [map concat]; by rewrite messages_of_failed|].
      intros Hread. exfalso.
      apply Forall_app in Hread as [Hread _].
      apply Forall_app in Hread as [_ Hread].
      apply Forall_cons in Hread as [Hm _].
      by rewrite (checked_unreadable _ _ _ He) in Hm.
Qed.

(** X1. The status operation consumes what it returns.  Over any number of
    status polls of a registered task, with the worker putting messages or
    exiting before and between them, no message is handed out twice: the
    answers list, taken together and in order, the records of messages of
    the channel (what was queued, then what the worker put), which together
    with what is still queued form a subsequence of it.  When the readers
    can put every message of the channel into words, every answer is a 200
    and nothing is lost either: the messages listed, followed by what is
    still queued, are the channel, and the queue is empty after a poll. *)
Theorem status_delivers_each_message_once :
  forall (task_id : string) (ti : task_info) (srv : server)
         (rounds : list (list env_act)) (answers : list response)
         (srv' : server),
    active_tasks srv !! task_id = Some ti ->
    poll_rounds task_id ti rounds srv = (answers, srv') ->
    let channel :=
      queue_of srv (queue ti) ++
      arrivals (alive (proc_of srv (process ti))) (concat rounds) in
    exists ms rs,
      ms ++ queue_of srv' (queue ti) `sublist_of` channel /\
      Forall2 record_of ms rs /\
      concat (map messages_of answers) = map PDict rs /\
      (Forall (fun m => readable m = true) channel ->
       ms ++ queue_of srv' (queue ti) = channel /\
       Forall (fun r => code_of r = 200) answers /\
       (rounds <> [] -> queue_of srv' (queue ti) = [])).
Proof.
  intros task_id ti srv rounds answers srv' Hreg Hrun.
  by apply (poll_rounds_spec task_id ti rounds srv ti answers srv').
Qed.

(** X2. Status and stream share one queue: a stream opened after a status
    call relays none of the messages that call returned.  After a call that
    found every queued message readable the stream relays only messages the
    worker puts afterwards; in any case a call that returned messages left
    the queue empty, and the stream relays in order what the call left
    queued and then what the worker puts. *)
Theorem stream_after_status_relays_only_new :
  forall (task_id : string) (ti : task_info) (srv : server)
         (sched : list pass_env) (ys : list yielded) (st : stream_state)
         (srv' : server),
    active_tasks srv !! task_id = Some ti ->
    generate task_id sched (snd (get_task_status task_id srv)) = (ys, st, srv') ->
    let new := arrivals (alive (proc_of srv (process ti))) (all_acts sched) in
    let polled := get_task_status task_id srv in
    (Forall (fun m => readable m = true) (queue_of srv (queue ti)) ->
     relayed ys `prefix_of` new) /\
    (messages_of (fst polled) <> [] -> relayed ys `prefix_of` new) /\
    relayed ys `prefix_of` queue_of (snd polled) (queue ti) ++ new.
Proof.
  intros task_id ti srv sched ys st srv' Hreg Hrun new polled.
  subst new polled.
  destruct (status_entry_handles ti srv) as (Hp & Hqh & _).
  assert (Hgen : forall remaining,
             snd (get_task_status task_id srv) =
               set_queue (queue ti) remaining
                 (set_active (<[task_id := status_entry ti srv]>) srv) ->
             relayed ys `prefix_of`
               remaining ++
               arrivals (alive (proc_of srv (process ti))) (all_acts sched)).
  { intros remaining Hsnd. rewrite Hsnd in Hrun.
    unfold generate in Hrun. simpl in Hrun. rewrite lookup_insert_eq in Hrun.
    apply generate_loop_prefix in Hrun.
    by rewrite Hp, Hqh, queue_of_set_queue in Hrun. }
  destruct (records_or_first_failure (clock srv) (queue_of srv (queue ti)))
    as [(rs & Hrs)|(pre & m & post & rs & e & Hsplit & Hrs & He)].
  - pose proof (get_task_status_registered _ _ _ _ Hreg Hrs) as Hst.
    specialize (Hgen []). rewrite Hst in *. cbn [fst snd] in *.
    rewrite queue_of_set_queue. cbn [app] in *.
    specialize (Hgen eq_refl). done.
  - pose proof (get_task_status_failed _ _ _ _ _ _ _ _ Hreg Hsplit Hrs He) as Hst.
    specialize (Hgen post). rewrite Hst in *. cbn [fst snd] in *.
    rewrite queue_of_set_queue. specialize (Hgen eq_refl).
    split; [|split; [|exact Hgen]].
    + intros Hread. exfalso. rewrite Hsplit in Hread.
      apply Forall_app in Hread as [_ Hread].
      apply Forall_cons in Hread as [Hm _].
      by rewrite (checked_unreadable _ _ _ He) in Hm.
    + intros Hne. by rewrite messages_of_failed in Hne.
Qed.

(** *** Stopping, and streams that are open *)

(** X3. [stop_task] touches nothing but its own task: every other registry
    entry, every process other than the task's own, every queue and the
    clock are as before. *)
Theorem stop_task_leaves_the_rest :
  forall (task_id : string) (srv : server),
    let srv' := snd (stop_task task_id srv) in
    (forall other, other <> task_id ->
                   active_tasks srv' !! other = active_tasks srv !! other) /\
    (forall pid,
        (forall ti, active_tasks srv !! task_id = Some ti -> pid <> process ti) ->
        procs srv' !! pid = procs srv !! pid) /\
    queues srv' = queues srv /\
    clock srv' = clock srv /\
    spawned srv' = spawned srv.
Proof.
  intros task_id srv srv'. subst srv'. unfold stop_task.
  destruct (active_tasks srv !! task_id) as [ti|] eqn:Hreg; simpl.
  - split; [intros other Hne; by apply lookup_delete_ne|].
    split; [|done].
    intros pid Hpid. apply lookup_insert_ne. intros Heq.
    by apply (Hpid ti).
  - done.
Qed.






(** *** More on submitting *)

Lemma resolve_task_early task file_path r :
  resolve_task task file_path = inl r -> code_of r <> 200.
Proof.
  unfold resolve_task.
  destruct (truthy_opt file_path).
  - destruct (truthy_opt task); [intros H; by inversion H|].
    destruct file_path as [[]|]; try (intros H; by inversion H).
    destruct (read_text s) as [e|c]; [|discriminate].
    destruct (String.eqb (exn_class e) "FileNotFoundError");
      intros H; by inversion H.
  - destruct (truthy_opt task); simpl; [discriminate|].
    intros H; by inversion H.
Qed.

Lemma resolve_working_dir_early dir_param r :
  resolve_working_dir dir_param = inl r -> code_of r <> 200.
Proof.
  unfold resolve_working_dir.
  destruct (truthy_opt dir_param);
    [destruct dir_param as [[]|]; try (intros H; by inversion H)|];
    simpl;
    match goal with |- context [mkdir ?x] => destruct (mkdir x) end;
    try (intros H; by inversion H);
    match goal with |- context [is_absolute ?x] => destruct (is_absolute x) end;
    simpl; first [discriminate|intros H; by inversion H].
Qed.

(** The two ways a request ends: rejected with the state untouched but for
    the id counter, or launched. *)
Lemma run_task_cases j srv :
  (code_of (fst (run_task j srv)) <> 200 /\
   active_tasks (snd (run_task j srv)) = active_tasks srv /\
   procs (snd (run_task j srv)) = procs srv /\
   queues (snd (run_task j srv)) = queues srv /\
   clock (snd (run_task j srv)) = clock srv) \/
  (start_fails (spawned srv) = None /\ run_task j srv = launch srv).
Proof.
  unfold run_task.
  destruct j as [e|data]; [by left|].
  destruct (truthy data); simpl; [|by left].
  destruct data; try by left.
  destruct (resolve_task _ _) as [r|t] eqn:Ht.
  { left. split; [by eapply resolve_task_early|done]. }
  destruct (resolve_working_dir _) as [r|w] eqn:Hw.
  { left. split; [by eapply resolve_working_dir_early|done]. }
  unfold launch. destruct (start_fails (spawned srv)) eqn:Hs.
  - by left.
  - by right.
Qed.

(** X6. A request that [run_task] does not answer with 200 starts nothing:
    the registry, the process table, the queues and the clock are as
    before. *)
Theorem run_task_rejection_starts_nothing :
  forall (request_json : result pyval) (srv : server),
    code_of (fst (run_task request_json srv)) <> 200 ->
    let srv' := snd (run_task request_json srv) in
    active_tasks srv' = active_tasks srv /\
    procs srv' = procs srv /\
    queues srv' = queues srv /\
    clock srv' = clock srv.
Proof.
  intros j srv Hcode srv'. subst srv'.
  destruct (run_task_cases j srv) as [(_ & H)|[Hs Hl]]; [exact H|].
  exfalso. apply Hcode. rewrite Hl. unfold launch. by rewrite Hs.
Qed.

(** The worker's own acts change nothing of its process but whether it
    is alive. *)
Lemma apply_acts_proc ti acts : forall srv,
  proc_of (apply_acts ti acts srv) (process ti) =
  ProcState (still_alive (alive (proc_of srv (process ti))) acts)
            (term_exit (proc_of srv (process ti)))
            (calls (proc_of srv (process ti))).
Proof.
  unfold apply_acts.
  induction acts as [|a acts IH]; intros srv; simpl.
  - by destruct (proc_of srv (process ti)).
  - rewrite IH. destruct a as [m| |dt]; simpl.
    + unfold is_alive. destruct (alive (proc_of srv (process ti))) eqn:Ha.
      * by rewrite !proc_of_set_queue, Ha.
      * by rewrite Ha.
    + rewrite proc_of_set_proc. simpl. by rewrite still_alive_false.
    + reflexivity.
Qed.

(** X7. A task that has been started is reported under the id the
    submission returned and with the submission time as its start time,
    whatever its worker has done since: as running while the worker lives
    and as completed once it has exited, with the records of the messages
    the worker has put; the answer is the 500 of the handler instead when
    [str] raises on one of them.  Before the worker has done anything the
    task is running, with no message. *)
Theorem fresh_task_is_running :
  forall (request_json : result pyval) (srv : server) (acts : list env_act),
    code_of (fst (run_task request_json srv)) = 200 ->
    let task_id := uuid4 (spawned srv) in
    let ti := TaskInfo (spawned srv) (spawned srv) (clock srv) "running" in
    let polled := apply_acts ti acts (snd (run_task request_json srv)) in
    let answer := fst (get_task_status task_id polled) in
    let state := if still_alive true acts then "running" else "completed" in
    (exists body, fst (run_task request_json srv) = Json 200 body /\
                  dict_get "task_id" body = Some (PStr task_id)) /\
    (forall rs,
        records_of (clock polled) (arrivals true acts) rs ->
        code_of answer = 200 /\
        reported_status answer = Some (PStr state) /\
        messages_of answer = map PDict rs /\
        (exists body, answer = Json 200 body /\
                      dict_get "task_id" body = Some (PStr task_id) /\
                      dict_get "start_time" body = Some (PFloat (clock srv)))) /\
    (forall pre m post rs e,
        arrivals true acts = pre ++ m :: post ->
        records_of (clock polled) pre rs ->
        checked (clock polled) m = inl e ->
        answer = if exn_is_Exception e then status_error e else Unhandled e) /\
    (acts = [] ->
     code_of answer = 200 /\
     reported_status answer = Some (PStr "running") /\
     messages_of answer = []).
Proof.
  intros j srv acts Hcode task_id ti polled answer state.
  destruct (run_task_cases j srv) as [(Hne & _)|[Hs Hl]]; [done|].
  destruct (launch_started srv Hs) as (Hr & Hreg & Hp & Hq).
  assert (Hregp : active_tasks polled !! task_id = Some ti).
  { unfold polled. by rewrite apply_acts_active, Hl. }
  assert (Hqp : queue_of polled (queue ti) = arrivals true acts).
  { unfold polled. rewrite (proj1 (apply_acts_spec ti acts _)), Hl.
    cbn [queue process ti]. by rewrite Hq, Hp. }
  assert (Hap : alive (proc_of polled (process ti)) = still_alive true acts).
  { unfold polled. rewrite (proj2 (apply_acts_spec ti acts _)), Hl.
    cbn [queue process ti]. by rewrite Hp. }
  assert (Hok : forall rs,
             records_of (clock polled) (arrivals true acts) rs ->
             answer = Json 200 (status_body task_id ti polled rs)).
  { intros rs Hrs. rewrite <- Hqp in Hrs. unfold answer.
    by rewrite (get_task_status_registered _ _ _ _ Hregp Hrs). }
  split; [rewrite Hl; eexists; split; [exact Hr|reflexivity]|].
  split; [|split].
  - intros rs Hrs. rewrite (Hok rs Hrs).
    split; [reflexivity|].
    split; [unfold reported_status, status_body; by rewrite Hap|].
    split; [apply messages_of_status_body|].
    eexists. split; [reflexivity|]. split; reflexivity.
  - intros pre m post rs e Hsplit Hrs He. rewrite <- Hqp in Hsplit.
    unfold answer.
    by rewrite (get_task_status_failed _ _ _ _ _ _ _ _ Hregp Hsplit Hrs He).
  - intros ->. rewrite (Hok []); [|constructor].
    split; [reflexivity|].
    split; [unfold reported_status, status_body; by rewrite Hap|].
    apply messages_of_status_body.
Qed.

(** X8. Submitting a task and then stopping it, whatever the worker has
    done in between, leaves the registry as it was before the submission,
    provided the id drawn was not in use, and the worker that was started is
    dead.  A worker still alive at the stop got a terminate request and was
    waited for five seconds, and killed when that was not enough; a worker
    that had exited by itself got no signal at all. *)
Theorem run_then_stop_restores_registry :
  forall (request_json : result pyval) (srv : server) (acts : list env_act),
    code_of (fst (run_task request_json srv)) = 200 ->
    active_tasks srv !! uuid4 (spawned srv) = None ->
    let ti := TaskInfo (spawned srv) (spawned srv) (clock srv) "running" in
    let stopped :=
      snd (stop_task (uuid4 (spawned srv))
             (apply_acts ti acts (snd (run_task request_json srv)))) in
    active_tasks stopped = active_tasks srv /\
    alive (proc_of stopped (spawned srv)) = false /\
    (still_alive true acts = true ->
     exists rest,
       calls (proc_of stopped (spawned srv)) =
         Terminate :: Join (Some 5%float) :: rest /\
       (rest = [] \/ rest = [Kill; Join None])) /\
    (still_alive true acts = false ->
     calls (proc_of stopped (spawned srv)) = []).
Proof.
  intros j srv acts Hcode Hfree ti stopped. subst stopped.
  destruct (run_task_cases j srv) as [(Hne & _)|[Hs Hl]]; [done|].
  rewrite Hl. destruct (launch_started srv Hs) as (Hr & Hreg & Hp & Hq).
  assert (Hregp : active_tasks (apply_acts ti acts (snd (launch srv)))
                    !! uuid4 (spawned srv) = Some ti).
  { by rewrite apply_acts_active. }
  rewrite (stop_task_registered _ _ _ Hregp). cbn [snd].
  pose proof (apply_acts_proc ti acts (snd (launch srv))) as Hproc.
  cbn [process ti] in Hproc. rewrite Hp in Hproc. cbn [alive term_exit calls] in Hproc.
  match goal with
  | |- context [proc_of (set_active ?f (set_proc ?h ?p ?s)) _] =>
      change (proc_of (set_active f (set_proc h p s)) (spawned srv))
        with (proc_of (set_proc (spawned srv) p s) (spawned srv));
      rewrite (proc_of_set_proc (spawned srv) p s)
  end.
  cbn [process ti]. rewrite Hproc.
  split; [|split; [apply stop_process_dead|]].
  - cbn [active_tasks set_active set_proc]. rewrite apply_acts_active.
    unfold launch. rewrite Hs. simpl. by apply delete_insert_id.
  - rewrite stop_process_calls. cbn [alive calls app].
    split; intros Halive; rewrite Halive; [|reflexivity].
    destruct (exits_within _ _); eexists; (split; [reflexivity|]);
      [by left|by right].
Qed.

(** X9. Bodies that are not usable requests.  A body that is falsy ([null],
    an empty object or list, 0, the empty string) is answered 400; a truthy
    body that is not an object is answered 500; and so is a truthy
    [file_path] that is not a string, when no [task] is given.  Nothing is
    started in any of these cases. *)
Theorem run_task_malformed_body :
  forall (data : pyval) (srv : server),
    (truthy data = false ->
     run_task (ret data) srv = (bad_request "No JSON data provided", srv)) /\
    (truthy data = true -> (forall d, data <> PDict d) ->
     code_of (fst (run_task (ret data) srv)) = 500 /\
     snd (run_task (ret data) srv) = srv) /\
    (forall d v,
        data = PDict d -> given "task" d = false ->
        dict_get "file_path" d = Some v -> truthy v = true ->
        (forall p, v <> PStr p) ->
        code_of (fst (run_task (ret data) srv)) = 500 /\
        snd (run_task (ret data) srv) = srv).
Proof.
  intros data srv. split; [|split].
  - intros Hf. unfold run_task, ret. by rewrite Hf.
  - intros Ht Hnd. unfold run_task, ret. rewrite Ht. simpl.
    destruct data; try done. by destruct (Hnd d).
  - intros d v -> Hg Hfp Hv Hns. unfold given in Hg.
    assert (Hd : d <> []) by (intros ->; discriminate Hfp).
    rewrite (run_task_dict d srv Hd). unfold resolve_task.
    rewrite Hfp, Hg. simpl. rewrite Hv.
    destruct v; try done. by destruct (Hns s).
Qed.

(** *** The registry never shares a handle *)

Definition handles_ok (srv : server) : Prop :=
  (forall tid ti,
      active_tasks srv !! tid = Some ti ->
      queue ti = process ti /\
      (process ti < spawned srv)%nat /\
      is_Some (procs srv !! process ti) /\
      is_Some (queues srv !! queue ti)) /\
  (forall t1 t2 ti1 ti2,
      active_tasks srv !! t1 = Some ti1 ->
      active_tasks srv !! t2 = Some ti2 ->
      process ti1 = process ti2 -> t1 = t2).

Lemma handles_ok_launch srv : handles_ok srv -> handles_ok (snd (launch srv)).
Proof.
  intros [Hv Hi]. unfold launch.
  destruct (start_fails (spawned srv)); simpl.
  - split; simpl; [|exact Hi].
    intros tid ti Hreg. destruct (Hv tid ti Hreg) as (H1 & H2 & H3 & H4).
    repeat split; try done. lia.
  - split; simpl.
    + intros tid ti Hreg. apply lookup_insert_Some in Hreg as [[<- <-]|[Hne Hreg]].
      * simpl. repeat split; [lia| |]; rewrite lookup_insert_eq; by eexists.
      * destruct (Hv tid ti Hreg) as (H1 & H2 & H3 & H4).
        repeat split; [done|lia| |].
        -- apply lookup_insert_is_Some. by right; split; [lia|].
        -- apply lookup_insert_is_Some. right. split; [rewrite H1; lia|done].
    + intros t1 t2 ti1 ti2 H1 H2 Heq.
      apply lookup_insert_Some in H1 as [[<- <-]|[Hn1 H1]];
        apply lookup_insert_Some in H2 as [[<- <-]|[Hn2 H2]]; try done.
      * simpl in Heq. destruct (Hv _ _ H2) as (_ & Hlt & _). lia.
      * simpl in Heq. destruct (Hv _ _ H1) as (_ & Hlt & _). lia.
      * by apply (Hi t1 t2 ti1 ti2).
Qed.

Lemma handles_ok_handle rq srv :
  handles_ok srv -> handles_ok (snd (handle rq srv)).
Proof.
  intros Hok. destruct rq as [j|t|t|t]; simpl.
  - destruct (run_task_cases j srv) as [(_ & Ha & Hp & Hq & _)|[_ ->]];
      [|by apply handles_ok_launch].
    destruct Hok as [Hv Hi]. split.
    + intros tid ti Hreg. rewrite Ha in Hreg. rewrite Hp, Hq.
      destruct (Hv tid ti Hreg) as (H1 & H2 & H3 & H4).
      repeat split; try done.
      assert (spawned srv <= spawned (snd (run_task j srv)))%nat; [|lia].
      unfold run_task. destruct j as [e|data]; [done|].
      destruct (truthy data); simpl; [|done].
      destruct data; try done.
      destruct (resolve_task _ _); [done|].
      destruct (resolve_working_dir _); [done|].
      unfold launch. destruct (start_fails _); simpl; lia.
    + intros t1 t2 ti1 ti2. rewrite Ha. apply Hi.
  - destruct (active_tasks srv !! t) as [ti|] eqn:Hreg;
      [|unfold get_task_status; by rewrite Hreg].
    destruct (get_task_status_state _ _ _ Hreg) as (remaining & ->). simpl.
    destruct Hok as [Hv Hi].
    destruct (status_entry_handles ti srv) as (Hp & Hq & _).
    assert (Hlook : forall tid ti',
               <[t:=status_entry ti srv]> (active_tasks srv) !! tid = Some ti' ->
               exists ti0, active_tasks srv !! tid = Some ti0 /\
                           process ti' = process ti0 /\ queue ti' = queue ti0).
    { intros tid ti' H. apply lookup_insert_Some in H as [[<- <-]|[Hne H]].
      - by exists ti.
      - by exists ti'. }
    split; simpl.
    + intros tid ti' H. destruct (Hlook _ _ H) as (ti0 & H0 & E1 & E2).
      destruct (Hv tid ti0 H0) as (H1 & H2 & H3 & H4).
      rewrite E1, E2. repeat split; try done.
      apply lookup_insert_is_Some'. by right.
    + intros t1 t2 ti1 ti2 H1 H2 Heq.
      destruct (Hlook _ _ H1) as (a1 & A1 & E1 & _).
      destruct (Hlook _ _ H2) as (a2 & A2 & E2 & _).
      apply (Hi t1 t2 a1 a2 A1 A2). congruence.
  - unfold stream_task_messages. by destruct (active_tasks srv !! t).
  - unfold stop_task.
    destruct (active_tasks srv !! t) as [ti|] eqn:Hreg; [|done]. simpl.
    destruct Hok as [Hv Hi]. split; simpl.
    + intros tid ti' H. apply lookup_delete_Some in H as [Hne H].
      destruct (Hv tid ti' H) as (H1 & H2 & H3 & H4).
      repeat split; try done.
      apply lookup_insert_is_Some'. by right.
    + intros t1 t2 ti1 ti2 H1 H2.
      apply lookup_delete_Some in H1 as [_ H1].
      apply lookup_delete_Some in H2 as [_ H2].
      by apply Hi.
Qed.

(** X10. Starting from an empty server, after any sequence of requests no
    two registered tasks share a process or a queue, every registered task
    has its own process and its own queue in the tables, and the handles are
    below the allocation counter. *)
Theorem registry_handles_are_private :
  forall (rqs : list request) (t0 : float),
    handles_ok (snd (serve rqs (Server ∅ ∅ ∅ t0 0))).
Proof.
  intros rqs t0.
  assert (H0 : handles_ok (Server ∅ ∅ ∅ t0 0)).
  { split.
    - intros tid ti Hreg. simpl in Hreg. by apply lookup_empty_Some in Hreg.
    - intros t1 t2 ti1 ti2 Hreg. simpl in Hreg.
      by apply lookup_empty_Some in Hreg. }
  revert H0. generalize (Server ∅ ∅ ∅ t0 0).
  induction rqs as [|rq rqs IH]; intros srv Hok; [exact Hok|].
  simpl. pose proof (handles_ok_handle rq srv Hok) as H1.
  destruct (handle rq srv) as [resp srv1]. simpl in H1.
  specialize (IH srv1 H1).
  destruct (serve rqs srv1) as [answers srv2]. exact IH.
Qed.

(** *** [list_active_tasks] *)

Section ListTasks.

(** [active_tasks.items()]: the entries of the registry in the order the
    Python dictionary keeps them, which is some enumeration of the map. *)
Variable items : gmap string task_info -> list (string * task_info).
Hypothesis items_enumerates : forall m, items m ≡ₚ map_to_list m.

(** The record appended for one entry. *)
Definition task_row (srv : server) (entry : string * task_info) : pyval :=
  PDict [("task_id", PStr (fst entry));
         ("status",
          PStr (if is_alive (proc_of srv (process (snd entry)))
                then "running" else "completed"));
         ("start_time", PFloat (start_time (snd entry)));
         ("duration",
          PFloat (PrimFloat.sub (clock srv) (start_time (snd entry))))].

Definition list_active_tasks (srv : server) : response * server :=
  let tasks := map (task_row srv) (items (active_tasks srv)) in
  (jsonify_or_500
     [("status", PStr "success");
      ("active_tasks", PList tasks);
      ("total_tasks", PInt (Z.of_nat (length tasks)))],
   set_active (fmap (fun ti => status_entry ti srv)) srv).

(** X11. The task list has one row per registered task and no other: the
    row gives the id, [running] or [completed] by the liveness of the task's
    worker, and the start time; [total_tasks] is the size of the registry
    (a number [json.dumps] can write: below its limit of 4300 digits, as the
    length of any list in memory is).  Listing changes no key of the
    registry, only the stored status of the tasks whose worker is gone. *)
Theorem list_active_tasks_lists_the_registry :
  forall (srv : server),
    let srv' := snd (list_active_tasks srv) in
    (Z.of_nat (size (active_tasks srv)) < int_str_limit ->
     exists rows,
        fst (list_active_tasks srv) =
          Json 200 [("status", PStr "success");
                    ("active_tasks", PList rows);
                    ("total_tasks", PInt (Z.of_nat (size (active_tasks srv))))] /\
        length rows = size (active_tasks srv) /\
        (forall row,
            row ∈ rows <->
            exists tid ti, active_tasks srv !! tid = Some ti /\
                           row = task_row srv (tid, ti))) /\
    (forall tid,
        active_tasks srv' !! tid =
        (fun ti => status_entry ti srv) <$> (active_tasks srv !! tid)) /\
    procs srv' = procs srv /\ queues srv' = queues srv.
Proof.
  intros srv srv'. subst srv'. unfold list_active_tasks. cbn [fst snd].
  set (tasks := map (task_row srv) (items (active_tasks srv))).
  assert (Hlen : length tasks = size (active_tasks srv)).
  { unfold tasks. rewrite length_map, (Permutation_length (items_enumerates _)).
    apply length_map_to_list. }
  split; [intros Hsize|split; [|done]].
  - exists tasks. split; [|split; [exact Hlen|]].
    + unfold jsonify_or_500, json_dumps, ret.
      rewrite json_offender_PDict; [by rewrite Hlen|].
      apply Forall_cons. split; [reflexivity|].
      apply Forall_cons. split.
      * simpl. apply json_offender_PList. apply Forall_forall.
        intros v Hv. unfold tasks in Hv.
        apply list_elem_of_fmap in Hv as (entry & -> & _). reflexivity.
      * apply Forall_cons. split; [|by apply Forall_nil].
        cbn [snd]. apply json_offender_PInt. rewrite Hlen. lia.
    + intros row. unfold tasks. rewrite list_elem_of_fmap. split.
      * intros ([tid ti] & -> & Hin). exists tid, ti. split; [|done].
        rewrite (items_enumerates (active_tasks srv)) in Hin.
        by apply elem_of_map_to_list.
      * intros (tid & ti & Hreg & ->). exists (tid, ti). split; [done|].
        rewrite (items_enumerates (active_tasks srv)).
        by apply elem_of_map_to_list.
  - intros tid. simpl. apply lookup_fmap.
Qed.

End ListTasks.

(** *** The worker's events, through either reader *)

(** X13. Worker and readers composed.  When the queue of a registered task
    holds the events of a finished run of [run_agent_task], a stream with at
    least three passes yields exactly the JSON text of each event, in order,
    and closes on the worker's own [end], with no substitute and no
    synthesised end; a status call instead returns all of them in one
    answer. *)
Theorem finished_run_reaches_the_reader :
  forall (config agent : Type)
         (create_agent_config : pydict -> result config)
         (Agent : config -> result agent)
         (agent_run : agent -> string -> pydict -> Worker.run_report)
         (time_time : nat -> float) (worker_format_exc : exn -> string)
         (task : string) (config_data task_args : pydict)
         (task_id : string) (ti : task_info) (srv : server)
         (sched : list pass_env),
    let evs := Worker.run_events config agent create_agent_config Agent
                 agent_run time_time worker_format_exc task_id task
                 config_data task_args in
    active_tasks srv !! task_id = Some ti ->
    queue_of srv (queue ti) = evs ->
    (3 <= length sched)%nat ->
    (exists srv',
        generate task_id sched srv = (map relay_of evs, Closed, srv')) /\
    messages_of (fst (get_task_status task_id srv)) = map PDict evs /\
    observes_end (fst (get_task_status task_id srv)) = true.
Proof.
  intros config agent cac Ag run tt_ fe task cd ta task_id ti srv sched evs
    Hreg Hq Hlen.
  destruct (Worker.run_events_end_last config agent cac Ag run tt_ fe task_id
              task cd ta) as (pre & e & Hev & Hne & He & Hwf & Hpre).
  fold evs in Hev.
  assert (Hser : Forall serializable (pre ++ [e])).
  { eapply Forall_impl; [exact Hwf|]. by intros m (_ & _ & H). }
  assert (Hrs : records_of (clock srv) (queue_of srv (queue ti)) evs).
  { rewrite Hq, Hev. by apply serializable_records. }
  split; [|split].
  - unfold generate. rewrite Hreg, Hev.
    apply (generate_loop_until_end task_id ti e pre []); try done.
    + by rewrite Hq, Hev.
    + lia.
  - rewrite (get_task_status_registered _ _ _ _ Hreg Hrs). cbn [fst].
    apply messages_of_status_body.
  - rewrite (get_task_status_registered _ _ _ _ Hreg Hrs). cbn [fst].
    unfold observes_end, status_body.
    cbn [dict_get String.eqb Ascii.eqb Bool.eqb].
    rewrite Hev, !map_app, existsb_app. simpl.
    unfold Worker.is_type in He. rewrite He. simpl. apply orb_true_r.
Qed.

End Handlers.

(** *** A concrete server

    One registered task, [t1], whose worker is alive and does not exit on
    SIGTERM, with one message waiting in its queue. *)
Definition demo_task : task_info := TaskInfo 0 0 0%float "running".

Definition demo_server : server :=
  Server {[ "t1" := demo_task ]}
         {[ 0%nat := ProcState true None [] ]}
         {[ 0%nat := [Worker.start_event "t1" "hello" 0%float] ]}
         10%float 1.

(** Ids drawn by the demo environment: [u], [ux], [uxx], ... *)
Fixpoint tally (n : nat) : string :=
  match n with
  | O => EmptyString
  | S k => "x" +:+ tally k
  end.

Definition demo_uuid4 (n : nat) : string := "u" +:+ tally n.

Lemma demo_uuid4_fresh srv : never_drawn_again demo_uuid4 "t1" srv.
Proof. intros n _ H. unfold demo_uuid4 in H. simpl in H. discriminate H. Qed.

(** A demo environment for the handlers.  Its [str] gives text as it is
    and one word for anything else, and raises as [str] does on a value that
    holds an integer past the digit limit. *)
Fixpoint huge_int (v : pyval) : bool :=
  match v with
  | PInt z => int_str_limit <=? Z.abs z
  | PList l => existsb huge_int l
  | PDict d => existsb (fun kv => huge_int (snd kv)) d
  | _ => false
  end.

Definition demo_py_str (v : pyval) : result string :=
  match v with
  | PStr s => ret s
  | _ => if huge_int v then raise digit_limit_error else ret "<object>"
  end.
Definition demo_format_exc (e : exn) : string := "Traceback: " +:+ exn_class e.
Definition demo_read_text (p : string) : result string :=
  if String.eqb p "task.txt" then ret "write a story"
  else raise (FileNotFoundError p).
Definition demo_path_join (a b : string) : string := a +:+ "/" +:+ b.
Definition demo_mkdir (d : string) : result unit := ret tt.
Definition demo_is_absolute (d : string) : bool :=
  String.prefix "/" d.

(** The worker reports the end of its run and exits while a stream is
    open. *)
Definition demo_sched : list pass_env :=
  [ idle; PassEnv [Put (Worker.end_event "t1" 3%float); Exit] []; idle; idle ].

Definition demo_run : list yielded * stream_state * server :=
  generate demo_py_str "t1" demo_sched demo_server.

Example demo_run_yields :
  map chunk_of (fst (fst demo_run)) =
  [ Data (JsonText (PDict (Worker.start_event "t1" "hello" 0%float)));
    Data (JsonText (PDict (Worker.end_event "t1" 3%float))) ] /\
  snd (fst demo_run) = Closed.
Proof. split; reflexivity. Qed.

(** The worker reports its end and exits just after the reader found the
    queue empty: the reader sees a dead worker, synthesises an end and
    leaves the real one in the queue. *)
Definition idle_server : server :=
  Server {[ "t1" := demo_task ]}
         {[ 0%nat := ProcState true None [] ]}
         {[ 0%nat := [] ]}
         10%float 1.

Example late_end_is_left_in_queue :
  let '(ys, st, srv') :=
    generate demo_py_str "t1"
      [PassEnv [] [Put (Worker.end_event "t1" 3%float); Exit]] idle_server in
  ys = [SynthEnd (RawEnd "t1" 10%float)] /\ st = Closed /\
  queue_of srv' 0 = [Worker.end_event "t1" 3%float].
Proof. vm_compute. repeat split. Qed.


Lemma stop_task_graceful_then_forced_witness :
  calls (proc_of (snd (stop_task "t1" demo_server)) 0) =
    [Terminate; Join (Some 5%float); Kill; Join None] /\
  alive (proc_of (snd (stop_task "t1" demo_server)) 0) = false /\
  active_tasks (snd (stop_task "t1" demo_server)) !! "t1" = None.
Proof.
  destruct (stop_task_graceful_then_forced demo_py_str demo_format_exc
              demo_read_text "/srv" demo_path_join demo_mkdir (fun d => d)
              demo_is_absolute demo_uuid4 (fun _ => None)
              (fun _ => Some 1%float) "t1" demo_task demo_server eq_refl
              (demo_uuid4_fresh demo_server))
    as (_ & _ & _ & Hc & Ha & Hr & _).
  split; [apply Hc; reflexivity|]. split; [exact Ha|exact Hr].
Defined.

Lemma stop_task_twice_not_found_witness :
  stop_task "t1" (snd (stop_task "t1" demo_server)) =
    (not_found, snd (stop_task "t1" demo_server)) /\
  stop_task "t2" demo_server = (not_found, demo_server).
Proof.
  destruct (stop_task_twice_not_found "t1" demo_server) as (H1 & _ & _).
  destruct (stop_task_twice_not_found "t2" demo_server) as (_ & H2 & _).
  split; [apply H1; reflexivity | apply H2; reflexivity].
Defined.

(** *** A task whose worker was killed

    The worker of [t1] had reported its start and was then killed from
    outside: it is gone and no [end] is in the queue. *)
Definition killed_server : server :=
  Server {[ "t1" := demo_task ]}
         {[ 0%nat := ProcState false None [] ]}
         {[ 0%nat := [Worker.start_event "t1" "hello" 0%float] ]}
         10%float 1.


Example killed_server_first_poll :
  map reported_status (poll_status demo_py_str 2 "t1" killed_server) =
    [Some (PStr "completed"); Some (PStr "completed")] /\
  map observes_end (poll_status demo_py_str 2 "t1" killed_server) =
    [false; false].
Proof. split; reflexivity. Qed.




(** *** Messages that do not serialise

    [json.dumps] rejects the first message of [bad_server] for the set it
    holds; [str] takes it. *)

Definition bad_message : pydict :=
  [("type", PStr "step"); ("seen", PObj "set")].

Definition bad_server : server :=
  Server {[ "t1" := demo_task ]}
         {[ 0%nat := ProcState true None [] ]}
         {[ 0%nat := [bad_message; Worker.end_event "t1" 3%float] ]}
         10%float 1.

Example bad_message_rejected :
  json_dumps (PDict bad_message) = inl (not_serializable "set") /\
  demo_py_str (PDict bad_message) = ret "<object>".
Proof. split; reflexivity. Qed.

Example bad_server_stream :
  map chunk_of
    (fst (fst (generate demo_py_str "t1" [idle; idle; idle] bad_server))) =
  [ Data (JsonText (PDict
      [("type", PStr "error");
       ("message",
        PStr "Message serialization error: Object of type set is not JSON serializable");
       ("original_message", PStr "<object>");
       ("timestamp", PFloat 10%float)]));
    Data (JsonText (PDict (Worker.end_event "t1" 3%float))) ].
Proof. reflexivity. Qed.

Example bad_server_status :
  messages_of (fst (get_task_status demo_py_str "t1" bad_server)) =
  [ PDict (error_message (not_serializable "set") "<object>" 10%float);
    PDict (Worker.end_event "t1" 3%float) ].
Proof. reflexivity. Qed.

(** The second message of [huge_server] holds an integer of 4301 digits,
    [10 ** 4300]: [json.dumps] rejects it with [ValueError], and so does
    [str] inside the handler. *)
Definition huge_message : pydict :=
  [("type", PStr "step"); ("n", PInt int_str_limit)].

Definition huge_server : server :=
  Server {[ "t1" := demo_task ]}
         {[ 0%nat := ProcState true None [] ]}
         {[ 0%nat := [Worker.start_event "t1" "hello" 0%float; huge_message;
                      Worker.end_event "t1" 3%float] ]}
         10%float 1.

Lemma huge_int_rejected (k1 v1 k2 : string) (z : Z) :
  int_str_limit <= Z.abs z ->
  json_dumps (PDict [(k1, PStr v1); (k2, PInt z)]) = inl digit_limit_error /\
  demo_py_str (PDict [(k1, PStr v1); (k2, PInt z)]) = inl digit_limit_error.
Proof.
  intros Hz. apply Z.leb_le in Hz.
  unfold json_dumps, demo_py_str.
  cbn [json_offender huge_int existsb snd orb]. by rewrite Hz.
Qed.

Lemma int_str_limit_abs : int_str_limit <= Z.abs int_str_limit.
Proof. pose proof int_str_limit_pos. lia. Qed.

Lemma huge_message_rejected :
  json_dumps (PDict huge_message) = inl digit_limit_error.
Proof. exact (proj1 (huge_int_rejected "type" "step" "n" _ int_str_limit_abs)). Qed.

Lemma huge_message_str_raises :
  demo_py_str (PDict huge_message) = inl digit_limit_error.
Proof. exact (proj2 (huge_int_rejected "type" "step" "n" _ int_str_limit_abs)). Qed.

Lemma huge_message_fatal t :
  checked demo_py_str t huge_message = inl digit_limit_error.
Proof.
  exact (checked_raises demo_py_str t _ _ _ huge_message_rejected
           huge_message_str_raises).
Qed.

(** The stream on [huge_server] relays the first message and dies on the
    second, with no yield for it and the [end] left in the queue; the status
    call answers 500 and loses the first message as well. *)
Example huge_server_stream :
  generate demo_py_str "t1" [idle; idle; idle] huge_server =
  ([relay_of (Worker.start_event "t1" "hello" 0%float)],
   Aborted digit_limit_error,
   set_queue 0 [Worker.end_event "t1" 3%float]
     (set_queue 0 [huge_message; Worker.end_event "t1" 3%float] huge_server)).
Proof.
  change (generate demo_py_str "t1" [idle; idle; idle] huge_server)
    with (generate_loop demo_py_str "t1" demo_task [idle; idle; idle]
            huge_server).
  pose proof (generate_loop_head demo_py_str "t1" demo_task huge_server idle
                [idle; idle] (Worker.start_event "t1" "hello" 0%float)
                [huge_message; Worker.end_event "t1" 3%float]
                (Worker.start_event "t1" "hello" 0%float) eq_refl eq_refl)
    as H1.
  pose proof (generate_loop_head_raises demo_py_str "t1" demo_task
                (set_queue 0 [huge_message; Worker.end_event "t1" 3%float]
                   huge_server)
                idle [idle] huge_message [Worker.end_event "t1" 3%float]
                digit_limit_error eq_refl (huge_message_fatal _)) as H2.
  cbv zeta in H1.
  change (eq_str (dict_get "type" (Worker.start_event "t1" "hello" 0%float))
            "end") with false in H1.
  cbv iota in H1.
  change (apply_acts demo_task (meanwhile idle)
            (set_queue (queue demo_task)
               [huge_message; Worker.end_event "t1" 3%float]
               (apply_acts demo_task (before idle) huge_server)))
    with (set_queue 0 [huge_message; Worker.end_event "t1" 3%float]
            huge_server) in H1.
  rewrite H2 in H1. exact H1.
Qed.

Example huge_server_status :
  fst (get_task_status demo_py_str "t1" huge_server) =
    Json 500 [("status", PStr "error");
              ("error", PStr (exn_str digit_limit_error))] /\
  queue_of (snd (get_task_status demo_py_str "t1" huge_server)) 0 =
    [Worker.end_event "t1" 3%float].
Proof.
  rewrite (get_task_status_failed demo_py_str "t1" demo_task huge_server
             [Worker.start_event "t1" "hello" 0%float] huge_message
             [Worker.end_event "t1" 3%float]
             [Worker.start_event "t1" "hello" 0%float] digit_limit_error
             eq_refl eq_refl).
  - split; reflexivity.
  - constructor; [reflexivity|constructor].
  - apply huge_message_fatal.
Qed.


(** *** Submitting with a file that does not exist *)

Definition demo_run_task : result pyval -> server -> response * server :=
  run_task demo_format_exc demo_read_text "/srv" demo_path_join demo_mkdir
    (fun d => d) demo_is_absolute demo_uuid4 (fun _ => None)
    (fun _ => Some 1%float).

Definition only_missing_file : pydict := [("file_path", PStr "missing.txt")].
Definition only_task : pydict := [("task", PStr "write a story")].

(** C9, refuted as stated: this request gives exactly one of the two,
    [file_path], and is answered 400 without a task id, nothing started. *)
Lemma run_task_missing_file_rejected :
  given "task" only_missing_file = false /\
  given "file_path" only_missing_file = true /\
  demo_run_task (ret (PDict only_missing_file)) demo_server =
    (bad_request "File not found: missing.txt", demo_server).
Proof. repeat split. Qed.

Lemma run_task_one_source_witness :
  started demo_uuid4 (fun _ => Some 1%float) demo_server
    (demo_run_task (ret (PDict only_task)) demo_server).
Proof.
  destruct (run_task_one_source demo_format_exc demo_read_text "/srv"
              demo_path_join demo_mkdir (fun d => d) demo_is_absolute
              demo_uuid4 (fun _ => None) (fun _ => Some 1%float)
              only_task demo_server) as (_ & _ & H & _).
  apply (H "/srv"); reflexivity.
Defined.

(** *** The added properties on concrete servers *)

(** Three status polls; the worker reports its end and exits between the
    first and the second. *)
Definition demo_rounds : list (list env_act) :=
  [ []; [Put (Worker.end_event "t1" 3%float); Exit]; [] ].

Definition demo_polls : list response * server :=
  poll_rounds demo_py_str "t1" demo_task demo_rounds demo_server.

Example demo_polls_answers :
  map messages_of (fst demo_polls) =
  [ [PDict (Worker.start_event "t1" "hello" 0%float)];
    [PDict (Worker.end_event "t1" 3%float)];
    [] ] /\
  map reported_status (fst demo_polls) =
  [ Some (PStr "running"); Some (PStr "completed"); Some (PStr "completed") ].
Proof. split; reflexivity. Qed.

Lemma status_delivers_each_message_once_witness :
  exists ms rs,
    ms ++ queue_of (snd demo_polls) 0 `sublist_of`
      [Worker.start_event "t1" "hello" 0%float; Worker.end_event "t1" 3%float] /\
    Forall2 (record_of demo_py_str) ms rs /\
    concat (map messages_of (fst demo_polls)) = map PDict rs /\
    (Forall (fun m => readable demo_py_str m = true)
       [Worker.start_event "t1" "hello" 0%float; Worker.end_event "t1" 3%float] ->
     ms ++ queue_of (snd demo_polls) 0 =
       [Worker.start_event "t1" "hello" 0%float; Worker.end_event "t1" 3%float] /\
     Forall (fun r => code_of r = 200) (fst demo_polls) /\
     (demo_rounds <> [] -> queue_of (snd demo_polls) 0 = [])).
Proof.
  exact (status_delivers_each_message_once demo_py_str "t1" demo_task
           demo_server demo_rounds (fst demo_polls) (snd demo_polls)
           eq_refl eq_refl).
Defined.

Definition after_status : server :=
  snd (get_task_status demo_py_str "t1" demo_server).

Lemma stream_after_status_relays_only_new_witness :
  relayed (fst (fst (generate demo_py_str "t1" demo_sched after_status)))
    `prefix_of` [Worker.end_event "t1" 3%float].
Proof.
  destruct (stream_after_status_relays_only_new demo_py_str "t1" demo_task
              demo_server demo_sched
              (fst (fst (generate demo_py_str "t1" demo_sched after_status)))
              (snd (fst (generate demo_py_str "t1" demo_sched after_status)))
              (snd (generate demo_py_str "t1" demo_sched after_status))
              eq_refl eq_refl) as (_ & H & _).
  apply H. discriminate.
Defined.

(** Two tasks side by side. *)
Definition other_task : task_info := TaskInfo 1 1 5%float "running".

Definition two_task_server : server :=
  Server {[ "t1" := demo_task; "t2" := other_task ]}
         {[ 0%nat := ProcState true None []; 1%nat := ProcState true None [] ]}
         {[ 0%nat := [Worker.start_event "t1" "hello" 0%float];
            1%nat := [] ]}
         10%float 2.

Lemma stop_task_leaves_the_rest_witness :
  active_tasks (snd (stop_task "t1" two_task_server)) !! "t2" =
    Some other_task /\
  procs (snd (stop_task "t1" two_task_server)) !! 1%nat =
    Some (ProcState true None []) /\
  queues (snd (stop_task "t1" two_task_server)) = queues two_task_server.
Proof.
  destruct (stop_task_leaves_the_rest "t1" two_task_server)
    as (H1 & H2 & Hq & _).
  split; [|split; [|exact Hq]].
  - rewrite H1; [reflexivity|discriminate].
  - rewrite H2; [reflexivity|].
    intros ti Hti. vm_compute in Hti. inversion Hti. discriminate.
Defined.



Lemma run_task_rejection_starts_nothing_witness :
  active_tasks (snd (demo_run_task (ret (PDict only_missing_file)) demo_server)) =
    active_tasks demo_server /\
  procs (snd (demo_run_task (ret (PDict only_missing_file)) demo_server)) =
    procs demo_server /\
  queues (snd (demo_run_task (ret (PDict only_missing_file)) demo_server)) =
    queues demo_server /\
  clock (snd (demo_run_task (ret (PDict only_missing_file)) demo_server)) =
    clock demo_server.
Proof.
  apply (run_task_rejection_starts_nothing demo_format_exc demo_read_text
           "/srv" demo_path_join demo_mkdir (fun d => d) demo_is_absolute
           demo_uuid4 (fun _ => None) (fun _ => Some 1%float)
           (ret (PDict only_missing_file)) demo_server).
  vm_compute. discriminate.
Defined.

(** What the worker of the new task does before the first status call,
    and before the stop: it reports its start and exits. *)
Definition first_acts : list env_act :=
  [Put (Worker.start_event "ux" "write a story" 11%float); Exit].

Lemma fresh_task_is_running_witness :
  let started_srv := snd (demo_run_task (ret (PDict only_task)) demo_server) in
  let ti := TaskInfo 1 1 10%float "running" in
  (reported_status (fst (get_task_status demo_py_str "ux" started_srv)) =
     Some (PStr "running") /\
   messages_of (fst (get_task_status demo_py_str "ux" started_srv)) = []) /\
  (reported_status
     (fst (get_task_status demo_py_str "ux"
             (apply_acts ti first_acts started_srv))) =
     Some (PStr "completed") /\
   messages_of
     (fst (get_task_status demo_py_str "ux"
             (apply_acts ti first_acts started_srv))) =
     [PDict (Worker.start_event "ux" "write a story" 11%float)]).
Proof.
  intros started_srv ti. split.
  - destruct (fresh_task_is_running demo_py_str demo_format_exc
                demo_read_text "/srv" demo_path_join demo_mkdir (fun d => d)
                demo_is_absolute demo_uuid4 (fun _ => None)
                (fun _ => Some 1%float)
                (ret (PDict only_task)) demo_server [] eq_refl)
      as (_ & _ & _ & H).
    destruct (H eq_refl) as (_ & Hs & Hm). split; [exact Hs | exact Hm].
  - destruct (fresh_task_is_running demo_py_str demo_format_exc
                demo_read_text "/srv" demo_path_join demo_mkdir (fun d => d)
                demo_is_absolute demo_uuid4 (fun _ => None)
                (fun _ => Some 1%float)
                (ret (PDict only_task)) demo_server first_acts eq_refl)
      as (_ & H & _).
    destruct (H [Worker.start_event "ux" "write a story" 11%float])
      as (_ & Hs & Hm & _).
    { constructor; [reflexivity|constructor]. }
    split; [exact Hs | exact Hm].
Defined.

Lemma run_then_stop_restores_registry_witness :
  let started_srv := snd (demo_run_task (ret (PDict only_task)) demo_server) in
  let ti := TaskInfo 1 1 10%float "running" in
  (active_tasks (snd (stop_task "ux" started_srv)) = active_tasks demo_server /\
   alive (proc_of (snd (stop_task "ux" started_srv)) 1) = false /\
   exists rest,
     calls (proc_of (snd (stop_task "ux" started_srv)) 1) =
       Terminate :: Join (Some 5%float) :: rest) /\
  (active_tasks (snd (stop_task "ux" (apply_acts ti first_acts started_srv))) =
     active_tasks demo_server /\
   calls (proc_of (snd (stop_task "ux" (apply_acts ti first_acts started_srv)))
            1) = []).
Proof.
  intros started_srv ti. split.
  - destruct (run_then_stop_restores_registry demo_format_exc demo_read_text
                "/srv" demo_path_join demo_mkdir (fun d => d) demo_is_absolute
                demo_uuid4 (fun _ => None) (fun _ => Some 1%float)
                (ret (PDict only_task)) demo_server [] eq_refl eq_refl)
      as (Hr & Ha & Hc & _).
    split; [exact Hr|]. split; [exact Ha|].
    destruct (Hc eq_refl) as (rest & Hrest & _). by exists rest.
  - destruct (run_then_stop_restores_registry demo_format_exc demo_read_text
                "/srv" demo_path_join demo_mkdir (fun d => d) demo_is_absolute
                demo_uuid4 (fun _ => None) (fun _ => Some 1%float)
                (ret (PDict only_task)) demo_server first_acts eq_refl eq_refl)
      as (Hr & _ & _ & Hc).
    split; [exact Hr | exact (Hc eq_refl)].
Defined.

Lemma run_task_malformed_body_witness :
  demo_run_task (ret (PList [])) demo_server =
    (bad_request "No JSON data provided", demo_server) /\
  code_of (fst (demo_run_task (ret (PList [PInt 1])) demo_server)) = 500 /\
  code_of (fst (demo_run_task (ret (PDict [("file_path", PInt 7)]))
                  demo_server)) = 500.
Proof.
  destruct (run_task_malformed_body demo_format_exc demo_read_text "/srv"
              demo_path_join demo_mkdir (fun d => d) demo_is_absolute
              demo_uuid4 (fun _ => None) (fun _ => Some 1%float)
              (PList []) demo_server) as (H1 & _ & _).
  destruct (run_task_malformed_body demo_format_exc demo_read_text "/srv"
              demo_path_join demo_mkdir (fun d => d) demo_is_absolute
              demo_uuid4 (fun _ => None) (fun _ => Some 1%float)
              (PList [PInt 1]) demo_server) as (_ & H2 & _).
  destruct (run_task_malformed_body demo_format_exc demo_read_text "/srv"
              demo_path_join demo_mkdir (fun d => d) demo_is_absolute
              demo_uuid4 (fun _ => None) (fun _ => Some 1%float)
              (PDict [("file_path", PInt 7)]) demo_server) as (_ & _ & H3).
  split; [apply H1; reflexivity|].
  split.
  - apply H2; [reflexivity|discriminate].
  - apply (H3 [("file_path", PInt 7)] (PInt 7));
      [reflexivity|reflexivity|reflexivity|reflexivity|discriminate].
Defined.

Lemma list_active_tasks_lists_the_registry_witness :
  exists rows,
    fst (list_active_tasks map_to_list two_task_server) =
      Json 200 [("status", PStr "success");
                ("active_tasks", PList rows);
                ("total_tasks",
                 PInt (Z.of_nat (size (active_tasks two_task_server))))] /\
    length rows = size (active_tasks two_task_server) /\
    task_row two_task_server ("t2", other_task) ∈ rows.
Proof.
  destruct (list_active_tasks_lists_the_registry map_to_list
              (fun m => reflexivity (map_to_list m)) two_task_server)
    as (Hrows & _).
  destruct Hrows as (rows & Hr & Hl & Hin).
  { apply (Z.lt_trans _ 3); [reflexivity|].
    pose proof (machine_int_below_limit 3 eq_refl). lia. }
  exists rows. split; [exact Hr|]. split; [exact Hl|].
  apply Hin. exists "t2", other_task. split; reflexivity.
Defined.

(** A task whose worker ran to its end and is gone, nothing read yet. *)
Definition finished_server : server :=
  Server {[ "t1" := demo_task ]}
         {[ 0%nat := ProcState false None [] ]}
         {[ 0%nat := Worker.run_with Worker.final_answer_at_once "t1" "hello" ]}
         10%float 1.

Lemma finished_run_reaches_the_reader_witness :
  (exists srv',
      generate demo_py_str "t1" [idle; idle; idle] finished_server =
        (map relay_of (Worker.run_with Worker.final_answer_at_once "t1" "hello"),
         Closed, srv')) /\
  observes_end (fst (get_task_status demo_py_str "t1" finished_server)) = true.
Proof.
  destruct (finished_run_reaches_the_reader demo_py_str unit unit
              (fun _ => ret tt) (fun _ => ret tt)
              (fun _ _ _ => Worker.final_answer_at_once) Worker.seconds
              (fun e => exn_class e) "hello" [] [] "t1" demo_task
              finished_server [idle; idle; idle] eq_refl eq_refl)
    as (H1 & _ & H3); [simpl; lia|].
  split; [exact H1 | exact H3].
Defined.

End Api.

(** ** Configuration files: [resolve_config_file] and its callers *)

Module ConfigFile.
Import Py.

(** [s.endswith(suffix)]: some tail of [s] is [suffix]. *)
Fixpoint endswith (s suffix : string) : bool :=
  String.eqb s suffix ||
  match s with
  | EmptyString => false
  | String _ s' => endswith s' suffix
  end.

(** [s.replace(old, new)] for a non-empty [old]: the occurrences of [old]
    are replaced from the left, without overlap.  [skip] counts the
    characters of an occurrence still to be passed over. *)
Fixpoint replace_from (old new : string) (skip : nat) (s : string) : string :=
  match s with
  | EmptyString => EmptyString
  | String c s' =>
      match skip with
      | S k => replace_from old new k s'
      | O =>
          if String.prefix old s
          then new +:+ replace_from old new (String.length old - 1) s'
          else String c (replace_from old new 0 s')
      end
  end.

Definition str_replace (old new s : string) : string := replace_from old new 0 s.

Fixpoint mentions (c : ascii) (s : string) : bool :=
  match s with
  | EmptyString => false
  | String c' s' => Ascii.eqb c c' || mentions c s'
  end.

Definition is_yaml (config_file : string) : bool :=
  endswith config_file ".yaml" || endswith config_file ".yml".

(** [config_file.replace(".yaml", ".json").replace(".yml", ".json")] *)
Definition json_name (config_file : string) : string :=
  str_replace ".yml" ".json" (str_replace ".yaml" ".json" config_file).

Example json_name_default : json_name "trae_config.yaml" = "trae_config.json".
Proof. reflexivity. Qed.

(** Every occurrence is replaced, not only the extension. *)
Example json_name_inner :
  json_name "conf.yaml.d/agent.yml" = "conf.json.d/agent.json".
Proof. reflexivity. Qed.

(** What [show_config] found. *)
Inductive config_lookup (config : Type) : Type :=
| Loaded (config_file : string) (cfg : config)
| NoFile (config_file : string)
| LookupFailed (e : exn).
Arguments Loaded {config}.
Arguments NoFile {config}.
Arguments LookupFailed {config}.

Section Resolve.

(** The file system: [Path(p).exists()], and [str(Path(p))]. *)
Variable path_exists : string -> bool.
Variable path_str : string -> string.

Definition resolve_config_file (config_file : string) : result string :=
  if is_yaml config_file then
    if path_exists config_file then ret (path_str config_file)
    else if path_exists (json_name config_file)
    then ret (path_str (json_name config_file))
    else raise (FileNotFoundError ("Config file not found: " +:+ config_file))
  else ret config_file.

(** [check_config_file] of the start script, by its return value. *)
Definition check_config_file (config_file : string) : bool :=
  if is_yaml config_file then
    if path_exists config_file then true
    else if path_exists (json_name config_file) then true
    else false
  else
    if path_exists config_file then true else false.

(** [Config.create(config_file=...).resolve_config_values(...)], which takes
    its overrides from the request data. *)
Variable config : Type.
Variable Config_create : string -> pydict -> result config.

Definition create_agent_config (data : pydict) : result config :=
  match default (PStr "trae_config.yaml") (dict_get "config_file" data) with
  | PStr config_file =>
      bind (resolve_config_file config_file)
           (fun config_file => Config_create config_file data)
  | _ => raise (AttributeError "object has no attribute 'endswith'")
  end.

(** The part of [show_config] that decides between its three answers; the
    query string gives [config_file] as text, or not at all. *)
Definition lookup_config (config_file : option string) (overrides : pydict)
  : config_lookup config :=
  match resolve_config_file (default "trae_config.yaml" config_file) with
  | inl e => LookupFailed e
  | inr config_file =>
      if path_exists config_file then
        match Config_create config_file overrides with
        | inl e => LookupFailed e
        | inr cfg => Loaded config_file cfg
        end
      else NoFile config_file
  end.

(** The answers: the description of a loaded configuration is built from
    the attributes of the configuration object. *)
Variable describe : string -> config -> Api.response.
Variable format_exc : exn -> string.

Definition show_config (config_file : option string) (overrides : pydict)
  : Api.response :=
  match lookup_config config_file overrides with
  | Loaded config_file cfg => describe config_file cfg
  | NoFile config_file =>
      Api.Json 200
        [("status", PStr "warning");
         ("message",
          PStr ("No configuration file found at: " +:+ config_file));
         ("config",
          PDict [("config_file", PStr config_file);
                 ("config_exists", PBool false);
                 ("note",
                  PStr "Using default settings and environment variables")])]
  | LookupFailed e => Api.server_error format_exc e
  end.

End Resolve.

(** *** The name of the fallback *)

Lemma endswith_app (a suffix : string) : endswith (a +:+ suffix) suffix = true.
Proof.
  induction a as [|c a IH]; simpl.
  - destruct suffix; simpl; [reflexivity|].
    by rewrite Ascii.eqb_refl, String.eqb_refl.
  - rewrite IH. apply orb_true_r.
Qed.

(** Text that does not mention the first character of [old] passes through
    a replacement unchanged. *)
Lemma replace_from_passes (d : ascii) (old' new : string) :
  forall (stem rest : string),
    mentions d stem = false ->
    replace_from (String d old') new 0 (stem +:+ rest) =
    stem +:+ replace_from (String d old') new 0 rest.
Proof.
  induction stem as [|c stem IH]; intros rest Hm; [reflexivity|].
  simpl in Hm. apply orb_false_elim in Hm as [Hc Hm].
  simpl. destruct (ascii_dec d c) as [->|Hne].
  - by rewrite Ascii.eqb_refl in Hc.
  - by rewrite (IH rest Hm).
Qed.

(** X14. For a name whose only dot is that of its YAML extension, the
    fallback [resolve_config_file] and [check_config_file] look for is the
    same name with the extension [.json]; both extensions count as YAML. *)
Theorem json_name_of_plain_yaml_name :
  forall (stem : string),
    mentions "."%char stem = false ->
    json_name (stem +:+ ".yaml") = stem +:+ ".json" /\
    json_name (stem +:+ ".yml") = stem +:+ ".json" /\
    is_yaml (stem +:+ ".yaml") = true /\
    is_yaml (stem +:+ ".yml") = true.
Proof.
  intros stem Hm. unfold json_name, str_replace, is_yaml.
  rewrite !(replace_from_passes _ _ _ stem _ Hm).
  rewrite !endswith_app, orb_true_r.
  repeat split; reflexivity.
Qed.

Lemma json_name_of_plain_yaml_name_witness :
  json_name "config/agent.yml" = "config/agent.json".
Proof.
  destruct (json_name_of_plain_yaml_name "config/agent" eq_refl)
    as (_ & H & _).
  exact H.
Defined.

(** *** The start script and the worker agree *)

(** X15. [resolve_config_file] raises exactly when the name is a YAML name
    for which [check_config_file] reports that nothing was found, and the
    error names the file asked for; any other name is returned as it is,
    whether or not the file exists; and a YAML name resolves to the path of
    a file that exists. *)
Theorem resolve_config_file_agrees_with_check :
  forall (path_exists : string -> bool) (path_str : string -> string)
         (config_file : string),
    ((exists e, resolve_config_file path_exists path_str config_file = inl e) <->
     is_yaml config_file = true /\
     check_config_file path_exists config_file = false) /\
    (forall e,
        resolve_config_file path_exists path_str config_file = inl e ->
        e = FileNotFoundError ("Config file not found: " +:+ config_file)) /\
    (is_yaml config_file = false ->
     resolve_config_file path_exists path_str config_file = ret config_file) /\
    (forall p,
        is_yaml config_file = true ->
        resolve_config_file path_exists path_str config_file = ret p ->
        exists found, p = path_str found /\ path_exists found = true /\
                      (found = config_file \/ found = json_name config_file)).
Proof.
  intros path_exists path_str config_file.
  unfold resolve_config_file, check_config_file, ret, raise.
  destruct (is_yaml config_file) eqn:Hyaml.
  - destruct (path_exists config_file) eqn:Hy;
      [|destruct (path_exists (json_name config_file)) eqn:Hj].
    + split; [split; [intros [e H]; discriminate H|intros [_ H]; discriminate H]|].
      split; [intros e H; discriminate H|].
      split; [intros H; discriminate H|].
      intros p _ H. inversion H. exists config_file. auto.
    + split; [split; [intros [e H]; discriminate H|intros [_ H]; discriminate H]|].
      split; [intros e H; discriminate H|].
      split; [intros H; discriminate H|].
      intros p _ H. inversion H. exists (json_name config_file). auto.
    + split; [split; [done|intros _; by eexists]|].
      split; [intros e H; by inversion H|].
      split; [intros H; discriminate H|].
      intros p _ H. discriminate H.
  - split; [split; [intros [e H]; discriminate H|intros [H _]; discriminate H]|].
    split; [intros e H; discriminate H|].
    split; [done|].
    intros p H. discriminate H.
Qed.

(** A file system with one file, [agent.json]. *)
Definition one_json (p : string) : bool := String.eqb p "agent.json".

Lemma resolve_config_file_agrees_with_check_witness :
  resolve_config_file one_json (fun p => p) "agent.yaml" = ret "agent.json" /\
  resolve_config_file one_json (fun p => p) "other.txt" = ret "other.txt" /\
  exists e, resolve_config_file one_json (fun p => p) "trae_config.yaml" = inl e.
Proof.
  destruct (resolve_config_file_agrees_with_check one_json (fun p => p)
              "other.txt") as (_ & _ & H2 & _).
  destruct (resolve_config_file_agrees_with_check one_json (fun p => p)
              "trae_config.yaml") as ([_ H3] & _).
  split; [reflexivity|]. split; [apply H2; reflexivity|].
  apply H3. split; reflexivity.
Defined.

(** X16. [show_config] reports a missing file as a warning only for a name
    that is not a YAML name; a YAML name, the default [trae_config.yaml]
    included, for which [check_config_file] finds nothing is answered with
    the 500 of the handler, naming the file.  (The first part relies on
    [str(Path(p))] naming the same file as [p].) *)
Theorem show_config_warns_only_for_other_names :
  forall (path_exists : string -> bool) (path_str : string -> string)
         (config : Type) (Config_create : string -> pydict -> result config)
         (describe : string -> config -> Api.response)
         (format_exc : exn -> string)
         (config_file : option string) (overrides : pydict),
    let name := default "trae_config.yaml" config_file in
    (forall p, path_exists (path_str p) = path_exists p) ->
    (forall f,
        lookup_config path_exists path_str config Config_create config_file
          overrides = NoFile f ->
        is_yaml name = false /\ f = name /\ path_exists name = false) /\
    (is_yaml name = true -> check_config_file path_exists name = false ->
     show_config path_exists path_str config Config_create describe format_exc
       config_file overrides =
     Api.server_error format_exc
       (FileNotFoundError ("Config file not found: " +:+ name))).
Proof.
  intros path_exists path_str config Config_create describe format_exc
    config_file overrides name Hstr.
  unfold show_config, lookup_config, resolve_config_file, check_config_file.
  fold name. split.
  - intros f.
    destruct (is_yaml name) eqn:Hyaml.
    + destruct (path_exists name) eqn:Hy;
        [|destruct (path_exists (json_name name)) eqn:Hj]; simpl.
      * rewrite Hstr, Hy. by destruct (Config_create _ _).
      * rewrite Hstr, Hj. by destruct (Config_create _ _).
      * discriminate.
    + simpl. destruct (path_exists name) eqn:Hy.
      * by destruct (Config_create _ _).
      * intros H. by inversion H.
  - intros -> Hcheck.
    destruct (path_exists name); [discriminate|].
    destruct (path_exists (json_name name)); [discriminate|]. reflexivity.
Qed.

Lemma show_config_warns_only_for_other_names_witness :
  show_config one_json (fun p => p) unit (fun _ _ => ret tt)
    (fun _ _ => Api.Json 200 []) (fun e => exn_class e) None [] =
  Api.server_error (fun e => exn_class e)
    (FileNotFoundError "Config file not found: trae_config.yaml").
Proof.
  destruct (show_config_warns_only_for_other_names one_json (fun p => p) unit
              (fun _ _ => ret tt) (fun _ _ => Api.Json 200 [])
              (fun e => exn_class e) None [] (fun p => eq_refl)) as [_ H].
  apply H; reflexivity.
Defined.

(** X17. A worker whose configuration cannot be found fails before it
    starts: when the YAML name in the request data (or the default, when the
    data names none) has neither file, the worker puts exactly an [error]
    that names the file and the [end], and no [start]; a [config_file] that
    is not text gives [error], [end] as well. *)
Theorem missing_config_fails_before_start :
  forall (path_exists : string -> bool) (path_str : string -> string)
         (config : Type) (Config_create : string -> pydict -> result config)
         (agent : Type) (Agent : config -> result agent)
         (agent_run : agent -> string -> pydict -> Worker.run_report)
         (time_time : nat -> float) (format_exc : exn -> string)
         (task_id task : string) (config_data task_args : pydict),
    let evs :=
      Worker.run_events config agent
        (create_agent_config path_exists path_str config Config_create)
        Agent agent_run time_time format_exc task_id task config_data
        task_args in
    (forall name,
        default (PStr "trae_config.yaml") (dict_get "config_file" config_data)
          = PStr name ->
        is_yaml name = true ->
        check_config_file path_exists name = false ->
        evs =
        [Worker.error_event task_id ("Config file not found: " +:+ name)
           (format_exc (FileNotFoundError ("Config file not found: " +:+ name)))
           (time_time 0%nat);
         Worker.end_event task_id (time_time 1%nat)]) /\
    (forall v,
        dict_get "config_file" config_data = Some v ->
        (forall name, v <> PStr name) ->
        Worker.tags evs = ["error"; "end"]).
Proof.
  intros path_exists path_str config Config_create agent Agent agent_run
    time_time format_exc task_id task config_data task_args evs.
  subst evs. split.
  - intros name Hname Hyaml Hcheck.
    rewrite Worker.run_events_cases. unfold create_agent_config.
    rewrite Hname. unfold resolve_config_file, check_config_file in *.
    rewrite Hyaml in *.
    destruct (path_exists name); [discriminate|].
    destruct (path_exists (json_name name)); [discriminate|].
    reflexivity.
  - intros v Hv Hns. rewrite Worker.run_events_tags.
    unfold create_agent_config. rewrite Hv. simpl.
    destruct v; try reflexivity. by destruct (Hns s).
Qed.

Lemma missing_config_fails_before_start_witness :
  Worker.tags
    (Worker.run_events unit unit
       (create_agent_config one_json (fun p => p) unit (fun _ _ => ret tt))
       (fun _ => ret tt) (fun _ _ _ => Worker.final_answer_at_once)
       Worker.seconds (fun e => exn_class e) "t1" "hello" [] []) =
  ["error"; "end"].
Proof.
  destruct (missing_config_fails_before_start one_json (fun p => p) unit
              (fun _ _ => ret tt) unit (fun _ => ret tt)
              (fun _ _ _ => Worker.final_answer_at_once) Worker.seconds
              (fun e => exn_class e) "t1" "hello" [] []) as [H _].
  rewrite (H "trae_config.yaml"); reflexivity.
Defined.

End ConfigFile.

(** ** The provider client: [OpenAIClient.chat] *)

Module OpenAI.
Import Py.

(** *** What the provider returns ([openai.types.chat.ChatCompletion]) *)

Record api_function : Type := ApiFunction {
  fn_name : string;
  fn_arguments : string
}.

Record api_tool_call : Type := ApiToolCall {
  tc_id : string;
  tc_function : api_function
}.

Record api_message : Type := ApiMessage {
  msg_content : option string;
  msg_tool_calls : option (list api_tool_call)
}.

Record api_choice : Type := ApiChoice {
  choice_message : api_message;
  choice_finish_reason : string
}.

(** An optional details object: absent attribute, [None], or an object
    whose counter attribute may itself be missing. *)
Definition api_details : Type := option (option (option pyval)).

Record api_usage : Type := ApiUsage {
  prompt_tokens : option Z;
  completion_tokens : option Z;
  prompt_tokens_details : api_details;
  completion_tokens_details : api_details
}.

Record ChatCompletion : Type := MkChatCompletion {
  choices : list api_choice;
  usage : option api_usage;
  model : string
}.

(** *** What the client returns ([llm_basics], [tools.base]) *)

Record ToolCall : Type := MkToolCall {
  call_id : string;
  name : string;
  arguments : pyval;
  id : option string
}.

Record ToolResult : Type := MkToolResult {
  result_call_id : string;
  result_text : option string;
  result_error : option string
}.

Record LLMUsage : Type := MkLLMUsage {
  input_tokens : Z;
  output_tokens : Z;
  cache_read_input_tokens : pyval;
  reasoning_tokens : pyval
}.

Record LLMResponse : Type := MkLLMResponse {
  content : string;
  llm_usage : option LLMUsage;
  llm_model : string;
  finish_reason : string;
  tool_calls : option (list ToolCall)
}.

Record LLMMessage : Type := MkLLMMessage {
  role : string;
  llm_content : option string;
  tool_call : option ToolCall;
  tool_result : option ToolResult
}.

Record Tool : Type := MkTool {
  get_name : string;
  get_description : string;
  get_input_schema : pyval
}.

(** *** The history the client keeps ([ChatCompletionMessageParam]) *)

Record tool_call_param : Type := ToolCallParam {
  param_id : string;
  param_name : string;
  param_arguments : json_text
}.

Inductive message_param : Type :=
| SystemParam (text : string)
| UserParam (text : string)
| AssistantParam (text : string) (calls : option (list tool_call_param))
| ToolParam (text : string) (tool_call_id : string).

Record tool_schema : Type := ToolSchema {
  schema_name : string;
  schema_description : string;
  schema_parameters : pyval
}.

(** The client: its history, and the trajectory recorder when one is set
    (the responses recorded so far). *)
Record client : Type := Client {
  message_history : list message_param;
  trajectory_recorder : option (list LLMResponse)
}.

Definition nl : string := String (Ascii.ascii_of_nat 10) EmptyString.

(** [x or 0] on an optional counter. *)
Definition or_zero (x : option Z) : Z := default 0 x.

(** [getattr(getattr(usage, details, None), counter, 0) if hasattr(usage,
    details) else 0] *)
Definition details_counter (d : api_details) : pyval :=
  match d with
  | Some (Some (Some v)) => v
  | _ => PInt 0
  end.

Section Chat.

(** [str.strip], [json.loads], and the API call behind the retry decorator
    (what it returns or raises once the retries are over). *)
Variable strip : string -> string.
Variable json_loads : string -> result pyval.
Variable create_response :
  list message_param -> option (list tool_schema) -> result ChatCompletion.

Definition parse_tool_call_result (r : ToolResult) : message_param :=
  let c1 := match result_text r with Some s => s | None => EmptyString end in
  let c2 :=
    match result_error r with
    | Some e =>
        if String.eqb e EmptyString then c1 else c1 +:+ nl +:+ "Error: " +:+ e
    | None => c1
    end in
  ToolParam (strip c2) (result_call_id r).

Fixpoint parse_messages (messages : list LLMMessage)
  : result (list message_param) :=
  match messages with
  | [] => ret []
  | msg :: rest =>
      let here : result (list message_param) :=
        match tool_result msg, tool_call msg with
        | Some r, _ => ret [parse_tool_call_result r]
        | None, Some _ => ret []
        | None, None =>
            match llm_content msg with
            | None => raise (ValueError "Message content is required")
            | Some c =>
                if String.eqb c EmptyString
                then raise (ValueError "Message content is required")
                else if String.eqb (role msg) "system" then ret [SystemParam c]
                else if String.eqb (role msg) "user" then ret [UserParam c]
                else if String.eqb (role msg) "assistant"
                     then ret [AssistantParam c None]
                else raise (ValueError ("Invalid message role: " +:+ role msg))
            end
        end in
      bind here (fun ps => bind (parse_messages rest) (fun qs => ret (ps ++ qs)))
  end.

(** One [ToolCall] per tool call of the provider's message. *)
Definition to_tool_call (tc : api_tool_call) : result ToolCall :=
  bind (if String.eqb (fn_arguments (tc_function tc)) EmptyString
        then ret (PDict [])
        else json_loads (fn_arguments (tc_function tc)))
       (fun args =>
          ret (MkToolCall (tc_id tc) (fn_name (tc_function tc)) args
                          (Some (tc_id tc)))).

Fixpoint to_tool_calls (tcs : list api_tool_call) : result (list ToolCall) :=
  match tcs with
  | [] => ret []
  | tc :: rest =>
      bind (to_tool_call tc) (fun c =>
      bind (to_tool_calls rest) (fun cs => ret (c :: cs)))
  end.

(** The [tool_calls] entry of the assistant message kept in the history. *)
Fixpoint to_params (tcs : list ToolCall) : result (list tool_call_param) :=
  match tcs with
  | [] => ret []
  | tc :: rest =>
      bind (json_dumps (arguments tc)) (fun txt =>
      bind (to_params rest) (fun ps =>
        ret (ToolCallParam (call_id tc) (name tc) txt :: ps)))
  end.

Definition to_usage (u : api_usage) : LLMUsage :=
  MkLLMUsage (or_zero (prompt_tokens u)) (or_zero (completion_tokens u))
             (details_counter (prompt_tokens_details u))
             (details_counter (completion_tokens_details u)).

(** The part of [chat] after the API call has returned [response]; the
    history already holds the request. *)
Definition chat_response (response : ChatCompletion) (c : client)
  : result LLMResponse * client :=
  match choices response with
  | [] => (raise (IndexError "list index out of range"), c)
  | choice :: _ =>
      let content := default EmptyString (msg_content (choice_message choice)) in
      match to_tool_calls (default [] (msg_tool_calls (choice_message choice))) with
      | inl e => (raise e, c)
      | inr tool_calls =>
          let appended : result (list message_param) :=
            match tool_calls with
            | _ :: _ =>
                bind (to_params tool_calls) (fun ps =>
                  ret (message_history c ++ [AssistantParam content (Some ps)]))
            | [] =>
                if String.eqb content EmptyString
                then ret (message_history c)
                else ret (message_history c ++ [AssistantParam content None])
            end in
          match appended with
          | inl e => (raise e, c)
          | inr history =>
              let llm_response :=
                MkLLMResponse content (option_map to_usage (usage response))
                  (model response) (choice_finish_reason choice)
                  (match tool_calls with [] => None | _ => Some tool_calls end) in
              (ret llm_response,
               Client history
                 (option_map (fun log => log ++ [llm_response])
                             (trajectory_recorder c)))
          end
      end
  end.

Definition chat (messages : list LLMMessage) (tools : option (list Tool))
    (reuse_history : bool) (c : client) : result LLMResponse * client :=
  match parse_messages messages with
  | inl e => (raise e, c)
  | inr parsed_messages =>
      let history :=
        if reuse_history then message_history c ++ parsed_messages
        else parsed_messages in
      let c1 := Client history (trajectory_recorder c) in
      let tool_schemas :=
        match tools with
        | Some (t :: ts) =>
            Some (map (fun tool =>
                         ToolSchema (get_name tool) (get_description tool)
                                    (get_input_schema tool)) (t :: ts))
        | _ => None
        end in
      match create_response history tool_schemas with
      | inl e => (raise e, c1)
      | inr response => chat_response response c1
      end
  end.

(** *** The shape of the returned turn *)

Lemma to_tool_calls_length tcs : forall cs,
  to_tool_calls tcs = inr cs -> length cs = length tcs.
Proof.
  induction tcs as [|tc tcs IH]; intros cs H; simpl in H.
  - inversion H. reflexivity.
  - destruct (to_tool_call tc) as [e|c0]; simpl in H; [discriminate|].
    destruct (to_tool_calls tcs) as [e|cs0]; simpl in H; [discriminate|].
    inversion H; subst. simpl. by rewrite (IH cs0).
Qed.

(** The content and tool calls of what the provider sent first. *)
Definition sent_content (response : ChatCompletion) : string :=
  match choices response with
  | choice :: _ => default EmptyString (msg_content (choice_message choice))
  | [] => EmptyString
  end.

Definition sent_tool_calls (response : ChatCompletion) : list api_tool_call :=
  match choices response with
  | choice :: _ => default [] (msg_tool_calls (choice_message choice))
  | [] => []
  end.

Lemma chat_response_shape response c r c' :
  chat_response response c = (inr r, c') ->
  content r = sent_content response /\
  tool_calls r <> Some [] /\
  (tool_calls r = None <-> sent_tool_calls response = []) /\
  (forall l, tool_calls r = Some l ->
             length l = length (sent_tool_calls response)).
Proof.
  unfold chat_response, sent_content, sent_tool_calls.
  destruct (choices response) as [|choice rest]; [discriminate|].
  destruct (to_tool_calls (default [] (msg_tool_calls (choice_message choice))))
    as [e|tcs] eqn:Htcs; [discriminate|].
  pose proof (to_tool_calls_length _ _ Htcs) as Hlen.
  destruct tcs as [|tc tcs].
  - destruct (String.eqb _ _); intros H; inversion H; subst; simpl;
      (split; [reflexivity|]); (split; [discriminate|]);
      (split; [|discriminate]);
      (split; [intros _|reflexivity]);
      destruct (default [] (msg_tool_calls (choice_message choice)));
      [reflexivity|discriminate|reflexivity|discriminate].
  - destruct (to_params (tc :: tcs)) as [e|ps]; simpl; [discriminate|].
    intros H; inversion H; subst; simpl.
    split; [reflexivity|]. split; [discriminate|].
    split.
    + split; [discriminate|]. intros Hnil. rewrite Hnil in Hlen. discriminate.
    + intros l Hl. inversion Hl; subst. exact Hlen.
Qed.

(** C7, amended. A turn returned by [chat] never carries an empty list of
    tool calls: [tool_calls] is [None] exactly when the provider's message
    has no tool call and otherwise lists one [ToolCall] per tool call of the
    provider; [content] is the provider's content, or the empty string when
    there is none.  Content and tool calls are both empty exactly when the
    provider sent neither. *)
Theorem chat_turn_shape :
  forall (messages : list LLMMessage) (tools : option (list Tool))
         (reuse_history : bool) (c c' : client) (r : LLMResponse),
    chat messages tools reuse_history c = (inr r, c') ->
    exists history schemas response,
      create_response history schemas = inr response /\
      content r = sent_content response /\
      tool_calls r <> Some [] /\
      (tool_calls r = None <-> sent_tool_calls response = []) /\
      (forall l, tool_calls r = Some l ->
                 length l = length (sent_tool_calls response)) /\
      (content r = EmptyString /\ tool_calls r = None <->
       sent_content response = EmptyString /\ sent_tool_calls response = []).
Proof.
  intros messages tools reuse c c' r H. unfold chat in H.
  destruct (parse_messages messages) as [e|parsed]; [discriminate|].
  match type of H with
  | context [create_response ?h ?s] =>
      destruct (create_response h s) as [e|response] eqn:Hcall;
      [discriminate|exists h, s, response]
  end.
  destruct (chat_response_shape _ _ _ _ H) as (Hc & Hne & Hnone & Hlen).
  split; [exact Hcall|]. split; [exact Hc|]. split; [exact Hne|].
  split; [exact Hnone|]. split; [exact Hlen|].
  rewrite Hc. split; intros [H1 H2]; (split; [exact H1|by apply Hnone]).
Qed.

End Chat.

(** *** Two provider answers *)

(** The provider stops at the token limit before producing anything: no
    content, no tool call. *)
Definition silent_completion : ChatCompletion :=
  MkChatCompletion [ApiChoice (ApiMessage None None) "length"] None "gpt-4o".

(** The provider asks for one tool call and sends no text. *)
Definition tool_completion : ChatCompletion :=
  MkChatCompletion
    [ApiChoice
       (ApiMessage None
          (Some [ApiToolCall "call_1" (ApiFunction "read_file" EmptyString)]))
       "tool_calls"]
    None "gpt-4o".

Definition demo_chat (response : ChatCompletion)
  : result LLMResponse * client :=
  chat (fun s => s) (fun _ => ret (PDict [])) (fun _ _ => ret response)
    [MkLLMMessage "user" (Some "hello") None None] None true (Client [] None).

(** C7, refuted as stated: the turn returned for the silent answer has empty
    content and [tool_calls = None] at once. *)
Lemma chat_both_empty :
  fst (demo_chat silent_completion) =
    inr (MkLLMResponse EmptyString None "gpt-4o" "length" None) /\
  message_history (snd (demo_chat silent_completion)) = [UserParam "hello"].
Proof. split; reflexivity. Qed.

Definition tool_turn : LLMResponse :=
  MkLLMResponse EmptyString None "gpt-4o" "tool_calls"
    (Some [MkToolCall "call_1" "read_file" (PDict []) (Some "call_1")]).

Lemma chat_turn_shape_witness :
  fst (demo_chat tool_completion) = inr tool_turn /\
  content tool_turn = sent_content tool_completion /\
  tool_calls tool_turn <> Some [].
Proof.
  destruct (chat_turn_shape (fun s => s) (fun _ => ret (PDict []))
              (fun _ _ => ret tool_completion)
              [MkLLMMessage "user" (Some "hello") None None] None true
              (Client [] None) (snd (demo_chat tool_completion)) tool_turn
              eq_refl)
    as (h & sch & resp & Hcall & Hc & Hne & _).
  inversion Hcall; subst resp.
  split; [reflexivity|]. split; [exact Hc|exact Hne].
Defined.

(** *** The history the client builds *)

Section History.

Variable strip : string -> string.
Variable json_loads : string -> result pyval.
Variable create_response :
  list message_param -> option (list tool_schema) -> result ChatCompletion.

(** [set_chat_history] *)
Definition set_chat_history (messages : list LLMMessage) (c : client)
  : result unit * client :=
  match parse_messages strip messages with
  | inl e => (raise e, c)
  | inr parsed => (ret tt, Client parsed (trajectory_recorder c))
  end.

(** A message that only carries a tool call. *)
Definition only_tool_call (msg : LLMMessage) : bool :=
  match tool_result msg, tool_call msg with
  | None, Some _ => true
  | _, _ => false
  end.

Lemma parse_messages_cons msg rest :
  parse_messages strip (msg :: rest) =
  bind (parse_messages strip [msg]) (fun ps =>
  bind (parse_messages strip rest) (fun qs => ret (ps ++ qs))).
Proof.
  cbn [parse_messages].
  match goal with
  | |- bind ?h _ = _ => destruct h as [e|ps]; [reflexivity|]
  end.
  simpl. destruct (parse_messages strip rest); simpl; [reflexivity|].
  by rewrite app_nil_r.
Qed.

(** X18. Parsing is compositional and drops exactly the messages that only
    carry a tool call: parsing [a ++ b] is parsing [a], then [b], and
    joining the results (failing where the first of them fails), and a
    successful parse has one entry for every message other than those. *)
Theorem parse_messages_app :
  forall (a b : list LLMMessage),
    parse_messages strip (a ++ b) =
      bind (parse_messages strip a) (fun pa =>
      bind (parse_messages strip b) (fun pb => ret (pa ++ pb))) /\
    (forall parsed,
        parse_messages strip a = ret parsed ->
        length parsed =
        length (filter (fun msg => only_tool_call msg = false) a)).
Proof.
  intros a b. split.
  - induction a as [|msg a IH]; simpl app.
    + simpl. by destruct (parse_messages strip b).
    + rewrite (parse_messages_cons msg (a ++ b)), IH.
      rewrite (parse_messages_cons msg a).
      destruct (parse_messages strip [msg]) as [e|ps]; [reflexivity|].
      simpl. destruct (parse_messages strip a) as [e|pa]; [reflexivity|].
      simpl. destruct (parse_messages strip b) as [e|pb]; [reflexivity|].
      simpl. by rewrite app_assoc.
  - induction a as [|msg a IH]; intros parsed H.
    + inversion H. reflexivity.
    + rewrite parse_messages_cons in H.
      destruct (parse_messages strip [msg]) as [e|ps] eqn:Hm; [discriminate|].
      simpl in H.
      destruct (parse_messages strip a) as [e|pa]; [discriminate|].
      simpl in H. inversion H; subst. rewrite length_app, (IH pa eq_refl).
      assert (Hps : length ps = if only_tool_call msg then 0%nat else 1%nat).
      { unfold only_tool_call. cbn [parse_messages] in Hm.
        destruct (tool_result msg), (tool_call msg); simpl in Hm;
          try (inversion Hm; reflexivity).
        destruct (llm_content msg) as [c|]; [|discriminate].
        destruct (String.eqb c EmptyString); [discriminate|].
        destruct (String.eqb (role msg) "system"); [by inversion Hm|].
        destruct (String.eqb (role msg) "user"); [by inversion Hm|].
        destruct (String.eqb (role msg) "assistant"); [by inversion Hm|].
        discriminate. }
      rewrite Hps. rewrite filter_cons.
      destruct (only_tool_call msg); simpl; reflexivity.
Qed.

(** The returned tool calls and their echo in the history keep the
    provider's ids, names and order. *)
Lemma to_tool_calls_ids tcs : forall cs,
  to_tool_calls json_loads tcs = inr cs ->
  map call_id cs = map tc_id tcs /\
  map name cs = map (fun tc => fn_name (tc_function tc)) tcs /\
  Forall (fun tc => id tc = Some (call_id tc)) cs.
Proof.
  induction tcs as [|tc tcs IH]; intros cs H; simpl in H.
  - inversion H. by repeat split.
  - unfold to_tool_call in H.
    destruct (if String.eqb _ _ then _ else _) as [e|args]; simpl in H;
      [discriminate|].
    destruct (to_tool_calls json_loads tcs) as [e|cs0]; simpl in H;
      [discriminate|].
    inversion H; subst. destruct (IH cs0 eq_refl) as (H1 & H2 & H3).
    simpl. rewrite H1, H2. repeat split. by constructor.
Qed.

Lemma to_params_ids cs : forall ps,
  to_params cs = inr ps ->
  map param_id ps = map call_id cs /\
  map param_name ps = map name cs /\
  map param_arguments ps = map (fun tc => JsonText (arguments tc)) cs.
Proof.
  induction cs as [|tc cs IH]; intros ps H; simpl in H.
  - inversion H. by repeat split.
  - destruct (json_dumps (arguments tc)) as [e|txt] eqn:Hd; simpl in H;
      [discriminate|].
    destruct (to_params cs) as [e|ps0]; simpl in H; [discriminate|].
    inversion H; subst. destruct (IH ps0 eq_refl) as (H1 & H2 & H3).
    simpl. rewrite H1, H2, H3.
    unfold json_dumps in Hd. destruct (json_offender (arguments tc));
      inversion Hd. by repeat split.
Qed.

(** What [chat] leaves in the history after the request, by the turn it
    returned. *)
Definition echo (r : LLMResponse) (e : list message_param) : Prop :=
  match tool_calls r with
  | Some l =>
      exists ps, e = [AssistantParam (content r) (Some ps)] /\
                 map param_id ps = map call_id l /\
                 map param_name ps = map name l /\
                 map param_arguments ps =
                   map (fun tc => JsonText (arguments tc)) l
  | None =>
      e = if String.eqb (content r) EmptyString then []
          else [AssistantParam (content r) None]
  end.

Lemma chat_response_echo response c r c' :
  chat_response json_loads response c = (inr r, c') ->
  (exists e, message_history c' = message_history c ++ e /\ echo r e) /\
  trajectory_recorder c' =
    option_map (fun log => log ++ [r]) (trajectory_recorder c) /\
  (forall l, tool_calls r = Some l ->
     map call_id l = map tc_id (sent_tool_calls response) /\
     map name l =
       map (fun tc => fn_name (tc_function tc)) (sent_tool_calls response) /\
     Forall (fun tc => id tc = Some (call_id tc)) l).
Proof.
  unfold chat_response, sent_tool_calls, echo.
  destruct (choices response) as [|choice rest]; [discriminate|].
  destruct (to_tool_calls json_loads
              (default [] (msg_tool_calls (choice_message choice))))
    as [e|tcs] eqn:Htcs; [discriminate|].
  pose proof (to_tool_calls_ids _ _ Htcs) as Hids.
  destruct tcs as [|tc tcs].
  - destruct (String.eqb (default EmptyString _) EmptyString) eqn:Hc;
      intros H; inversion H; subst; simpl; rewrite Hc.
    + split; [exists []; by rewrite app_nil_r|]. by split.
    + split; [by eexists|]. by split.
  - destruct (to_params (tc :: tcs)) as [e|ps] eqn:Hps; simpl; [discriminate|].
    intros H; inversion H; subst; simpl.
    destruct (to_params_ids _ _ Hps) as (P1 & P2 & P3).
    split; [eexists; split; [reflexivity|]; by exists ps|].
    split; [reflexivity|].
    intros l Hl. inversion Hl; subst. exact Hids.
Qed.

(** X19. [chat] only ever adds to the history it reuses.  Whatever the
    outcome, the history before the call is an initial part of the history
    after it; a call that fails while parsing leaves the client as it was;
    a call that returns a turn has appended the parsed request and then the
    echo of the turn (an assistant message with the tool calls, or with the
    text, or nothing when the turn is empty), and has recorded the turn in
    the trajectory when a recorder is set. *)
Theorem chat_history_append_only :
  forall (messages : list LLMMessage) (tools : option (list Tool))
         (c : client),
    let out := chat strip json_loads create_response messages tools true c in
    message_history c `prefix_of` message_history (snd out) /\
    (forall e, parse_messages strip messages = inl e -> out = (inl e, c)) /\
    (forall r, fst out = inr r ->
       exists parsed e,
         parse_messages strip messages = ret parsed /\
         message_history (snd out) = message_history c ++ parsed ++ e /\
         echo r e /\
         trajectory_recorder (snd out) =
           option_map (fun log => log ++ [r]) (trajectory_recorder c)).
Proof.
  intros messages tools c out. subst out. unfold chat.
  destruct (parse_messages strip messages) as [e|parsed] eqn:Hp.
  { split; [done|]. split; [intros e' H; by inversion H|].
    intros r H. discriminate H. }
  set (history := message_history c ++ parsed).
  match goal with
  | |- context [create_response history ?s] =>
      destruct (create_response history s) as [e|response]
  end.
  { split; [by apply prefix_app_r|]. split; [intros e' H; discriminate H|].
    intros r H. discriminate H. }
  destruct (chat_response json_loads response
              (Client history (trajectory_recorder c))) as [[e|r] c'] eqn:Hr.
  - split; [|split; [intros e' H; discriminate H|intros r H; discriminate H]].
    assert (Hc' : c' = Client history (trajectory_recorder c)).
    { revert Hr. unfold chat_response.
      destruct (choices response) as [|choice rest];
        [intros H; by inversion H|].
      destruct (to_tool_calls _ _) as [e0|tcs]; [intros H; by inversion H|].
      destruct tcs as [|tc tcs].
      - destruct (String.eqb _ _); intros H; discriminate H.
      - destruct (to_params (tc :: tcs)); simpl; intros H;
          [by inversion H|discriminate H]. }
    rewrite Hc'. by apply prefix_app_r.
  - destruct (chat_response_echo _ _ _ _ Hr) as ((e & He & Hecho) & Hrec & _).
    simpl in He, Hrec. split; [|split; [intros e' H; discriminate H|]].
    + simpl. rewrite He. unfold history. rewrite <- app_assoc.
      by apply prefix_app_r.
    + intros r' H. inversion H; subst r'. exists parsed, e.
      split; [reflexivity|]. split; [|by split].
      simpl. rewrite He. unfold history. by rewrite <- app_assoc.
Qed.

Definition tool_call_id_of (p : message_param) : option string :=
  match p with
  | ToolParam _ i => Some i
  | _ => None
  end.

(** Messages that each carry a tool result parse into one tool message
    each, with the call ids of the results. *)
Lemma parse_tool_replies : forall (replies : list LLMMessage) (ids : list string),
  map (fun msg => result_call_id <$> tool_result msg) replies = map Some ids ->
  exists answers,
    parse_messages strip replies = ret answers /\
    map tool_call_id_of answers = map Some ids.
Proof.
  induction replies as [|msg replies IH]; intros ids H.
  - destruct ids; [|discriminate H]. by exists [].
  - destruct ids as [|i ids]; [discriminate H|].
    simpl in H. inversion H as [[Hm Hrest]].
    destruct (IH ids Hrest) as (answers & Hp & Hids).
    destruct (tool_result msg) as [r0|] eqn:Hr; [|discriminate Hm].
    simpl in Hm. inversion Hm; subst i.
    exists (parse_tool_call_result strip r0 :: answers).
    cbn [parse_messages]. rewrite Hr, Hp. simpl. by rewrite Hids.
Qed.

(** X20. Tool results answer the calls just announced.  When [chat]
    returns a turn with tool calls, these carry the provider's ids and
    names in the provider's order, the history ends with the assistant
    message that lists them, and messages that carry the results of these
    calls, in the same order, parse into tool messages whose
    [tool_call_id]s are, one for one, the ids of that assistant message. *)
Theorem tool_results_answer_the_last_turn :
  forall (messages : list LLMMessage) (tools : option (list Tool))
         (reuse_history : bool) (c c' : client) (r : LLMResponse)
         (l : list ToolCall) (replies : list LLMMessage),
    chat strip json_loads create_response messages tools reuse_history c =
      (inr r, c') ->
    tool_calls r = Some l ->
    map (fun msg => result_call_id <$> tool_result msg) replies =
      map Some (map call_id l) ->
    exists response history ps answers,
      create_response history
        (match tools with
         | Some (t :: ts) =>
             Some (map (fun tool =>
                          ToolSchema (get_name tool) (get_description tool)
                                     (get_input_schema tool)) (t :: ts))
         | _ => None
         end) = inr response /\
      map call_id l = map tc_id (sent_tool_calls response) /\
      map name l =
        map (fun tc => fn_name (tc_function tc)) (sent_tool_calls response) /\
      message_history c' = history ++ [AssistantParam (content r) (Some ps)] /\
      parse_messages strip replies = ret answers /\
      map tool_call_id_of answers = map Some (map param_id ps).
Proof.
  intros messages tools reuse c c' r l replies H Hl Hres. unfold chat in H.
  destruct (parse_messages strip messages) as [e|parsed]; [discriminate|].
  match type of H with
  | context [create_response ?h ?s] =>
      destruct (create_response h s) as [e|response] eqn:Hcall;
      [discriminate|exists response, h]
  end.
  destruct (chat_response_echo _ _ _ _ H) as ((e & He & Hecho) & _ & Hids).
  unfold echo in Hecho. rewrite Hl in Hecho.
  destruct Hecho as (ps & -> & P1 & _).
  destruct (Hids l Hl) as (I1 & I2 & _).
  destruct (parse_tool_replies replies (map call_id l) Hres)
    as (answers & Hp & Ha).
  exists ps, answers.
  split; [exact Hcall|]. split; [exact I1|]. split; [exact I2|].
  split; [exact He|]. split; [exact Hp|]. by rewrite P1.
Qed.

End History.

(** *** The added properties on a concrete exchange *)

Definition two_messages : list LLMMessage :=
  [MkLLMMessage "system" (Some "You write novels.") None None;
   MkLLMMessage "assistant" None
     (Some (MkToolCall "call_0" "read_file" (PDict []) None)) None].

Lemma parse_messages_app_witness :
  parse_messages (fun s => s)
    (two_messages ++ [MkLLMMessage "user" (Some "hello") None None]) =
    ret [SystemParam "You write novels."; UserParam "hello"] /\
  length [SystemParam "You write novels."] =
    length (filter (fun msg => only_tool_call msg = false) two_messages).
Proof.
  destruct (parse_messages_app (fun s => s) two_messages
              [MkLLMMessage "user" (Some "hello") None None]) as [H1 H2].
  split; [rewrite H1; reflexivity|]. apply H2. reflexivity.
Defined.

Lemma chat_history_append_only_witness :
  message_history (snd (demo_chat tool_completion)) =
    [UserParam "hello";
     AssistantParam EmptyString
       (Some [ToolCallParam "call_1" "read_file" (JsonText (PDict []))])] /\
  [] `prefix_of` message_history (snd (demo_chat tool_completion)).
Proof.
  destruct (chat_history_append_only (fun s => s) (fun _ => ret (PDict []))
              (fun _ _ => ret tool_completion)
              [MkLLMMessage "user" (Some "hello") None None] None
              (Client [] None)) as (Hpre & _ & _).
  split; [reflexivity|exact Hpre].
Defined.

Definition tool_reply : LLMMessage :=
  MkLLMMessage "user" None None
    (Some (MkToolResult "call_1" (Some "chapter one") None)).

Lemma tool_results_answer_the_last_turn_witness :
  exists answers,
    parse_messages (fun s => s) [tool_reply] = ret answers /\
    map tool_call_id_of answers = [Some "call_1"].
Proof.
  destruct (tool_results_answer_the_last_turn (fun s => s)
              (fun _ => ret (PDict [])) (fun _ _ => ret tool_completion)
              [MkLLMMessage "user" (Some "hello") None None] None true
              (Client [] None) (snd (demo_chat tool_completion)) tool_turn
              [MkToolCall "call_1" "read_file" (PDict []) (Some "call_1")]
              [tool_reply] eq_refl eq_refl eq_refl)
    as (response & history & ps & answers & _ & _ & _ & Hh & Hp & Ha).
  exists answers. split; [exact Hp|].
  rewrite Ha. apply app_inj_tail in Hh as [_ Hh].
  inversion Hh. reflexivity.
Defined.

End OpenAI.

(** ** The sequential-thinking tool *)

Module Thinking.
Import Py.

Record ThoughtData : Type := MkThoughtData {
  thought : string;
  thought_number : Z;
  total_thoughts : Z;
  next_thought_needed : bool;
  is_revision : option bool;
  revises_thought : option Z;
  branch_from_thought : option Z;
  branch_id : option string;
  needs_more_thoughts : option bool
}.

(** [ToolExecResult]; [error_code] defaults to 0. *)
Record ToolExecResult : Type := MkToolExecResult {
  output : option string;
  error : option string;
  error_code : Z
}.

(** The state one tool instance keeps across calls.  [branches] is a
    dictionary in insertion order.  A [ThoughtData] is changed only before it
    is appended, so storing the value where Python stores a reference to the
    object loses nothing. *)
Record tool : Type := Tool {
  thought_history : list ThoughtData;
  branches : list (string * list ThoughtData)
}.

(** [__init__] *)
Definition init : tool := Tool [] [].

(** [isinstance(v, str)], [isinstance(v, int)] ([bool] is a subclass of
    [int]), [isinstance(v, bool)], [v is None]. *)
Definition is_str (v : pyval) : bool :=
  match v with PStr _ => true | _ => false end.
Definition is_int (v : pyval) : bool :=
  match v with PInt _ | PBool _ => true | _ => false end.
Definition is_bool (v : pyval) : bool :=
  match v with PBool _ => true | _ => false end.
Definition is_none (v : pyval) : bool :=
  match v with PNone => true | _ => false end.

(** [int(v)] on an instance of [int]. *)
Definition int_of (v : pyval) : Z :=
  match v with
  | PInt z => z
  | PBool b => if b then 1 else 0
  | _ => 0
  end.

(** [v != 0] *)
Definition ne_zero (v : pyval) : bool :=
  match v with
  | PInt z => negb (z =? 0)
  | PBool b => b
  | PFloat f => negb (PrimFloat.eqb f 0%float)
  | _ => true
  end.

Definition nl : string := String (Ascii.ascii_of_nat 10) EmptyString.

Notation "x <- m ;; k" := (bind m (fun x => k))
  (at level 100, m at next level, right associativity).

(** [if key not in arguments or not isinstance(arguments[key], T): raise] *)
Definition get_checked (key : string) (ok : pyval -> bool) (msg : string)
    (arguments : pydict) : result pyval :=
  match dict_get key arguments with
  | Some v => if ok v then ret v else raise (ValueError msg)
  | None => raise (ValueError msg)
  end.

Definition require (b : bool) (msg : string) : result unit :=
  if b then ret tt else raise (ValueError msg).

(** The optional thought references: absent, [None] and 0 mean none; any
    other value must be a positive integer. *)
Definition optional_positive (key msg : string) (arguments : pydict)
  : result (option Z) :=
  match dict_get key arguments with
  | Some v =>
      if negb (is_none v) && ne_zero v then
        if negb (is_int v) || (int_of v <? 1)
        then raise (ValueError msg)
        else ret (Some (int_of v))
      else ret None
  | None => ret None
  end.

(** [f(arguments[key])] when the key is present and not [None]. *)
Definition optional {A} (key : string) (f : pyval -> A) (arguments : pydict)
  : option A :=
  match dict_get key arguments with
  | Some v => if is_none v then None else Some (f v)
  | None => None
  end.

(** [branches[bid].append(v)], creating the entry first when it is missing. *)
Fixpoint append_branch (bid : string) (v : ThoughtData)
    (bs : list (string * list ThoughtData)) : list (string * list ThoughtData) :=
  match bs with
  | [] => [(bid, [v])]
  | (k, l) :: rest =>
      if String.eqb k bid then (k, l ++ [v]) :: rest
      else (k, l) :: append_branch bid v rest
  end.

Section Execute.

(** [str(v)] of a value that is not a string, and
    [json.dumps(v, indent=2)]. *)
Variable py_str : pyval -> string.
Variable render : pyval -> string.

Definition str_of (v : pyval) : string :=
  match v with PStr s => s | _ => py_str v end.

Definition _validate_thought_data (arguments : pydict) : result ThoughtData :=
  thought <- get_checked "thought" is_str "无效的思考：必须是字符串" arguments ;;
  number <- get_checked "thought_number" is_int "无效的思考编号：必须是数字"
              arguments ;;
  total <- get_checked "total_thoughts" is_int "无效的总思考数：必须是数字"
             arguments ;;
  needed <- get_checked "next_thought_needed" is_bool
              "无效的next_thought_needed：必须是布尔值" arguments ;;
  _ <- require (negb (int_of number <? 1)) "思考编号必须至少为1" ;;
  _ <- require (negb (int_of total <? 1)) "总思考数必须至少为1" ;;
  revises <- optional_positive "revises_thought" "修正思考编号必须是正整数"
               arguments ;;
  branch_from <- optional_positive "branch_from_thought"
                   "分支起始思考编号必须是正整数" arguments ;;
  ret (MkThoughtData (str_of thought) (int_of number) (int_of total)
         (truthy needed)
         (optional "is_revision" truthy arguments)
         revises branch_from
         (optional "branch_id" str_of arguments)
         (optional "needs_more_thoughts" truthy arguments)).

(** [if thought_number > total_thoughts: total_thoughts = thought_number] *)
Definition adjust_total (v : ThoughtData) : ThoughtData :=
  if total_thoughts v <? thought_number v then
    MkThoughtData (thought v) (thought_number v) (thought_number v)
      (next_thought_needed v) (is_revision v) (revises_thought v)
      (branch_from_thought v) (branch_id v) (needs_more_thoughts v)
  else v.

(** [if v.branch_from_thought and v.branch_id] *)
Definition branches_off (v : ThoughtData) : option string :=
  match branch_from_thought v, branch_id v with
  | Some z, Some b =>
      if negb (z =? 0) && negb (String.eqb b EmptyString) then Some b else None
  | _, _ => None
  end.

Definition execute (arguments : pydict) (self : tool) : ToolExecResult * tool :=
  match _validate_thought_data arguments with
  | inr validated_input =>
      let validated_input := adjust_total validated_input in
      let history := thought_history self ++ [validated_input] in
      let branches' :=
        match branches_off validated_input with
        | Some b => append_branch b validated_input (branches self)
        | None => branches self
        end in
      let response_data :=
        PDict [("thought_number", PInt (thought_number validated_input));
               ("total_thoughts", PInt (total_thoughts validated_input));
               ("next_thought_needed",
                PBool (next_thought_needed validated_input));
               ("branches", PList (map (fun kv => PStr (fst kv)) branches'));
               ("thought_history_length", PInt (Z.of_nat (length history)))] in
      (MkToolExecResult
         (Some ("顺序思考步骤已完成。" +:+ nl +:+ nl +:+ "状态：" +:+ nl +:+
                render response_data))
         None 0,
       Tool history branches')
  | inl e =>
      let error_data :=
        PDict [("error", PStr (exn_str e)); ("status", PStr "failed")] in
      (MkToolExecResult
         None
         (Some ("顺序思考失败：" +:+ exn_str e +:+ nl +:+ nl +:+ "详情：" +:+ nl +:+
                render error_data))
         (-1),
       self)
  end.

(** A sequence of calls on one instance. *)
Definition execute_all (calls : list pydict) (self : tool) : tool :=
  foldl (fun s arguments => snd (execute arguments s)) self calls.

(** *** The bound on recorded thoughts *)

Definition bounded (td : ThoughtData) : Prop :=
  1 <= thought_number td <= total_thoughts td.

Lemma validate_at_least_one arguments v :
  _validate_thought_data arguments = inr v ->
  1 <= thought_number v /\ 1 <= total_thoughts v.
Proof.
  unfold _validate_thought_data.
  destruct (get_checked "thought" _ _ _) as [e|th]; [discriminate|].
  destruct (get_checked "thought_number" _ _ _) as [e|tn]; [discriminate|].
  destruct (get_checked "total_thoughts" _ _ _) as [e|tt]; [discriminate|].
  destruct (get_checked "next_thought_needed" _ _ _) as [e|nd]; [discriminate|].
  cbn [bind]. unfold require.
  destruct (Z.ltb_spec (int_of tn) 1) as [Hn|Hn]; [discriminate|].
  destruct (Z.ltb_spec (int_of tt) 1) as [Ht|Ht]; [discriminate|].
  cbn [negb bind].
  destruct (optional_positive "revises_thought" _ _) as [e|rv]; [discriminate|].
  destruct (optional_positive "branch_from_thought" _ _) as [e|bf]; [discriminate|].
  cbn [bind]. intros H. inversion H; subst. simpl. lia.
Qed.

Lemma adjust_total_bounded v :
  1 <= thought_number v -> bounded (adjust_total v).
Proof.
  unfold bounded, adjust_total. intros H.
  destruct (Z.ltb_spec (total_thoughts v) (thought_number v)); simpl; lia.
Qed.

Lemma execute_invalid arguments self e :
  _validate_thought_data arguments = inl e ->
  snd (execute arguments self) = self /\
  output (fst (execute arguments self)) = None /\
  error (fst (execute arguments self)) <> None /\
  error_code (fst (execute arguments self)) = -1.
Proof. intros H. unfold execute. rewrite H. simpl. by repeat split. Qed.

Lemma execute_valid arguments self v :
  _validate_thought_data arguments = inr v ->
  thought_history (snd (execute arguments self)) =
    thought_history self ++ [adjust_total v] /\
  error (fst (execute arguments self)) = None /\
  error_code (fst (execute arguments self)) = 0.
Proof. intros H. unfold execute. rewrite H. simpl. by repeat split. Qed.

Lemma execute_preserves_bounded arguments self :
  Forall bounded (thought_history self) ->
  Forall bounded (thought_history (snd (execute arguments self))).
Proof.
  intros Hinv.
  destruct (_validate_thought_data arguments) as [e|v] eqn:Hv.
  - destruct (execute_invalid arguments self e Hv) as [-> _]. exact Hinv.
  - destruct (execute_valid arguments self v Hv) as [-> _].
    apply Forall_app. split; [exact Hinv|].
    apply Forall_cons. split; [|by apply Forall_nil].
    apply adjust_total_bounded. by destruct (validate_at_least_one _ _ Hv).
Qed.

Lemma execute_all_bounded calls : forall self,
  Forall bounded (thought_history self) ->
  Forall bounded (thought_history (execute_all calls self)).
Proof.
  unfold execute_all.
  induction calls as [|arguments calls IH]; intros self Hinv; simpl.
  - exact Hinv.
  - apply IH. by apply execute_preserves_bounded.
Qed.

(** C10. A call whose arguments fail validation returns an error result
    (code -1) and leaves [thought_history] and [branches] as they were; a
    call whose arguments pass appends one [ThoughtData] with
    [1 <= thought_number <= total_thoughts]; hence after any sequence of
    calls on a new instance every recorded thought satisfies the bound. *)
Theorem execute_keeps_thoughts_bounded :
  forall (arguments : pydict) (self : tool),
    (forall e,
        _validate_thought_data arguments = inl e ->
        snd (execute arguments self) = self /\
        output (fst (execute arguments self)) = None /\
        error (fst (execute arguments self)) <> None /\
        error_code (fst (execute arguments self)) = -1) /\
    (forall v,
        _validate_thought_data arguments = inr v ->
        exists td,
          thought_history (snd (execute arguments self)) =
            thought_history self ++ [td] /\
          bounded td /\
          error (fst (execute arguments self)) = None) /\
    (forall calls,
        Forall bounded (thought_history self) ->
        Forall bounded (thought_history (execute_all calls self))) /\
    (forall calls, Forall bounded (thought_history (execute_all calls init))).
Proof.
  intros arguments self. split; [|split; [|split]].
  - intros e He. exact (execute_invalid arguments self e He).
  - intros v Hv. exists (adjust_total v).
    destruct (execute_valid arguments self v Hv) as (Hh & He & _).
    split; [exact Hh|]. split; [|exact He].
    apply adjust_total_bounded. by destruct (validate_at_least_one _ _ Hv).
  - intros calls. apply execute_all_bounded.
  - intros calls. apply execute_all_bounded. apply Forall_nil_2.
Qed.

End Execute.

(** *** Three calls *)

Definition demo_render (v : pyval) : string := "{...}".
Definition demo_str (v : pyval) : string := "<object>".

(** The model is at thought 5 of an estimated 3, on a branch. *)
Definition call_over_estimate : pydict :=
  [("thought", PStr "check the edge cases");
   ("thought_number", PInt 5);
   ("total_thoughts", PInt 3);
   ("next_thought_needed", PBool true);
   ("branch_from_thought", PInt 2);
   ("branch_id", PStr "edge")].

(** Thought numbers start at 1. *)
Definition call_zero : pydict :=
  [("thought", PStr "start");
   ("thought_number", PInt 0);
   ("total_thoughts", PInt 3);
   ("next_thought_needed", PBool true)].

Definition recorded_over_estimate : ThoughtData :=
  MkThoughtData "check the edge cases" 5 5 true None None (Some 2)
    (Some "edge") None.

Definition validated_over_estimate : ThoughtData :=
  MkThoughtData "check the edge cases" 5 3 true None None (Some 2)
    (Some "edge") None.

Example execute_over_estimate :
  snd (execute demo_str demo_render call_over_estimate init) =
  Tool [recorded_over_estimate] [("edge", [recorded_over_estimate])].
Proof. reflexivity. Qed.

Example execute_zero :
  snd (execute demo_str demo_render call_zero init) = init /\
  error_code (fst (execute demo_str demo_render call_zero init)) = -1.
Proof. split; reflexivity. Qed.

Lemma execute_keeps_thoughts_bounded_witness :
  (exists td,
      thought_history (snd (execute demo_str demo_render call_over_estimate init))
        = [td] /\ bounded td) /\
  snd (execute demo_str demo_render call_zero init) = init.
Proof.
  destruct (execute_keeps_thoughts_bounded demo_str demo_render
              call_over_estimate init) as (_ & Hok & _).
  destruct (execute_keeps_thoughts_bounded demo_str demo_render
              call_zero init) as (Hbad & _).
  split.
  - destruct (Hok validated_over_estimate eq_refl) as (td & Hh & Hb & _).
    exists td. split; [exact Hh|exact Hb].
  - destruct (Hbad (ValueError "思考编号必须至少为1") eq_refl) as [Hs _].
    exact Hs.
Defined.

(** *** The state as a function of the accepted calls *)

(** [branches.get(b)] *)
Fixpoint branch_get (b : string) (bs : list (string * list ThoughtData))
  : option (list ThoughtData) :=
  match bs with
  | [] => None
  | (k, l) :: rest => if String.eqb k b then Some l else branch_get b rest
  end.

Lemma append_branch_get b v bs : forall b',
  branch_get b' (append_branch b v bs) =
  if String.eqb b b' then Some (default [] (branch_get b bs) ++ [v])
  else branch_get b' bs.
Proof.
  induction bs as [|[k l] rest IH]; intros b'; simpl.
  - reflexivity.
  - destruct (String.eqb_spec k b) as [->|Hkb]; simpl.
    + by destruct (String.eqb b b').
    + rewrite IH. destruct (String.eqb_spec b b') as [<-|Hbb'].
      * by destruct (String.eqb_spec k b).
      * reflexivity.
Qed.

Lemma append_branch_keys b v bs : forall k,
  k ∈ map fst (append_branch b v bs) <-> k = b \/ k ∈ map fst bs.
Proof.
  induction bs as [|[k0 l] rest IH]; intros k; simpl.
  - rewrite list_elem_of_singleton, elem_of_nil. tauto.
  - destruct (String.eqb_spec k0 b) as [->|Hne]; simpl.
    + rewrite !elem_of_cons. tauto.
    + rewrite !elem_of_cons, IH. tauto.
Qed.

Lemma append_branch_NoDup b v bs :
  NoDup (map fst bs) -> NoDup (map fst (append_branch b v bs)).
Proof.
  induction bs as [|[k0 l] rest IH]; simpl; intros Hnd.
  - apply NoDup_singleton.
  - apply NoDup_cons in Hnd as [Hk0 Hnd].
    destruct (String.eqb_spec k0 b) as [->|Hne]; simpl.
    + by apply NoDup_cons.
    + apply NoDup_cons. split; [|by apply IH].
      rewrite append_branch_keys. intros [->|Hin]; [done|by apply Hk0].
Qed.

Section Index.

Variable py_str : pyval -> string.
Variable render : pyval -> string.

(** Does [execute] file the thought under branch [b]? *)
Definition on_branch (b : string) (v : ThoughtData) : bool :=
  match branches_off v with
  | Some b' => String.eqb b' b
  | None => false
  end.

Definition branch_of (b : string) (history : list ThoughtData)
  : list ThoughtData := List.filter (on_branch b) history.

(** [branches] is the index of [thought_history] by branch. *)
Definition indexed (self : tool) : Prop :=
  NoDup (map fst (branches self)) /\
  forall b,
    branch_get b (branches self) =
    match branch_of b (thought_history self) with
    | [] => None
    | l => Some l
    end.

(** The thought a call records, when it records one. *)
Definition recorded (arguments : pydict) : option ThoughtData :=
  match _validate_thought_data py_str arguments with
  | inr v => Some (adjust_total v)
  | inl _ => None
  end.

Lemma execute_state arguments self :
  snd (execute py_str render arguments self) =
  match recorded arguments with
  | Some v =>
      Tool (thought_history self ++ [v])
           (match branches_off v with
            | Some b => append_branch b v (branches self)
            | None => branches self
            end)
  | None => self
  end.
Proof.
  unfold execute, recorded.
  by destruct (_validate_thought_data py_str arguments).
Qed.

Lemma execute_indexed arguments self :
  indexed self -> indexed (snd (execute py_str render arguments self)).
Proof.
  intros [Hnd Hidx]. rewrite execute_state.
  destruct (recorded arguments) as [v|]; [|by split].
  split; simpl.
  - destruct (branches_off v); [by apply append_branch_NoDup|exact Hnd].
  - intros b'. unfold branch_of. rewrite List.filter_app.
    fold (branch_of b' (thought_history self)).
    cbn [List.filter]. unfold on_branch.
    destruct (branches_off v) as [b|] eqn:Hb.
    + rewrite append_branch_get, (Hidx b).
      destruct (String.eqb_spec b b') as [<-|Hne].
      * by destruct (branch_of b (thought_history self)).
      * rewrite app_nil_r. apply Hidx.
    + rewrite app_nil_r. apply Hidx.
Qed.

(** X21. After any sequence of calls on a new instance, [branches] is the
    index of the history by branch: its keys are distinct, and the entry of
    a branch id is the list, in order, of the recorded thoughts that name
    this id together with a branch point; an id no recorded thought
    branches to has no entry. *)
Theorem branches_index_the_history :
  forall (calls : list pydict),
    let self := execute_all py_str render calls init in
    NoDup (map fst (branches self)) /\
    (forall b,
        branch_get b (branches self) =
        match branch_of b (thought_history self) with
        | [] => None
        | l => Some l
        end) /\
    (forall b l,
        branch_get b (branches self) = Some l ->
        l <> [] /\
        Forall (fun v => branch_id v = Some b /\
                         branch_from_thought v <> None /\
                         v ∈ thought_history self) l).
Proof.
  intros calls self.
  assert (Hidx : indexed self).
  { subst self. unfold execute_all.
    assert (H0 : indexed init) by (split; [apply NoDup_nil_2|done]).
    revert H0. generalize init.
    induction calls as [|a calls IH]; intros s Hs; [exact Hs|].
    simpl. apply IH. by apply execute_indexed. }
  destruct Hidx as [Hnd Hget]. split; [exact Hnd|]. split; [exact Hget|].
  intros b l Hl. rewrite Hget in Hl.
  destruct (branch_of b (thought_history self)) as [|v0 l0] eqn:Hb;
    [discriminate|].
  inversion Hl; subst l. split; [discriminate|].
  rewrite <- Hb. apply Forall_forall. intros v Hv.
  apply list_elem_of_In, List.filter_In in Hv as [Hin Hon].
  unfold on_branch, branches_off in Hon.
  destruct (branch_from_thought v) as [z|]; [|discriminate].
  destruct (branch_id v) as [b0|]; [|discriminate].
  destruct (negb (z =? 0) && negb (String.eqb b0 EmptyString));
    [|discriminate].
  apply String.eqb_eq in Hon as ->.
  split; [reflexivity|]. split; [discriminate|]. by apply list_elem_of_In.
Qed.

(** X22. The history is the list of the thoughts of the accepted calls, in
    order: calls that fail validation leave no trace, so that running a
    sequence of calls is running its accepted calls alone. *)
Theorem rejected_calls_leave_no_trace :
  forall (calls : list pydict) (self : tool),
    thought_history (execute_all py_str render calls self) =
      thought_history self ++ omap recorded calls /\
    execute_all py_str render calls self =
      execute_all py_str render
        (List.filter (fun a => bool_decide (is_Some (recorded a))) calls) self.
Proof.
  intros calls. unfold execute_all.
  induction calls as [|a calls IH]; intros self.
  - simpl. by rewrite app_nil_r.
  - simpl. destruct (IH (snd (execute py_str render a self))) as [IH1 IH2].
    rewrite IH1, IH2, execute_state.
    destruct (recorded a) as [v|] eqn:Hr; simpl.
    + rewrite execute_state, Hr. by rewrite <- app_assoc.
    + done.
Qed.

Lemma optional_positive_ge key msg arguments z :
  optional_positive key msg arguments = inr (Some z) -> 1 <= z.
Proof.
  unfold optional_positive.
  destruct (dict_get key arguments) as [v|]; [|discriminate].
  destruct (negb (is_none v) && ne_zero v); [|discriminate].
  destruct (is_int v); simpl; [|discriminate].
  destruct (Z.ltb_spec (int_of v) 1) as [Hlt|Hge]; [discriminate|].
  intros Hz. inversion Hz. lia.
Qed.

(** X23. What validation lets through.  An accepted thought has
    [thought_number] and [total_thoughts] at least 1, and the thoughts it
    revises or branches from, when recorded, are numbered at least 1; a
    reference given as [None] or as 0 is recorded as absent.  Booleans pass
    for numbers: [True] as [thought_number] is recorded as 1, [False] is
    rejected. *)
Theorem validated_references :
  forall (arguments : pydict),
    (forall v,
        _validate_thought_data py_str arguments = inr v ->
        1 <= thought_number v /\ 1 <= total_thoughts v /\
        (forall z, revises_thought v = Some z -> 1 <= z) /\
        (forall z, branch_from_thought v = Some z -> 1 <= z) /\
        (forall x, dict_get "revises_thought" arguments = Some x ->
                   x = PNone \/ x = PInt 0 -> revises_thought v = None) /\
        (dict_get "thought_number" arguments = Some (PBool true) ->
         thought_number v = 1)) /\
    (dict_get "thought_number" arguments = Some (PBool false) ->
     exists e, _validate_thought_data py_str arguments = inl e).
Proof.
  intros arguments. unfold _validate_thought_data. split.
  - intros v.
    destruct (get_checked "thought" _ _ _) as [e|th]; [discriminate|].
    destruct (get_checked "thought_number" _ _ _) as [e|tn] eqn:Htn;
      [discriminate|].
    destruct (get_checked "total_thoughts" _ _ _) as [e|tt]; [discriminate|].
    destruct (get_checked "next_thought_needed" _ _ _) as [e|nd];
      [discriminate|].
    cbn [bind]. unfold require.
    destruct (Z.ltb_spec (int_of tn) 1) as [Hn|Hn]; [discriminate|].
    destruct (Z.ltb_spec (int_of tt) 1) as [Ht|Ht]; [discriminate|].
    cbn [negb bind].
    destruct (optional_positive "revises_thought" _ _) as [e|rv] eqn:Hrv;
      [discriminate|].
    destruct (optional_positive "branch_from_thought" _ _) as [e|bf] eqn:Hbf;
      [discriminate|].
    cbn [bind]. intros H. inversion H; subst. simpl.
    split; [lia|]. split; [lia|].
    split; [intros z ->; by eapply optional_positive_ge|].
    split; [intros z ->; by eapply optional_positive_ge|].
    split.
    + intros x Hx Hzero. unfold optional_positive in Hrv. rewrite Hx in Hrv.
      destruct Hzero as [->| ->]; simpl in Hrv; by inversion Hrv.
    + intros Hb. unfold get_checked in Htn. rewrite Hb in Htn.
      simpl in Htn. by inversion Htn.
  - intros Hb.
    destruct (get_checked "thought" _ _ _) as [e|th]; [by eexists|].
    unfold get_checked at 1. rewrite Hb. simpl.
    destruct (get_checked "total_thoughts" _ _ _) as [e|tt]; [by eexists|].
    destruct (get_checked "next_thought_needed" _ _ _) as [e|nd];
      [by eexists|].
    simpl. by eexists.
Qed.

End Index.

(** *** [_format_thought] *)

Section Format.

(** Text as the sequence of its characters, which is what [len] and
    [str.ljust] count.  [chars] gives the characters of the thought; the
    literal pieces of the header and the box are kept as they are. *)
Variable char : Type.
Variables space newline slash : char.
Variables horizontal vertical : char.
Variables top_left top_right mid_left mid_right bottom_left bottom_right : char.
Variable chars : string -> list char.
Variable show : Z -> list char.
Variables revision_prefix branch_prefix thought_prefix : list char.
Variable revision_context : option Z -> list char.
Variable branch_context : option Z -> option string -> list char.

(** [s.ljust(width)] *)
Definition ljust (width : nat) (s : list char) : list char :=
  s ++ replicate (width - length s) space.

Definition header (v : ThoughtData) : list char :=
  let '(prefix, context) :=
    if default false (is_revision v)
    then (revision_prefix, revision_context (revises_thought v))
    else if match branch_from_thought v with
            | Some z => negb (z =? 0)
            | None => false
            end
    then (branch_prefix, branch_context (branch_from_thought v) (branch_id v))
    else (thought_prefix, []) in
  prefix ++ [space] ++ show (thought_number v) ++ [slash] ++
  show (total_thoughts v) ++ context.

Definition border_length (v : ThoughtData) : nat :=
  (Nat.max (length (header v)) (length (chars (thought v))) + 4)%nat.

(** The five rows of the box. *)
Definition rows (v : ThoughtData) : list (list char) :=
  let border := replicate (border_length v) horizontal in
  [ [top_left] ++ border ++ [top_right];
    [vertical; space] ++ ljust (border_length v - 2) (header v) ++
      [space; vertical];
    [mid_left] ++ border ++ [mid_right];
    [vertical; space] ++ ljust (border_length v - 2) (chars (thought v)) ++
      [space; vertical];
    [bottom_left] ++ border ++ [bottom_right] ].

(** The returned text: every row on a new line. *)
Definition _format_thought (v : ThoughtData) : list char :=
  concat (map (fun row => newline :: row) (rows v)).

(** X30. The box drawn by [_format_thought] is rectangular: its five rows
    have the same number of characters, six more than the longer of the
    header and the thought, and both the header and the thought stand in
    their rows in full, followed by at least two spaces of padding before
    the closing bar. *)
Theorem format_thought_box_is_rectangular :
  forall (v : ThoughtData),
    let width := Nat.max (length (header v)) (length (chars (thought v))) in
    Forall (fun row => length row = (width + 6)%nat) (rows v) /\
    length (_format_thought v) = (5 * (width + 7))%nat /\
    (exists pad,
        rows v !! 1%nat =
          Some ([vertical; space] ++ header v ++ replicate pad space ++
                [space; vertical]) /\ (2 <= pad)%nat) /\
    (exists pad,
        rows v !! 3%nat =
          Some ([vertical; space] ++ chars (thought v) ++
                replicate pad space ++ [space; vertical]) /\ (2 <= pad)%nat).
Proof.
  intros v width.
  assert (Hrows : Forall (fun row => length row = (width + 6)%nat) (rows v)).
  { unfold rows, ljust, border_length. fold width.
    repeat apply Forall_cons_2; [..|apply Forall_nil_2];
      rewrite ?length_app, ?length_replicate; simpl;
      rewrite ?length_app, ?length_replicate; simpl; lia. }
  split; [exact Hrows|]. split; [|split].
  - unfold _format_thought.
    assert (Hlen : forall rs : list (list char),
               Forall (fun row => length row = (width + 6)%nat) rs ->
               length (concat (map (fun row => newline :: row) rs)) =
               (length rs * (width + 7))%nat).
    { induction 1 as [|row rs Hrow _ IH]; [reflexivity|].
      simpl. rewrite length_app, IH, Hrow. lia. }
    by rewrite (Hlen _ Hrows).
  - exists (border_length v - 2 - length (header v))%nat.
    split; [|unfold border_length; lia].
    unfold rows, ljust. simpl. by rewrite <- !app_assoc.
  - exists (border_length v - 2 - length (chars (thought v)))%nat.
    split; [|unfold border_length; lia].
    unfold rows, ljust. simpl. by rewrite <- !app_assoc.
Qed.

End Format.

Lemma branches_index_the_history_witness :
  branch_get "edge"
    (branches (execute_all demo_str demo_render
                 [call_over_estimate; call_zero] init)) =
    Some [recorded_over_estimate] /\
  Forall (fun v => branch_id v = Some "edge" /\
                   branch_from_thought v <> None /\
                   v ∈ thought_history
                         (execute_all demo_str demo_render
                            [call_over_estimate; call_zero] init))
         [recorded_over_estimate].
Proof.
  destruct (branches_index_the_history demo_str demo_render
              [call_over_estimate; call_zero]) as (_ & Hget & Hall).
  split; [rewrite Hget; reflexivity|].
  apply (Hall "edge" [recorded_over_estimate]). reflexivity.
Defined.

Lemma validated_references_witness :
  (forall z, branch_from_thought validated_over_estimate = Some z -> 1 <= z) /\
  exists e,
    _validate_thought_data demo_str
      [("thought", PStr "start"); ("thought_number", PBool false)] = inl e.
Proof.
  destruct (validated_references demo_str call_over_estimate) as [Hok _].
  destruct (validated_references demo_str
              [("thought", PStr "start"); ("thought_number", PBool false)])
    as [_ Hbad].
  destruct (Hok validated_over_estimate eq_refl) as (_ & _ & _ & Hb & _).
  split; [exact Hb|]. apply Hbad. reflexivity.
Defined.

End Thinking.

(** ** The file tools: [ReadFileTool.execute] and [SaveFileTool.execute] *)

Module Files.
Import Py.

Definition newline : ascii := Ascii.ascii_of_nat 10.
Definition carriage_return : ascii := Ascii.ascii_of_nat 13.
Definition nl : string := String newline EmptyString.

(** Text is a sequence of characters, one [ascii] per character.  Reading a
    file opened in text mode turns the line ends [\r\n] and [\r] into
    [\n]; writing leaves the text as it is (a platform whose line separator
    is [\n]). *)
Fixpoint universal_newlines (raw : string) : string :=
  match raw with
  | EmptyString => EmptyString
  | String c rest =>
      if Ascii.eqb c carriage_return then
        String newline
          match rest with
          | String c' rest' =>
              if Ascii.eqb c' newline then universal_newlines rest'
              else universal_newlines rest
          | EmptyString => EmptyString
          end
      else String c (universal_newlines rest)
  end.

(** [f.readlines()] on text: the lines, each with its line end. *)
Fixpoint readlines (content : string) : list string :=
  match content with
  | EmptyString => []
  | String c rest =>
      if Ascii.eqb c newline then String c EmptyString :: readlines rest
      else
        match readlines rest with
        | [] => [String c EmptyString]
        | line :: lines => String c line :: lines
        end
  end.

(** [str.join] with the empty string as separator. *)
Definition join (lines : list string) : string :=
  fold_right String.append EmptyString lines.

(** [content.count('\n')] *)
Fixpoint count_newlines (content : string) : nat :=
  match content with
  | EmptyString => 0
  | String c rest =>
      ((if Ascii.eqb c newline then 1 else 0) + count_newlines rest)%nat
  end.

Fixpoint ends_with_newline (content : string) : bool :=
  match content with
  | EmptyString => false
  | String c EmptyString => Ascii.eqb c newline
  | String _ rest => ends_with_newline rest
  end.

(** [lines[start_idx:end_idx]] for [0 <= start_idx <= end_idx]. *)
Definition slice {A} (start_idx end_idx : Z) (lines : list A) : list A :=
  take (Z.to_nat (end_idx - start_idx)) (drop (Z.to_nat start_idx) lines).

(** The file system: the regular files with their stored text, and the
    directories. *)
Record fs : Type := Fs {
  files : gmap string string;
  dirs : gset string
}.

(** What [ReadFileTool.execute] selected. *)
Inductive selection : Type :=
| Range (start_idx end_idx : Z) (selected_lines : list string)
| WholeFile (line_count : Z) (content : string)
| EmptyRange.

Inductive read_result : Type :=
| Answer (filename : string) (s : selection)
| NoName
| Missing (filename : string).

Definition ok (text : string) : Thinking.ToolExecResult :=
  Thinking.MkToolExecResult (Some text) None 0.

Definition failed (text : string) : Thinking.ToolExecResult :=
  Thinking.MkToolExecResult None (Some text) (-1).

Section Tools.

(** [str(v)] of a value that is not a string, [int(v)] of a value that is
    not an integer, and [str(n)]. *)
Variable py_str : pyval -> string.
Variable int_other : pyval -> result Z.
Variable show : Z -> string.

(** [os.path.dirname], the directories [os.makedirs(d, exist_ok=True)]
    creates, and the ways the operating system refuses. *)
Variable dirname : string -> string.
Variable created_by_makedirs : string -> list string.
Variable makedirs_refused : string -> option exn.
Variable open_refused : string -> string -> option exn.
(** [f.write] failing on a file that [open] has already created or
    truncated, and what is then left of the file system. *)
Variable write_fails : string -> string -> option exn.
Variable after_failed_write : fs -> string -> string -> fs.

Definition str_of (v : pyval) : string :=
  match v with PStr s => s | _ => py_str v end.

(** [str(arguments.get(key, default))] *)
Definition arg_str (key default : string) (arguments : pydict) : string :=
  match dict_get key arguments with
  | Some v => str_of v
  | None => default
  end.

(** [arguments.get(key)], with [None] for a missing key. *)
Definition arg (key : string) (arguments : pydict) : option pyval :=
  match dict_get key arguments with
  | Some PNone => None
  | o => o
  end.

Definition py_int (v : pyval) : result Z :=
  match v with
  | PInt z => ret z
  | PBool b => ret (if b then 1 else 0)
  | _ => int_other v
  end.

(** [os.path.exists] *)
Definition path_exists (st : fs) (p : string) : bool :=
  bool_decide (is_Some (files st !! p)) || bool_decide (p ∈ dirs st).

(** [open(p, "r", encoding="utf-8")] and reading all of it. *)
Definition open_read (st : fs) (p : string) : result string :=
  match open_refused p "r" with
  | Some e => raise e
  | None =>
      match files st !! p with
      | Some raw => ret (universal_newlines raw)
      | None =>
          if bool_decide (p ∈ dirs st)
          then raise (Exn "IsADirectoryError" ("Is a directory: " +:+ p) true)
          else raise (FileNotFoundError ("No such file or directory: " +:+ p))
      end
  end.

(** The body of the [with] block of [ReadFileTool.execute]. *)
Definition select (start_line end_line : option pyval) (content : string)
  : result selection :=
  match start_line, end_line with
  | None, None =>
      ret (WholeFile
             (match content with
              | EmptyString => 0
              | _ => Z.of_nat (count_newlines content) + 1
              end)
             content)
  | _, _ =>
      let lines := readlines content in
      let total_lines := Z.of_nat (length lines) in
      bind (match start_line with
            | Some v => bind (py_int v) (fun z => ret (z - 1))
            | None => ret 0
            end) (fun start_idx =>
      bind (match end_line with
            | Some v => py_int v
            | None => ret total_lines
            end) (fun end_idx =>
      let start_idx := if start_idx <? 0 then 0 else start_idx in
      let end_idx := if total_lines <? end_idx then total_lines else end_idx in
      if end_idx <=? start_idx then ret EmptyRange
      else ret (Range start_idx end_idx (slice start_idx end_idx lines))))
  end.

(** The [try] block of [ReadFileTool.execute], before the result is put
    into words. *)
Definition read_file (arguments : pydict) (st : fs) : result read_result :=
  let filename := arg_str "filename" EmptyString arguments in
  if String.eqb filename EmptyString then ret NoName
  else if negb (path_exists st filename) then ret (Missing filename)
  else
    bind (open_read st filename) (fun content =>
    bind (select (arg "start_line" arguments) (arg "end_line" arguments)
            content) (fun s =>
    ret (Answer filename s))).

Definition report_read (r : read_result) : Thinking.ToolExecResult :=
  match r with
  | NoName => failed "文件名是必需的"
  | Missing filename => failed ("文件不存在: " +:+ filename)
  | Answer _ EmptyRange => failed "开始行号必须小于结束行号"
  | Answer filename (Range start_idx end_idx selected_lines) =>
      let content := join selected_lines in
      ok ("成功读取 '" +:+ filename +:+ "' 第 " +:+ show (start_idx + 1) +:+
          "-" +:+ show end_idx +:+ " 行 （" +:+
          show (Z.of_nat (length selected_lines)) +:+ " 行，" +:+
          show (Z.of_nat (String.length content)) +:+ " 个字符）" +:+
          nl +:+ nl +:+ content)
  | Answer filename (WholeFile line_count content) =>
      ok ("成功读取 '" +:+ filename +:+ "' （" +:+ show line_count +:+
          " 行，" +:+ show (Z.of_nat (String.length content)) +:+
          " 个字符）" +:+ nl +:+ nl +:+ content)
  end.

(** The [except] clauses; an exception that is not an [Exception] leaves
    [execute]. *)
Definition read_handlers (e : exn) : result Thinking.ToolExecResult :=
  if String.eqb (exn_class e) "FileNotFoundError"
  then ret (failed ("文件未找到: " +:+ exn_str e))
  else if String.eqb (exn_class e) "PermissionError"
  then ret (failed ("权限被拒绝: " +:+ exn_str e))
  else if String.eqb (exn_class e) "UnicodeDecodeError"
  then ret (failed ("文件编码错误，无法读取: " +:+ exn_str e))
  else if exn_is_Exception e
  then ret (failed ("读取文件时出错: " +:+ exn_str e))
  else raise e.

Definition read_file_execute (arguments : pydict) (st : fs)
  : result Thinking.ToolExecResult :=
  match read_file arguments st with
  | inr r => ret (report_read r)
  | inl e => read_handlers e
  end.

(** [SaveFileTool.execute] *)
Definition save_handlers (e : exn) : result Thinking.ToolExecResult :=
  if String.eqb (exn_class e) "FileNotFoundError"
  then ret (failed ("文件未找到: " +:+ exn_str e))
  else if String.eqb (exn_class e) "PermissionError"
  then ret (failed ("权限被拒绝: " +:+ exn_str e))
  else if exn_is_Exception e
  then ret (failed ("保存文件时出错: " +:+ exn_str e))
  else raise e.

(** [os.makedirs(directory, exist_ok=True)] when the directory is named and
    missing. *)
Definition ensure_directory (directory : string) (st : fs) : result fs :=
  if negb (String.eqb directory EmptyString) && negb (path_exists st directory)
  then
    match makedirs_refused directory with
    | Some e => raise e
    | None =>
        ret (Fs (files st)
                (dirs st ∪ list_to_set (created_by_makedirs directory)))
    end
  else ret st.

(** [with open(filename, mode, encoding="utf-8") as f: f.write(content)] *)
Definition write_text (filename mode content : string) (st : fs)
  : result unit * fs :=
  match open_refused filename mode with
  | Some e => (raise e, st)
  | None =>
      match write_fails filename content with
      | Some e => (raise e, after_failed_write st filename mode)
      | None =>
          let before :=
            if String.eqb mode "a"
            then default EmptyString (files st !! filename)
            else EmptyString in
          (ret tt, Fs (<[filename := before +:+ content]> (files st)) (dirs st))
      end
  end.

Definition save_file_execute (arguments : pydict) (st : fs)
  : result Thinking.ToolExecResult * fs :=
  let filename := arg_str "filename" EmptyString arguments in
  let content := arg_str "content" EmptyString arguments in
  let mode := arg_str "mode" "w" arguments in
  if String.eqb filename EmptyString
  then (ret (failed "文件名是必需的"), st)
  else if negb (String.eqb mode "a" || String.eqb mode "w")
  then (ret (failed "模式必须是 'a'（追加）或 'w'（覆盖）"), st)
  else
    match ensure_directory (dirname filename) st with
    | inl e => (save_handlers e, st)
    | inr st1 =>
        match write_text filename mode content st1 with
        | (inl e, st2) => (save_handlers e, st2)
        | (inr _, st2) =>
            let action := if String.eqb mode "a" then "追加到" else "写入到" in
            (ret (ok ("内容成功" +:+ action +:+ " '" +:+ filename +:+ "' （" +:+
                      show (Z.of_nat (String.length content)) +:+
                      " 个字符）")),
             st2)
        end
    end.

(** *** Lines *)

Lemma readlines_nil content : readlines content = [] -> content = EmptyString.
Proof.
  destruct content as [|c rest]; [done|]. simpl.
  destruct (Ascii.eqb c newline); [discriminate|].
  by destruct (readlines rest).
Qed.

Lemma join_readlines content : join (readlines content) = content.
Proof.
  induction content as [|c rest IH]; [reflexivity|]. simpl.
  destruct (Ascii.eqb c newline).
  - simpl. by rewrite IH.
  - destruct (readlines rest) as [|line lines] eqn:Hr.
    + by rewrite (readlines_nil rest Hr).
    + simpl in IH. by rewrite <- IH.
Qed.

Lemma length_readlines content :
  length (readlines content) =
  (count_newlines content +
   match content with
   | EmptyString => 0
   | _ => if ends_with_newline content then 0 else 1
   end)%nat.
Proof.
  induction content as [|c rest IH]; [reflexivity|].
  cbn [readlines count_newlines ends_with_newline].
  destruct (Ascii.eqb c newline) eqn:Hc.
  - cbn [length]. rewrite IH. destruct rest; simpl; lia.
  - destruct (readlines rest) as [|line lines] eqn:Hr.
    + by rewrite (readlines_nil rest Hr).
    + cbn [length] in *. rewrite IH. destruct rest; [discriminate Hr|].
      simpl. lia.
Qed.

Lemma slice_spec {A} (a b : Z) (lines : list A) :
  0 <= a -> a < b -> b <= Z.of_nat (length lines) ->
  Z.of_nat (length (slice a b lines)) = b - a /\
  forall i, (i < length (slice a b lines))%nat ->
            slice a b lines !! i = lines !! (Z.to_nat a + i)%nat.
Proof.
  intros Ha Hab Hb. unfold slice.
  assert (Hlen : length (take (Z.to_nat (b - a)) (drop (Z.to_nat a) lines)) =
                 Z.to_nat (b - a)).
  { rewrite length_take, length_drop. lia. }
  split; [rewrite Hlen; lia|].
  intros i Hi. rewrite Hlen in Hi.
  rewrite lookup_take_lt by exact Hi. by rewrite lookup_drop.
Qed.

(** The indexes after clamping. *)
Definition clamp_low (start_idx : Z) : Z := if start_idx <? 0 then 0 else start_idx.
Definition clamp_high (total end_idx : Z) : Z :=
  if total <? end_idx then total else end_idx.

Lemma select_range start_line end_line content a b sel :
  select start_line end_line content = ret (Range a b sel) ->
  exists s e,
    match start_line with
    | Some v => bind (py_int v) (fun z => ret (z - 1))
    | None => ret 0
    end = ret s /\
    match end_line with
    | Some v => py_int v
    | None => ret (Z.of_nat (length (readlines content)))
    end = ret e /\
    a = clamp_low s /\
    b = clamp_high (Z.of_nat (length (readlines content))) e /\
    a < b /\
    sel = slice a b (readlines content).
Proof.
  unfold select.
  assert (Hcore :
    bind (match start_line with
          | Some v => bind (py_int v) (fun z => ret (z - 1))
          | None => ret 0
          end) (fun start_idx =>
    bind (match end_line with
          | Some v => py_int v
          | None => ret (Z.of_nat (length (readlines content)))
          end) (fun end_idx =>
    let start_idx := if start_idx <? 0 then 0 else start_idx in
    let end_idx :=
      if Z.of_nat (length (readlines content)) <? end_idx
      then Z.of_nat (length (readlines content)) else end_idx in
    if end_idx <=? start_idx then ret EmptyRange
    else ret (Range start_idx end_idx
                (slice start_idx end_idx (readlines content))))) =
    ret (Range a b sel) ->
    exists s e,
      match start_line with
      | Some v => bind (py_int v) (fun z => ret (z - 1))
      | None => ret 0
      end = ret s /\
      match end_line with
      | Some v => py_int v
      | None => ret (Z.of_nat (length (readlines content)))
      end = ret e /\
      a = clamp_low s /\
      b = clamp_high (Z.of_nat (length (readlines content))) e /\
      a < b /\
      sel = slice a b (readlines content)).
  { destruct (match start_line with Some _ => _ | None => _ end) as [x|s];
      [discriminate|].
    destruct (match end_line with Some _ => _ | None => _ end) as [x|e];
      [discriminate|].
    cbn [bind]. fold (clamp_low s).
    fold (clamp_high (Z.of_nat (length (readlines content))) e).
    destruct (Z.leb_spec
                (clamp_high (Z.of_nat (length (readlines content))) e)
                (clamp_low s)) as [Hle|Hlt]; [discriminate|].
    intros H. inversion H; subst. by exists s, e. }
  destruct start_line as [v1|], end_line as [v2|]; try exact Hcore.
  discriminate.
Qed.

(** X24. A ranged read returns the requested lines.  When
    [ReadFileTool.execute] selects a range, the indexes it reports satisfy
    [0 <= start_idx < end_idx <= total_lines], the selected lines are
    exactly the lines [start_idx + 1] to [end_idx] of the file, and the
    indexes are the requested ones cut to the file: a start below 1 reads
    from the first line, an end beyond the file reads to its last line. *)
Theorem ranged_read_returns_the_requested_lines :
  forall (start_line end_line : option pyval) (content : string)
         (a b : Z) (sel : list string),
    select start_line end_line content = ret (Range a b sel) ->
    let lines := readlines content in
    let total := Z.of_nat (length lines) in
    0 <= a /\ a < b /\ b <= total /\
    Z.of_nat (length sel) = b - a /\
    (forall i, (i < length sel)%nat ->
               sel !! i = lines !! (Z.to_nat a + i)%nat) /\
    (forall z, start_line = Some (PInt z) -> a = Z.max 0 (z - 1)) /\
    (start_line = None -> a = 0) /\
    (forall z, end_line = Some (PInt z) -> b = Z.min z total) /\
    (end_line = None -> b = total).
Proof.
  intros start_line end_line content a b sel H lines total.
  destruct (select_range _ _ _ _ _ _ H) as (s & e & Hs & He & Ha & Hb & Hab & Hsel).
  fold lines in He, Hb, Hsel. fold total in He, Hb.
  assert (Ha0 : 0 <= a).
  { rewrite Ha. unfold clamp_low. destruct (Z.ltb_spec s 0); lia. }
  assert (Hbt : b <= total).
  { rewrite Hb. unfold clamp_high. destruct (Z.ltb_spec total e); lia. }
  destruct (slice_spec a b lines Ha0 Hab Hbt) as [Hlen Hlook].
  rewrite <- Hsel in Hlen, Hlook.
  split; [exact Ha0|]. split; [exact Hab|]. split; [exact Hbt|].
  split; [exact Hlen|]. split; [exact Hlook|].
  split; [|split; [|split]].
  - intros z ->. simpl in Hs. inversion Hs; subst s. rewrite Ha.
    unfold clamp_low. destruct (Z.ltb_spec (z - 1) 0); lia.
  - intros ->. inversion Hs; subst s. by rewrite Ha.
  - intros z ->. simpl in He. inversion He; subst e. rewrite Hb.
    unfold clamp_high. destruct (Z.ltb_spec total z); lia.
  - intros ->. inversion He; subst e. rewrite Hb.
    unfold clamp_high. destruct (Z.ltb_spec total total); lia.
Qed.

(** X25. Ranged and whole reads of the same text.  The lines of a text,
    joined, are the text; so a range that covers a non-empty file (a start
    of at most 1 or none, an end of at least the number of lines or none)
    selects text equal to what a whole read returns.  An empty file has no
    range that can be read.  A whole read reports one line more than a
    ranged read can address exactly when the text ends with a line end. *)
Theorem ranged_and_whole_reads_agree :
  forall (content : string),
    let lines := readlines content in
    let total := Z.of_nat (length lines) in
    join lines = content /\
    (forall start_line end_line,
        content <> EmptyString ->
        (start_line = None \/ exists z, start_line = Some (PInt z) /\ z <= 1) ->
        (end_line = None \/ exists z, end_line = Some (PInt z) /\ total <= z) ->
        (start_line <> None \/ end_line <> None) ->
        exists sel,
          select start_line end_line content = ret (Range 0 total sel) /\
          join sel = content) /\
    (forall start_line end_line sel a b,
        content = EmptyString ->
        select start_line end_line content <> ret (Range a b sel)) /\
    (forall n text,
        content <> EmptyString ->
        select None None content = ret (WholeFile n text) ->
        text = content /\
        n = total + (if ends_with_newline content then 1 else 0)).
Proof.
  intros content lines total.
  split; [apply join_readlines|]. split; [|split].
  - intros start_line end_line Hne Hs He Hsome.
    assert (Hpos : 0 < total).
    { subst total lines. destruct (readlines content) eqn:Hr; [|simpl; lia].
      by apply readlines_nil in Hr. }
    exists lines. split; [|apply join_readlines].
    assert (Hslice : slice 0 total lines = lines).
    { unfold slice. subst total. rewrite Z.sub_0_r, Nat2Z.id. simpl.
      apply take_ge. lia. }
    assert (Ha : forall z, z <= 1 -> (if z - 1 <? 0 then 0 else z - 1) = 0)
      by (intros z Hz; destruct (Z.ltb_spec (z - 1) 0); lia).
    assert (Hb : forall z, total <= z ->
                           (if total <? z then total else z) = total)
      by (intros z Hz; destruct (Z.ltb_spec total z); lia).
    assert (Hc : (total <=? 0) = false) by (apply Z.leb_gt; lia).
    unfold select. fold lines. fold total.
    destruct Hs as [->|(z1 & -> & Hz1)]; destruct He as [->|(z2 & -> & Hz2)].
    + by destruct Hsome.
    + cbn [bind ret py_int]. rewrite (Hb z2 Hz2).
      change (if 0 <? 0 then 0 else 0) with 0. by rewrite Hc, Hslice.
    + cbn [bind ret py_int]. rewrite (Ha z1 Hz1), Z.ltb_irrefl.
      by rewrite Hc, Hslice.
    + cbn [bind ret py_int]. rewrite (Ha z1 Hz1), (Hb z2 Hz2).
      by rewrite Hc, Hslice.
  - intros start_line end_line sel a b -> H.
    destruct (select_range _ _ _ _ _ _ H) as (s & e & _ & _ & Ha & Hb & Hab & _).
    subst a b. revert Hab. unfold clamp_low, clamp_high. simpl.
    change (Z.of_nat 0) with 0.
    destruct (Z.ltb_spec s 0), (Z.ltb_spec 0 e); lia.
  - intros n text Hne H. unfold select in H. inversion H as [[Hn Ht]].
    split; [reflexivity|]. subst total lines. rewrite length_readlines.
    destruct content as [|c0 rest]; [done|].
    rewrite <- Ht. cbv iota.
    destruct (ends_with_newline (String c0 rest)); lia.
Qed.

(** *** Results *)

(** A result is an answer, or a failure with code -1, never both. *)
Definition well_shaped (r : Thinking.ToolExecResult) : Prop :=
  (Thinking.output r <> None /\ Thinking.error r = None /\
   Thinking.error_code r = 0) \/
  (Thinking.output r = None /\ Thinking.error r <> None /\
   Thinking.error_code r = -1).

Lemma read_handlers_shape e :
  (forall r, read_handlers e = ret r -> well_shaped r) /\
  (forall e', read_handlers e = inl e' -> exn_is_Exception e' = false).
Proof.
  unfold read_handlers.
  destruct (String.eqb (exn_class e) "FileNotFoundError");
    [|destruct (String.eqb (exn_class e) "PermissionError");
      [|destruct (String.eqb (exn_class e) "UnicodeDecodeError");
        [|destruct (exn_is_Exception e) eqn:Hx]]].
  all: split; [intros r H; inversion H; by right|intros e' H; inversion H].
  by subst.
Qed.

Lemma save_handlers_shape e :
  (forall r, save_handlers e = ret r -> well_shaped r) /\
  (forall e', save_handlers e = inl e' -> exn_is_Exception e' = false).
Proof.
  unfold save_handlers.
  destruct (String.eqb (exn_class e) "FileNotFoundError");
    [|destruct (String.eqb (exn_class e) "PermissionError");
      [|destruct (exn_is_Exception e) eqn:Hx]].
  all: split; [intros r H; inversion H; by right|intros e' H; inversion H].
  by subst.
Qed.

Lemma save_handlers_error e r :
  save_handlers e = ret r -> Thinking.error r <> None.
Proof.
  unfold save_handlers.
  destruct (String.eqb (exn_class e) "FileNotFoundError");
    [|destruct (String.eqb (exn_class e) "PermissionError");
      [|destruct (exn_is_Exception e)]];
    intros H; inversion H; done.
Qed.

(** X26. Both file tools answer or fail, never both and never neither: a
    returned result has an output, no error and code 0, or an error, no
    output and code -1; and the only exceptions that leave [execute] are
    those that are not instances of [Exception]. *)
Theorem file_tools_answer_or_fail :
  forall (arguments : pydict) (st : fs),
    (forall r, read_file_execute arguments st = ret r -> well_shaped r) /\
    (forall e, read_file_execute arguments st = inl e ->
               exn_is_Exception e = false) /\
    (forall r, fst (save_file_execute arguments st) = ret r -> well_shaped r) /\
    (forall e, fst (save_file_execute arguments st) = inl e ->
               exn_is_Exception e = false).
Proof.
  intros arguments st.
  assert (Hread : forall r, well_shaped (report_read r)).
  { intros [f [a b sel|n c|]| |f]; simpl;
      first [by left; repeat split | by right; repeat split]. }
  split; [|split; [|split]].
  - intros r. unfold read_file_execute.
    destruct (read_file arguments st) as [e|rr].
    + apply read_handlers_shape.
    + intros H. inversion H. apply Hread.
  - intros e. unfold read_file_execute.
    destruct (read_file arguments st) as [e0|rr]; [|discriminate].
    apply read_handlers_shape.
  - intros r. unfold save_file_execute.
    destruct (String.eqb _ EmptyString); [intros H; inversion H; by right|].
    destruct (negb _); [intros H; inversion H; by right|].
    destruct (ensure_directory _ st) as [e|st1]; [apply save_handlers_shape|].
    destruct (write_text _ _ _ st1) as [[e|u] st2];
      [apply save_handlers_shape|].
    intros H. inversion H. by left.
  - intros e. unfold save_file_execute.
    destruct (String.eqb _ EmptyString); [discriminate|].
    destruct (negb _); [discriminate|].
    destruct (ensure_directory _ st) as [e0|st1]; [apply save_handlers_shape|].
    destruct (write_text _ _ _ st1) as [[e0|u] st2];
      [apply save_handlers_shape|discriminate].
Qed.

(** *** Saving, then reading *)

Lemma universal_newlines_plain (text : string) :
  ConfigFile.mentions carriage_return text = false ->
  universal_newlines text = text.
Proof.
  induction text as [|c rest IH]; [reflexivity|].
  cbn [ConfigFile.mentions universal_newlines]. intros H.
  apply orb_false_elim in H as [Hc Hrest].
  rewrite (Ascii.eqb_sym c carriage_return), Hc. by rewrite IH.
Qed.

Lemma ensure_directory_files directory st st1 :
  ensure_directory directory st = ret st1 ->
  files st1 = files st /\ dirs st ⊆ dirs st1.
Proof.
  unfold ensure_directory.
  destruct (negb _ && negb _).
  - destruct (makedirs_refused directory); [discriminate|].
    intros H. inversion H. simpl. split; [reflexivity|set_solver].
  - intros H. inversion H. by split.
Qed.

(** What a successful save stores under the name. *)
Definition stored (arguments : pydict) (st : fs) : string :=
  (if String.eqb (arg_str "mode" "w" arguments) "a"
   then default EmptyString
          (files st !! arg_str "filename" EmptyString arguments)
   else EmptyString) +:+
  arg_str "content" EmptyString arguments.

(** X27. What was saved is read back.  After a save that reported success,
    the file holds the content, after what it held before in mode [a], in
    place of it in mode [w]; and a whole read of that file, when opening it
    is not refused, returns this text with its line ends normalised, which
    is the text itself when it has no carriage return. *)
Theorem saved_text_is_read_back :
  forall (arguments : pydict) (st : fs) (r : Thinking.ToolExecResult),
    let filename := arg_str "filename" EmptyString arguments in
    let st' := snd (save_file_execute arguments st) in
    fst (save_file_execute arguments st) = ret r ->
    Thinking.error r = None ->
    open_refused filename "r" = None ->
    files st' !! filename = Some (stored arguments st) /\
    (exists n,
        read_file [("filename", PStr filename)] st' =
        ret (Answer filename
               (WholeFile n (universal_newlines (stored arguments st))))) /\
    (ConfigFile.mentions carriage_return (stored arguments st) = false ->
     exists n,
       read_file [("filename", PStr filename)] st' =
       ret (Answer filename (WholeFile n (stored arguments st)))).
Proof.
  intros arguments st r filename st' Hsave Herr Hopen.
  assert (Hst : filename <> EmptyString /\
                files st' !! filename = Some (stored arguments st)).
  { subst st'. revert Hsave. unfold save_file_execute. fold filename.
    destruct (String.eqb_spec filename EmptyString) as [Hf|Hf];
      [intros H; inversion H; subst; by simpl in Herr|].
    destruct (negb _);
      [intros H; inversion H; subst; by simpl in Herr|].
    destruct (ensure_directory _ st) as [e|st1] eqn:Hdir.
    { cbn [fst]. intros H. by destruct (save_handlers_error _ _ H). }
    destruct (ensure_directory_files _ _ _ Hdir) as [Hfiles _].
    unfold write_text.
    destruct (open_refused filename (arg_str "mode" "w" arguments)) as [e|].
    { cbn [fst]. intros H. by destruct (save_handlers_error _ _ H). }
    destruct (write_fails filename (arg_str "content" EmptyString arguments))
      as [e|].
    { cbn [fst]. intros H. by destruct (save_handlers_error _ _ H). }
    simpl. intros _. split; [exact Hf|].
    rewrite lookup_insert_eq, Hfiles. reflexivity. }
  destruct Hst as [Hname Hfile]. split; [exact Hfile|].
  assert (Hread : read_file [("filename", PStr filename)] st' =
                  ret (Answer filename
                         (WholeFile
                            match universal_newlines (stored arguments st) with
                            | EmptyString => 0
                            | _ => Z.of_nat (count_newlines
                                     (universal_newlines (stored arguments st))) + 1
                            end
                            (universal_newlines (stored arguments st))))).
  { unfold read_file. cbn [arg_str arg dict_get String.eqb Ascii.eqb Bool.eqb str_of].
    destruct (String.eqb_spec filename EmptyString) as [Hf|_]; [done|].
    unfold path_exists, open_read. rewrite Hfile, Hopen.
    rewrite bool_decide_eq_true_2 by (by eexists). reflexivity. }
  split; [by eexists|].
  intros Hplain. rewrite (universal_newlines_plain _ Hplain) in Hread.
  by eexists.
Qed.


End Tools.

(** *** A small file system *)

Definition demo_str (v : pyval) : string := "<object>".
Definition no_int (v : pyval) : result Z :=
  raise (ValueError "invalid literal for int()").
Definition demo_show (n : Z) : string := "n".
Definition parent (p : string) : string := "/book".
Definition allowed (p mode : string) : option exn := None.

Definition chapter : string := "one" +:+ nl +:+ "two" +:+ nl +:+ "three".

Definition library : fs :=
  Fs {[ "/book/notes.txt" := "draft" ]} {[ "/book" ]}.

Definition save_chapter : pydict :=
  [("filename", PStr "/book/ch1.txt"); ("content", PStr chapter)].

Definition demo_save : result Thinking.ToolExecResult * fs :=
  save_file_execute demo_str demo_show parent (fun d => [d]) (fun _ => None)
    allowed allowed (fun st _ _ => st) save_chapter library.

Definition demo_saved : Thinking.ToolExecResult :=
  match fst demo_save with
  | inr r => r
  | inl _ => failed EmptyString
  end.

Example read_two_lines :
  select no_int (Some (PInt 0)) (Some (PInt 2)) chapter =
  ret (Range 0 2 ["one" +:+ nl; "two" +:+ nl]).
Proof. reflexivity. Qed.

Lemma ranged_read_returns_the_requested_lines_witness :
  Z.of_nat (length ["one" +:+ nl; "two" +:+ nl]) = 2 - 0 /\
  0 = Z.max 0 (0 - 1).
Proof.
  destruct (ranged_read_returns_the_requested_lines no_int (Some (PInt 0))
              (Some (PInt 2)) chapter 0 2 ["one" +:+ nl; "two" +:+ nl]
              eq_refl) as (_ & _ & _ & Hlen & _ & Ha & _).
  split; [exact Hlen|]. exact (Ha 0 eq_refl).
Defined.

Lemma ranged_and_whole_reads_agree_witness :
  exists sel,
    select no_int (Some (PInt 1)) None chapter = ret (Range 0 3 sel) /\
    join sel = chapter.
Proof.
  destruct (ranged_and_whole_reads_agree no_int chapter) as (_ & H & _).
  apply (H (Some (PInt 1)) None).
  - discriminate.
  - right. exists 1. split; [reflexivity|lia].
  - by left.
  - left. discriminate.
Defined.

Lemma file_tools_answer_or_fail_witness :
  well_shaped (failed "文件名是必需的") /\ well_shaped demo_saved.
Proof.
  destruct (file_tools_answer_or_fail demo_str no_int demo_show parent
              (fun d => [d]) (fun _ => None) allowed allowed
              (fun st _ _ => st) [] library) as (Hr & _).
  destruct (file_tools_answer_or_fail demo_str no_int demo_show parent
              (fun d => [d]) (fun _ => None) allowed allowed
              (fun st _ _ => st) save_chapter library) as (_ & _ & Hs & _).
  split; [apply Hr; reflexivity | apply Hs; reflexivity].
Defined.

Lemma saved_text_is_read_back_witness :
  files (snd demo_save) !! "/book/ch1.txt" = Some chapter /\
  exists n,
    read_file demo_str no_int allowed [("filename", PStr "/book/ch1.txt")]
      (snd demo_save) =
    ret (Answer "/book/ch1.txt" (WholeFile n chapter)).
Proof.
  destruct (saved_text_is_read_back demo_str no_int demo_show parent
              (fun d => [d]) (fun _ => None) allowed allowed
              (fun st _ _ => st) save_chapter library demo_saved
              eq_refl eq_refl eq_refl) as (Hf & _ & Hread).
  split; [exact Hf|]. apply Hread. reflexivity.
Defined.


End Files.

(** ** Lakeview: [extract_tag_in_step] and [get_label] *)

Module Lakeview.
Import Py.

Definition KNOWN_TAGS : list (string * string) :=
  [("WRITE_TEST", "☑️"); ("VERIFY_TEST", "✅"); ("EXAMINE_CODE", "👁️");
   ("WRITE_FIX", "📝"); ("VERIFY_FIX", "🔥"); ("REPORT", "📣");
   ("THINK", "🧠"); ("OUTLIER", "⁉️")].

(** [KNOWN_TAGS[tag]], which raises [KeyError] on a missing key. *)
Fixpoint lookup (tag : string) (d : list (string * string)) : option string :=
  match d with
  | [] => None
  | (k, v) :: rest => if String.eqb k tag then Some v else lookup tag rest
  end.

(** [tag in KNOWN_TAGS] *)
Definition known (tag : string) : bool :=
  match lookup tag KNOWN_TAGS with Some _ => true | None => false end.

(** [sep.join(parts)] *)
Fixpoint join_with (sep : string) (parts : list string) : string :=
  match parts with
  | [] => EmptyString
  | [p] => p
  | p :: rest => p +:+ sep +:+ join_with sep rest
  end.

(** [[KNOWN_TAGS[tag] + tag if emoji else tag for tag in tags]] *)
Fixpoint labels (emoji : bool) (tags : list string) : result (list string) :=
  match tags with
  | [] => ret []
  | tag :: rest =>
      bind (if emoji then
              match lookup tag KNOWN_TAGS with
              | Some e => ret (e +:+ tag)
              | None => raise (Exn "KeyError" tag true)
              end
            else ret tag) (fun l =>
      bind (labels emoji rest) (fun ls => ret (l :: ls)))
  end.

Definition get_label (tags : option (list string)) (emoji : bool)
  : result string :=
  match tags with
  | None | Some [] => ret EmptyString
  | Some tags =>
      bind (labels emoji tags) (fun parts => ret (join_with " · " parts))
  end.

(** [s.split(",")] *)
Fixpoint split_commas (s : string) : list string :=
  match s with
  | EmptyString => [EmptyString]
  | String c rest =>
      if Ascii.eqb c ","%char then EmptyString :: split_commas rest
      else
        match split_commas rest with
        | [] => [String c EmptyString]
        | p :: ps => String c p :: ps
        end
  end.

Section Tagging.

(** [str.strip], [str.lstrip], [tags_re.findall], the text of the steps so
    far, and the tagging model: the content of its answer to the request,
    by the number of answers given before. *)
Variable strip : string -> string.
Variable lstrip : string -> string.
Variable findall : string -> list string.
Variable format_steps : list string -> string.
Variable chat : nat -> string -> string -> result string.

(** The body of [while retry < 10], with the calls made so far. *)
Fixpoint tag_loop (fuel retry : nat) (steps_fmt step : string)
  : result (list string) * nat :=
  match fuel with
  | O => (ret [], retry)
  | S fuel' =>
      match chat retry steps_fmt step with
      | inl e => (raise e, S retry)
      | inr answer =>
          let content := "<tags>" +:+ lstrip answer in
          match findall content with
          | [] => (ret [], S retry)
          | first :: _ =>
              let tags := map strip (split_commas first) in
              if forallb known tags then (ret tags, S retry)
              else tag_loop fuel' (S retry) steps_fmt step
          end
      end
  end.

(** [extract_tag_in_step], with the number of calls to the model. *)
Definition extract_tag_in_step (steps : list string) (step : string)
  : result (list string) * nat :=
  let steps_fmt := format_steps steps in
  if 300000 <? Z.of_nat (String.length steps_fmt) then (ret [], 0%nat)
  else tag_loop 10 0 steps_fmt step.

Lemma tag_loop_spec fuel : forall retry steps_fmt step,
  (snd (tag_loop fuel retry steps_fmt step) <= retry + fuel)%nat /\
  forall tags,
    fst (tag_loop fuel retry steps_fmt step) = ret tags ->
    forallb known tags = true.
Proof.
  induction fuel as [|fuel IH]; intros retry steps_fmt step; simpl.
  - split; [lia|]. intros tags H. by inversion H.
  - destruct (chat retry steps_fmt step) as [e|answer]; simpl.
    { split; [lia|]. intros tags H. discriminate H. }
    destruct (findall _) as [|first rest]; simpl.
    { split; [lia|]. intros tags H. by inversion H. }
    destruct (forallb known (map strip (split_commas first))) eqn:Hk; simpl.
    { split; [lia|]. intros tags H. by inversion H; subst. }
    destruct (IH (S retry) steps_fmt step) as [Hc Ht].
    split; [lia|exact Ht].
Qed.

Lemma lookup_nonempty tag e : lookup tag KNOWN_TAGS = Some e -> e <> EmptyString.
Proof.
  unfold KNOWN_TAGS. simpl.
  repeat match goal with
         | |- context [if ?b then _ else _] => destruct b
         end; intros H; inversion H; discriminate.
Qed.

Lemma labels_known tags :
  forallb known tags = true ->
  exists parts,
    labels true tags = ret parts /\
    length parts = length tags /\
    Forall (fun p => p <> EmptyString) parts.
Proof.
  induction tags as [|tag tags IH]; intros H.
  - by exists [].
  - simpl in H. apply andb_prop in H as [Hk Hrest].
    destruct (IH Hrest) as (parts & Hp & Hlen & Hne).
    unfold known in Hk.
    destruct (lookup tag KNOWN_TAGS) as [e|] eqn:He; [|discriminate].
    exists ((e +:+ tag) :: parts). cbn [labels]. rewrite He, Hp.
    split; [reflexivity|]. split; [simpl; by rewrite Hlen|].
    apply Forall_cons. split; [|exact Hne].
    pose proof (lookup_nonempty tag e He) as Hn.
    destruct e; [done|discriminate].
Qed.

Lemma join_with_nonempty sep parts :
  parts <> [] -> Forall (fun p => p <> EmptyString) parts ->
  join_with sep parts <> EmptyString.
Proof.
  destruct parts as [|p rest]; [done|]. intros _ H.
  apply Forall_cons in H as [Hp _].
  destruct p; [done|]. simpl. by destruct rest.
Qed.

(** X29. Tagging asks the model at most ten times and returns only known
    tags: whatever the model answers, [extract_tag_in_step] returns the
    empty list or a list of keys of [KNOWN_TAGS], so that [get_label] on
    its result never fails with a [KeyError]; the label is empty exactly
    when no tags were returned. *)
Theorem extract_tag_in_step_returns_known_tags :
  forall (steps : list string) (step : string) (tags : list string),
    fst (extract_tag_in_step steps step) = ret tags ->
    (snd (extract_tag_in_step steps step) <= 10)%nat /\
    Forall (fun tag => is_Some (lookup tag KNOWN_TAGS)) tags /\
    exists label,
      get_label (Some tags) true = ret label /\
      (label = EmptyString <-> tags = []).
Proof.
  intros steps step tags H.
  assert (Hk : forallb known tags = true /\
               (snd (extract_tag_in_step steps step) <= 10)%nat).
  { revert H. unfold extract_tag_in_step.
    destruct (_ <? _); simpl.
    - intros H. inversion H. split; [reflexivity|lia].
    - destruct (tag_loop_spec 10 0 (format_steps steps) step) as [Hc Ht].
      intros H. split; [by apply Ht|simpl in Hc; lia]. }
  destruct Hk as [Hk Hc]. split; [exact Hc|]. split.
  - apply Forall_forall. intros tag Hin.
    rewrite forallb_forall in Hk. apply list_elem_of_In in Hin.
    specialize (Hk tag Hin). unfold known in Hk.
    by destruct (lookup tag KNOWN_TAGS); [eexists|].
  - destruct (labels_known tags Hk) as (parts & Hp & Hlen & Hne).
    destruct tags as [|tag rest].
    + exists EmptyString. by split.
    + exists (join_with " · " parts). unfold get_label. rewrite Hp.
      split; [reflexivity|]. split; [|discriminate].
      intros Hl. exfalso. revert Hl. apply join_with_nonempty; [|exact Hne].
      destruct parts; [discriminate Hlen|discriminate].
Qed.

End Tagging.

(** The model first names a tag that does not exist, then answers well. *)
Definition demo_tagger (n : nat) (steps_fmt step : string) : result string :=
  match n with
  | O => ret "FIX_IT</tags>"
  | _ => ret "WRITE_FIX,VERIFY_FIX</tags>"
  end.

(** A stand-in for the pattern: what lies between the tag marks. *)
Definition demo_findall (content : string) : list string :=
  if String.eqb content "<tags>FIX_IT</tags>" then ["FIX_IT"]
  else if String.eqb content "<tags>WRITE_FIX,VERIFY_FIX</tags>"
  then ["WRITE_FIX,VERIFY_FIX"]
  else [].

Definition demo_tagging : result (list string) * nat :=
  extract_tag_in_step (fun s => s) (fun s => s) demo_findall
    (fun _ => EmptyString) demo_tagger [] "edit parser.py".

Example demo_tagging_retries :
  demo_tagging = (ret ["WRITE_FIX"; "VERIFY_FIX"], 2%nat).
Proof. reflexivity. Qed.

Lemma extract_tag_in_step_returns_known_tags_witness :
  (snd demo_tagging <= 10)%nat /\
  exists label,
    get_label (Some ["WRITE_FIX"; "VERIFY_FIX"]) true = ret label /\
    (label = EmptyString <-> ["WRITE_FIX"; "VERIFY_FIX"] = []).
Proof.
  destruct (extract_tag_in_step_returns_known_tags (fun s => s) (fun s => s)
              demo_findall (fun _ => EmptyString) demo_tagger []
              "edit parser.py" ["WRITE_FIX"; "VERIFY_FIX"] eq_refl)
    as (Hc & _ & Hl).
  split; [exact Hc|exact Hl].
Defined.

End Lakeview.
